(** * 3D Slicer Pro: part decomposition and feature synthesis

    A shallow embedding of [services/csgService.ts] (grid and manual slicing,
    hollowing, connector and label synthesis) and of the connector preview of
    [components/Viewer.tsx].

    Modelling conventions.
    - A JavaScript [number] is an exact rational ([Q]); loop counters and the
      results of [Math.floor] / [Math.ceil] are integers ([Z]).  Rounding,
      [NaN] and the infinities of IEEE doubles are outside the model, so
      a statement about a division by a configured or measured size
      carries the hypothesis that the size is positive.
    - A [THREE.BufferGeometry] is a symbolic term recording how it was built.
      What three.js and three-bvh-csg compute on geometries (vertex welding,
      boolean evaluation, ray casting, bounding boxes) is supplied by a
      [Backend] record; an evaluator or library exception is a [Throw].
    - Console output, progress callbacks and the calls made to the evaluator
      are recorded, in order, in a trace of [Event]s. *)

From Stdlib Require Import QArith Qround Qminmax Lqa ZArith Lia List Bool String.
From Stdlib Require Import DecimalString Sorted.
From Stdlib Require DecimalZ DecimalPos.
Import ListNotations.

Open Scope Q_scope.

(** ** Numbers *)

Definition Qltb (a b : Q) : bool := negb (Qle_bool b a).
Definition Qgtb (a b : Q) : bool := Qltb b a.

Definition numToString (n : Z) : string := NilZero.string_of_int (Z.to_int n).

(** [for (let i = 0; i < n; i++)]: the indices visited, in order. *)
Definition range (n : Z) : list Z := map Z.of_nat (seq 0 (Z.to_nat n)).


(** ** three.js values *)

Record Vector3 := vec3 { vx : Q; vy : Q; vz : Q }.

Definition addScaledVector (p n : Vector3) (s : Q) : Vector3 :=
  vec3 (vx p + vx n * s) (vy p + vy n * s) (vz p + vz n * s).

Definition negate (n : Vector3) : Vector3 := vec3 (- vx n) (- vy n) (- vz n).

Definition addVec (p q : Vector3) : Vector3 :=
  vec3 (vx p + vx q) (vy p + vy q) (vz p + vz q).

Record Box3 := box3 { bmin : Vector3; bmax : Vector3 }.

Definition isEmpty (b : Box3) : bool :=
  Qltb (vx (bmax b)) (vx (bmin b))
  || Qltb (vy (bmax b)) (vy (bmin b))
  || Qltb (vz (bmax b)) (vz (bmin b)).

Definition getSize (b : Box3) : Vector3 :=
  if isEmpty b then vec3 0 0 0
  else vec3 (vx (bmax b) - vx (bmin b))
            (vy (bmax b) - vy (bmin b))
            (vz (bmax b) - vz (bmin b)).

Definition getCenter (b : Box3) : Vector3 :=
  if isEmpty b then vec3 0 0 0
  else vec3 ((vx (bmin b) + vx (bmax b)) * 0.5)
            ((vy (bmin b) + vy (bmax b)) * 0.5)
            ((vz (bmin b) + vz (bmax b)) * 0.5).

Inductive Axis := AxisX | AxisY | AxisZ.

#[warnings="-register-all"]
Inductive Geometry :=
| GMesh (id : nat)
| GEmpty
| GBox (w h d : Q)
| GCylinder (radiusTop radiusBottom height : Q) (segments : Z)
| GTranslate (g : Geometry) (dx dy dz : Q)
| GScale (g : Geometry) (sx sy sz : Q)
| GRotateX90 (g : Geometry)
| GRotateZ90 (g : Geometry)
| GMerge (gs : list Geometry).

Record Brush := mkBrush { brushGeometry : Geometry }.

Inductive Operation := ADDITION | SUBTRACTION | INTERSECTION.

(** ** Exceptions, console and trace *)

Inductive Error := JsError (message : string).

Inductive Event :=
| EvProgress (message : string)
| EvYield
| EvNormalize (g : Geometry)
| EvEvaluate (a b : Brush) (op : Operation)
| EvConsoleError (message : string).

Inductive Outcome (A : Type) :=
| Ok (a : A)
| Throw (e : Error).
Arguments Ok {A} a.
Arguments Throw {A} e.

Definition M (A : Type) : Type := list Event -> Outcome A * list Event.

Definition ret {A} (a : A) : M A := fun t => (Ok a, t).

Definition bind {A B} (m : M A) (k : A -> M B) : M B :=
  fun t => match m t with
           | (Ok a, t') => k a t'
           | (Throw e, t') => (Throw e, t')
           end.

Definition throw {A} (e : Error) : M A := fun t => (Throw e, t).

Definition tryCatch {A} (body : M A) (handler : Error -> M A) : M A :=
  fun t => match body t with
           | (Ok a, t') => (Ok a, t')
           | (Throw e, t') => handler e t'
           end.

Definition emit (ev : Event) : M unit := fun t => (Ok tt, t ++ [ev]).

Definition run {A} (m : M A) : Outcome A * list Event := m [].

Notation "x <- m ;; k" := (bind m (fun x => k))
  (at level 61, m at next level, right associativity).
Notation "m ;;; k" := (bind m (fun _ => k))
  (at level 61, right associativity).

(** A loop over a list of indices threading the loop-carried variables. *)
Fixpoint forEach {I S} (l : list I) (body : I -> S -> M S) (s : S) : M S :=
  match l with
  | [] => ret s
  | i :: l' => s' <- body i s ;; forEach l' body s'
  end.

(** ** The libraries behind the service *)

Record Backend := {
  (** [geo.attributes.position.count], [None] when the attribute is absent *)
  positionCount : Geometry -> option Z;
  (** [!!geo.index] *)
  hasIndex : Geometry -> bool;
  (** steps 1 to 5 of [ensureValidForCSG]: [toNonIndexed], stripping to
      positions, [mergeVertices] with its manual fallback, the [Uint32Array]
      index and the final housekeeping (its [console.warn] is not traced) *)
  weldAndIndex : Geometry -> Outcome Geometry;
  (** [new Brush(geo, material)], [updateMatrixWorld], [updateStructure] *)
  buildStructure : Geometry -> Outcome unit;
  (** [evaluator.evaluate(a, b, op).geometry] *)
  evaluate : Brush -> Brush -> Operation -> Outcome Geometry;
  (** [new THREE.Box3().setFromBufferAttribute(geo.getAttribute('position'))] *)
  boundingBox : Geometry -> Box3;
  (** [raycaster.intersectObject(mesh)] after [raycaster.set(origin, dir)]
      and [raycaster.far = far]: the distances of the hits, in the order
      returned *)
  intersectObject : Geometry -> Vector3 -> Vector3 -> Q -> list Q
}.

(** ** Configuration records ([types.ts]) *)

Inductive Mode := grid | manual.

Record SlicingConfig := {
  mode : Mode;
  printerX : Q; printerY : Q; printerZ : Q;
  manualX : Q; manualY : Q; manualZ : Q;
  showX : bool; showY : bool; showZ : bool;
  explodeFactor : Q
}.

Record ConnectorConfig := {
  c_enabled : bool;
  c_diameter : Q;
  c_length : Q;
  c_tolerance : Q;
  c_spacing : Q;
  c_edgeMargin : Q;
  c_showInPreview : bool
}.

Record HollowConfig := {
  h_enabled : bool;
  h_wallThickness : Q;
  h_drainHoleEnabled : bool;
  h_drainHoleDiameter : Q
}.

Record LabelConfig := {
  l_enabled : bool;
  l_plateSize : Q;
  l_thickness : Q;
  l_showInPreview : bool
}.

Record ModelPart := {
  geometry : Geometry;
  name : string;
  index : Z * Z * Z
}.

(** ** [services/csgService.ts] *)

Section Service.

Context (B : Backend).

Definition liftOutcome {A} (o : Outcome A) : M A := fun t => (o, t).

Definition evaluateM (a b : Brush) (op : Operation) : M Geometry :=
  emit (EvEvaluate a b op) ;;; liftOutcome (evaluate B a b op).

(** [geo.attributes.position.count]; reading [count] of a missing attribute
    is a [TypeError]. *)
Definition getPositionCount (geo : Geometry) : M Z :=
  match positionCount B geo with
  | Some n => ret n
  | None => throw (JsError "TypeError: Cannot read properties of undefined (reading 'count')")
  end.

Definition ensureValidForCSG (geo : Geometry) : M Geometry :=
  emit (EvNormalize geo) ;;;
  match positionCount B geo with
  | None => ret GEmpty
  | Some n => if (n =? 0)%Z then ret GEmpty else liftOutcome (weldAndIndex B geo)
  end.

Definition createBrush (geo : Geometry) : M (option Brush) :=
  tryCatch
    (validGeo <- ensureValidForCSG geo ;;
     n <- getPositionCount validGeo ;;
     if (n =? 0)%Z || negb (hasIndex B validGeo) then ret None
     else liftOutcome (buildStructure B validGeo) ;;;
          ret (Some (mkBrush validGeo)))
    (fun e => emit (EvConsoleError "Brush preparation failed:") ;;; ret None).

Definition orElse (b : option Brush) (fallback : Brush) : Brush :=
  match b with Some b' => b' | None => fallback end.

Definition hollowScale (size wall : Q) : Q :=
  Qmax 0.01 ((size - wall * 2) / size).

Definition innerShell (base : Geometry) (center : Vector3)
    (scaleX scaleY scaleZ : Q) : Geometry :=
  GTranslate
    (GScale (GTranslate base (- vx center) (- vy center) (- vz center))
            scaleX scaleY scaleZ)
    (vx center) (vy center) (vz center).

Definition applyHollowing (baseBrush : Brush) (bounds : Box3)
    (config : HollowConfig) : M Brush :=
  if negb (h_enabled config) then ret baseBrush else
  let size := getSize bounds in
  let center := getCenter bounds in
  let wall := h_wallThickness config in
  let scaleX := hollowScale (vx size) wall in
  let scaleY := hollowScale (vy size) wall in
  let scaleZ := hollowScale (vz size) wall in
  let innerGeo := innerShell (brushGeometry baseBrush) center scaleX scaleY scaleZ in
  innerBrush <- createBrush innerGeo ;;
  match innerBrush with
  | None => ret baseBrush
  | Some innerBrush =>
    tryCatch
      (result <- evaluateM baseBrush innerBrush SUBTRACTION ;;
       rb <- createBrush result ;;
       let resultBrush := orElse rb baseBrush in
       if h_drainHoleEnabled config then
         let holeRadius := h_drainHoleDiameter config / 2 in
         let holeHeight := vy size + 100 in
         let holeGeo :=
           GTranslate (GCylinder holeRadius holeRadius holeHeight 16)
                      (vx center) (vy (bmin bounds)) (vz center) in
         holeBrush <- createBrush holeGeo ;;
         match holeBrush with
         | Some holeBrush =>
           withDrain <- evaluateM resultBrush holeBrush SUBTRACTION ;;
           wb <- createBrush withDrain ;;
           ret (orElse wb resultBrush)
         | None => ret resultBrush
         end
       else ret resultBrush)
      (fun e => emit (EvConsoleError "Hollowing operation failure:") ;;;
                ret baseBrush)
  end.

Definition isValidPlacement (mesh : Geometry) (point normal : Vector3)
    (minDepth : Q) : bool :=
  let hits := intersectObject B mesh (addScaledVector point normal 0.5)
                              (negate normal) 1.0 in
  match hits with
  | [] => false
  | _ :: _ =>
    let hits := intersectObject B mesh (addScaledVector point normal (-0.1))
                                (negate normal) minDepth in
    match hits with
    | [] => true
    | h0 :: _ => Qgtb h0 minDepth
    end
  end.

(** *** Connectors *)

Definition connectorRadius (connectors : ConnectorConfig) (isPeg : bool) : Q :=
  if isPeg then c_diameter connectors / 2
  else (c_diameter connectors / 2) + c_tolerance connectors.

Definition connectorOp (isPeg : bool) : Operation :=
  if isPeg then ADDITION else SUBTRACTION.

Definition connectorCylinder (connectors : ConnectorConfig) (faceAxis : Axis)
    (isPeg : bool) : Geometry :=
  let r := connectorRadius connectors isPeg in
  let h := c_length connectors in
  let cylGeo := GCylinder r r h 16 in
  match faceAxis with
  | AxisX => GRotateZ90 cylGeo
  | AxisZ => GRotateX90 cylGeo
  | AxisY => cylGeo
  end.

Definition effectiveSpacing (connectors : ConnectorConfig) : Q :=
  Qmax 5 (c_spacing connectors).

Definition faceExtents (faceAxis : Axis) (size : Vector3) : Q * Q :=
  match faceAxis with
  | AxisX => (vz size, vy size)
  | AxisY => (vx size, vz size)
  | AxisZ => (vx size, vy size)
  end.

Definition candidateCount (face margin spacing : Q) : Z :=
  Z.max 0 (Qfloor ((face - margin * 2) / spacing)).

Definition candidateOffset (d count : Z) (spacing : Q) : Q :=
  (inject_Z d * spacing) - (inject_Z count * spacing) / 2.

Definition faceNormalOf (faceAxis : Axis) (isPeg : bool) : Vector3 :=
  let s : Q := if isPeg then 1 else -1 in
  match faceAxis with
  | AxisX => vec3 s 0 0
  | AxisY => vec3 0 s 0
  | AxisZ => vec3 0 0 s
  end.

Definition candidateWorldPos (faceAxis : Axis) (isPeg : bool) (box : Box3)
    (center : Vector3) (hOff vOff : Q) : Vector3 :=
  match faceAxis with
  | AxisX => vec3 (if isPeg then vx (bmax box) else vx (bmin box))
                  (vy center + vOff) (vz center + hOff)
  | AxisY => vec3 (vx center + hOff)
                  (if isPeg then vy (bmax box) else vy (bmin box))
                  (vz center + vOff)
  | AxisZ => vec3 (vx center + hOff) (vy center + vOff)
                  (if isPeg then vz (bmax box) else vz (bmin box))
  end.

(** The two nested [for] loops of [addFeatures]: [geometries] after them. *)
Definition placeFeatures (tempMesh cylGeo : Geometry) (faceAxis : Axis)
    (isPeg : bool) (box : Box3) (center : Vector3) (spacing h : Q)
    (countH countV : Z) : list Geometry :=
  let faceNormal := faceNormalOf faceAxis isPeg in
  fold_left (fun geometries dh =>
    fold_left (fun geometries dv =>
      let hOff := candidateOffset dh countH spacing in
      let vOff := candidateOffset dv countV spacing in
      let worldPos := candidateWorldPos faceAxis isPeg box center hOff vOff in
      if isValidPlacement tempMesh worldPos faceNormal (h * 0.7)
      then geometries ++ [GTranslate cylGeo (vx worldPos) (vy worldPos) (vz worldPos)]
      else geometries)
      (range (countV + 1)) geometries)
    (range (countH + 1)) [].

(** [resultBrush] and [tempMesh.geometry], the two variables [addFeatures]
    assigns. *)
Record ConnState := {
  resultBrush : Brush;
  tempMeshGeometry : Geometry
}.

Definition addFeatures (connectors : ConnectorConfig) (box : Box3)
    (size center : Vector3) (faceAxis : Axis) (isPeg : bool)
    (st : ConnState) : M ConnState :=
  let h := c_length connectors in
  let cylGeo := connectorCylinder connectors faceAxis isPeg in
  let spacing := effectiveSpacing connectors in
  let margin := c_edgeMargin connectors in
  let '(faceW, faceH) := faceExtents faceAxis size in
  let countH := candidateCount faceW margin spacing in
  let countV := candidateCount faceH margin spacing in
  let geometries :=
    placeFeatures (tempMeshGeometry st) cylGeo faceAxis isPeg box center
                  spacing h countH countV in
  if (0 <? Z.of_nat (List.length geometries))%Z then
    let merged := GMerge geometries in
    opBrush <- createBrush merged ;;
    match opBrush with
    | Some opBrush =>
      let op := connectorOp isPeg in
      res <- evaluateM (resultBrush st) opBrush op ;;
      nb <- createBrush res ;;
      let rb := orElse nb (resultBrush st) in
      ret {| resultBrush := rb; tempMeshGeometry := brushGeometry rb |}
    | None => ret st
    end
  else ret st.

Definition when (c : bool) (f : ConnState -> M ConnState) (st : ConnState)
    : M ConnState :=
  if c then f st else ret st.

Definition applyConnectors (geo : Geometry) (ix iy iz stepsX stepsY stepsZ : Z)
    (config : SlicingConfig) (connectors : ConnectorConfig)
    (boundsMin : Vector3) : M Geometry :=
  rb <- createBrush geo ;;
  match rb with
  | None => ret geo
  | Some rb =>
    let box := boundingBox B geo in
    let size := getSize box in
    let center := getCenter box in
    let add := addFeatures connectors box size center in
    let st := {| resultBrush := rb; tempMeshGeometry := geo |} in
    st <- when (ix <? stepsX - 1)%Z (add AxisX true) st ;;
    st <- when (ix >? 0)%Z (add AxisX false) st ;;
    st <- when (iy <? stepsY - 1)%Z (add AxisY true) st ;;
    st <- when (iy >? 0)%Z (add AxisY false) st ;;
    st <- when (iz <? stepsZ - 1)%Z (add AxisZ true) st ;;
    st <- when (iz >? 0)%Z (add AxisZ false) st ;;
    ret (brushGeometry (resultBrush st))
  end.

(** *** Labels *)

Definition applyLabel (geo : Geometry) (ix iy iz : Z) (config : LabelConfig)
    : M Geometry :=
  let thickness := l_thickness config in
  let plateGeo := GBox (l_plateSize config) thickness (l_plateSize config / 2) in
  let bounds := boundingBox B geo in
  let center := getCenter bounds in
  let plateGeo :=
    GTranslate plateGeo (vx center) (vy (bmin bounds) + thickness / 2) (vz center) in
  baseBrush <- createBrush geo ;;
  labelBrush <- createBrush plateGeo ;;
  match baseBrush, labelBrush with
  | Some baseBrush, Some labelBrush =>
    tryCatch (evaluateM baseBrush labelBrush ADDITION) (fun _ => ret geo)
  | _, _ => ret geo
  end.

(** *** Grid slicing *)

(** [parts] and [current], the variables the slicing loops assign. *)
Record LoopState := {
  current : Z;
  parts : list ModelPart
}.

Definition gridSteps (size envelope : Q) : Z :=
  Z.max 1 (Qceiling (size / envelope)).

(** [w], [h] and [d] of the cell with index [i] on an axis. *)
Definition gridCellSize (size envelope : Q) (steps i : Z) : Q :=
  if (i =? steps - 1)%Z then size - inject_Z i * envelope else envelope.

(** The lower face of the cell box on an axis: the box is centred at
    [min + i * envelope + w / 2] and is [w] wide. *)
Definition gridCellStart (min envelope : Q) (i : Z) : Q :=
  min + inject_Z i * envelope.

Definition partCountLimit : Z := 500.

Definition gridPartName (baseName : string) (ix iy iz : Z) : string :=
  (baseName ++ "_P" ++ numToString ix ++ "-" ++ numToString iy ++ "-"
            ++ numToString iz ++ ".stl")%string.

(** [w < 0.1 || h < 0.1 || d < 0.1] *)
Definition degenerate (w h d : Q) : bool :=
  Qltb w 0.1 || Qltb h 0.1 || Qltb d 0.1.

(** [boxGeo] of a grid cell: a [w] x [h] x [d] box moved to the cell. *)
Definition gridBoxGeo (min : Vector3) (config : SlicingConfig) (ix iy iz : Z)
    (w h d : Q) : Geometry :=
  GTranslate (GBox w h d)
    (gridCellStart (vx min) (printerX config) ix + w / 2)
    (gridCellStart (vy min) (printerY config) iy + h / 2)
    (gridCellStart (vz min) (printerZ config) iz + d / 2).

(** The body of the [try] block of one grid cell. *)
Definition gridCellTry (baseBrush boxBrush : Brush) (ix iy iz stepsX stepsY stepsZ : Z)
    (min : Vector3) (config : SlicingConfig) (connectors : ConnectorConfig)
    (labels : LabelConfig) (baseName : string) (st : LoopState) : M LoopState :=
  res <- evaluateM baseBrush boxBrush INTERSECTION ;;
  n <- getPositionCount res ;;
  if (n >? 0)%Z then
    finalGeo <- (if c_enabled connectors
                 then applyConnectors res ix iy iz stepsX stepsY stepsZ
                                      config connectors min
                 else ret res) ;;
    finalGeo <- (if l_enabled labels
                 then applyLabel finalGeo ix iy iz labels
                 else ret finalGeo) ;;
    g <- ensureValidForCSG finalGeo ;;
    ret {| current := current st;
           parts := parts st ++ [{| geometry := g;
                                    name := gridPartName baseName ix iy iz;
                                    index := (ix, iy, iz) |}] |}
  else ret st.

(** The body of the innermost loop of [performGridSlice]. *)
Definition gridCell (baseBrush : Brush) (size min : Vector3)
    (stepsX stepsY stepsZ total : Z) (config : SlicingConfig)
    (connectors : ConnectorConfig) (labels : LabelConfig) (baseName : string)
    (ix iy iz : Z) (st : LoopState) : M LoopState :=
  let st := {| current := current st + 1; parts := parts st |} in
  emit (EvProgress ("Slicing Fragment " ++ numToString (current st) ++ "/"
                      ++ numToString total ++ "...")) ;;;
  emit EvYield ;;;
  let w := gridCellSize (vx size) (printerX config) stepsX ix in
  let h := gridCellSize (vy size) (printerY config) stepsY iy in
  let d := gridCellSize (vz size) (printerZ config) stepsZ iz in
  if degenerate w h d then ret st else
  let boxGeo := gridBoxGeo min config ix iy iz w h d in
  boxBrush <- createBrush boxGeo ;;
  match boxBrush with
  | None => ret st
  | Some boxBrush =>
    tryCatch
      (gridCellTry baseBrush boxBrush ix iy iz stepsX stepsY stepsZ min
                   config connectors labels baseName st)
      (fun err =>
         emit (EvConsoleError ("Fragment " ++ numToString (current st)
                                 ++ " processing failed:")) ;;;
         ret st)
  end.

Definition gridLoops (baseBrush : Brush) (size min : Vector3)
    (stepsX stepsY stepsZ total : Z) (config : SlicingConfig)
    (connectors : ConnectorConfig) (labels : LabelConfig) (baseName : string)
    (st : LoopState) : M LoopState :=
  forEach (range stepsX) (fun ix =>
    forEach (range stepsY) (fun iy =>
      forEach (range stepsZ) (fun iz =>
        gridCell baseBrush size min stepsX stepsY stepsZ total config
                 connectors labels baseName ix iy iz))) st.

Definition performGridSlice (geometry : Geometry) (bounds : Box3)
    (config : SlicingConfig) (connectors : ConnectorConfig)
    (hollow : HollowConfig) (labels : LabelConfig) (baseName : string)
    : M (list ModelPart) :=
  let size := getSize bounds in
  let min := bmin bounds in
  let stepsX := gridSteps (vx size) (printerX config) in
  let stepsY := gridSteps (vy size) (printerY config) in
  let stepsZ := gridSteps (vz size) (printerZ config) in
  let total := (stepsX * stepsY * stepsZ)%Z in
  if (total >? partCountLimit)%Z
  then throw (JsError "Part count exceeds safety limit (500). Increase printer volume size.")
  else
    baseBrush <- createBrush geometry ;;
    match baseBrush with
    | None => throw (JsError "Could not initialize geometry for CSG.")
    | Some baseBrush =>
      baseBrush <- (if h_enabled hollow
                    then emit (EvProgress "Hollowing Model...") ;;;
                         emit EvYield ;;;
                         applyHollowing baseBrush bounds hollow
                    else ret baseBrush) ;;
      st <- gridLoops baseBrush size min stepsX stepsY stepsZ total config
                      connectors labels baseName
                      {| current := 0; parts := [] |} ;;
      ret (parts st)
    end.

(** *** Manual slicing *)

Definition manualSplits (show : bool) (offset size : Q) : list Q :=
  if show then [offset; size - offset] else [size].

(** [for (let i = 0; i < splits.length; i++) { const w = splits[i]; ... }] *)
Definition enumerate (splits : list Q) : list (Z * Q) :=
  combine (range (Z.of_nat (List.length splits))) splits.

Definition manualPartName (baseName : string) (ix iy iz : Z) : string :=
  (baseName ++ "_M" ++ numToString ix ++ "-" ++ numToString iy ++ "-"
            ++ numToString iz ++ ".stl")%string.

(** [boxGeo] of a manual cell. *)
Definition manualBoxGeo (min : Vector3) (offsetX offsetY offsetZ w h d : Q)
    : Geometry :=
  GTranslate (GBox w h d)
    (vx min + offsetX + w / 2)
    (vy min + offsetY + h / 2)
    (vz min + offsetZ + d / 2).

(** The body of the [try] block of one manual cell. *)
Definition manualCellTry (baseBrush boxBrush : Brush) (ix iy iz : Z)
    (baseName : string) (st : LoopState) : M LoopState :=
  res <- evaluateM baseBrush boxBrush INTERSECTION ;;
  n <- getPositionCount res ;;
  if (n >? 0)%Z then
    g <- ensureValidForCSG res ;;
    ret {| current := current st;
           parts := parts st ++ [{| geometry := g;
                                    name := manualPartName baseName ix iy iz;
                                    index := (ix, iy, iz) |}] |}
  else ret st.

(** The body of the innermost loop of [performManualSlice]; the state is
    the loop state and [offsetZ]. *)
Definition manualCell (baseBrush : Brush) (min : Vector3) (baseName : string)
    (ix : Z) (w offsetX : Q) (iy : Z) (h offsetY : Q) (iz : Z) (d : Q)
    (s : LoopState * Q) : M (LoopState * Q) :=
  let '(st, offsetZ) := s in
  let st := {| current := current st + 1; parts := parts st |} in
  emit (EvProgress ("Cutting Fragment " ++ numToString (current st) ++ "...")) ;;;
  emit EvYield ;;;
  if degenerate w h d then ret (st, offsetZ + d) else
  let boxGeo := manualBoxGeo min offsetX offsetY offsetZ w h d in
  boxBrush <- createBrush boxGeo ;;
  st <- match boxBrush with
        | Some boxBrush =>
          tryCatch
            (manualCellTry baseBrush boxBrush ix iy iz baseName st)
            (fun e => emit (EvConsoleError "Manual cut failure:") ;;; ret st)
        | None => ret st
        end ;;
  ret (st, offsetZ + d).

Definition manualLoops (baseBrush : Brush) (min : Vector3) (baseName : string)
    (splitsX splitsY splitsZ : list Q) (st : LoopState) : M LoopState :=
  r <- forEach (enumerate splitsX) (fun '(ix, w) '(st, offsetX) =>
         r <- forEach (enumerate splitsY) (fun '(iy, h) '(st, offsetY) =>
                r <- forEach (enumerate splitsZ) (fun '(iz, d) =>
                       manualCell baseBrush min baseName
                                  ix w offsetX iy h offsetY iz d)
                     (st, 0) ;;
                ret (fst r, offsetY + h))
              (st, 0) ;;
         ret (fst r, offsetX + w))
       (st, 0) ;;
  ret (fst r).

Definition performManualSlice (geometry : Geometry) (bounds : Box3)
    (config : SlicingConfig) (connectors : ConnectorConfig)
    (hollow : HollowConfig) (labels : LabelConfig) (baseName : string)
    : M (list ModelPart) :=
  let size := getSize bounds in
  let min := bmin bounds in
  let splitsX := manualSplits (showX config) (manualX config) (vx size) in
  let splitsY := manualSplits (showY config) (manualY config) (vy size) in
  let splitsZ := manualSplits (showZ config) (manualZ config) (vz size) in
  baseBrush <- createBrush geometry ;;
  match baseBrush with
  | None => throw (JsError "Geometry initialization failed.")
  | Some baseBrush =>
    baseBrush <- (if h_enabled hollow
                  then emit (EvProgress "Hollowing Model...") ;;;
                       emit EvYield ;;;
                       applyHollowing baseBrush bounds hollow
                  else ret baseBrush) ;;
    st <- manualLoops baseBrush min baseName splitsX splitsY splitsZ
                      {| current := 0; parts := [] |} ;;
    ret (parts st)
  end.

End Service.

(** ** Connector preview ([components/Viewer.tsx]) *)

(** A preview cylinder mesh added to the connector preview group. *)
Record PreviewCylinder := {
  pc_radius : Q;
  pc_height : Q;
  pc_axis : Axis;
  pc_isPeg : bool;
  pc_position : Vector3
}.

(** [spacing] and [margin] are the variables [drawConnector] closes over. *)
Definition drawConnector (connectorConfig : ConnectorConfig) (spacing margin : Q)
    (facePos : Vector3) (axis : Axis) (isPeg : bool) (faceW faceH : Q)
    : list PreviewCylinder :=
  let r := connectorRadius connectorConfig isPeg in
  let h := c_length connectorConfig in
  let countH := candidateCount faceW margin spacing in
  let countV := candidateCount faceH margin spacing in
  fold_left (fun added dh =>
    fold_left (fun added dv =>
      let hOff := candidateOffset dh countH spacing in
      let vOff := candidateOffset dv countV spacing in
      let position :=
        addVec facePos
          match axis with
          | AxisX => vec3 0 vOff hOff
          | AxisY => vec3 hOff 0 vOff
          | AxisZ => vec3 hOff vOff 0
          end in
      added ++ [{| pc_radius := r; pc_height := h; pc_axis := axis;
                   pc_isPeg := isPeg; pc_position := position |}])
      (range (countV + 1)) added)
    (range (countH + 1)) [].

(** The connector block of the per-part preview: the meshes it adds. *)
Definition connectorPreview (connectorConfig : ConnectorConfig)
    (slicingConfig : SlicingConfig) (pBounds : Box3)
    (idx maxIdx : Z * Z * Z) : list PreviewCylinder :=
  let '(idxX, idxY, idxZ) := idx in
  let '(maxX, maxY, maxZ) := maxIdx in
  let pCenter := getCenter pBounds in
  if c_enabled connectorConfig && c_showInPreview connectorConfig then
    let spacing := effectiveSpacing connectorConfig in
    let margin := c_edgeMargin connectorConfig in
    let pVolX := printerX slicingConfig in
    let pVolY := printerY slicingConfig in
    let pVolZ := printerZ slicingConfig in
    let draw := drawConnector connectorConfig spacing margin in
    let bMin := bmin pBounds in
    let bMax := bmax pBounds in
    (if (idxX <? maxX)%Z
     then draw (vec3 (vx bMax) (vy pCenter) (vz pCenter)) AxisX true pVolZ pVolY
     else [])
    ++ (if (idxX >? 0)%Z
        then draw (vec3 (vx bMin) (vy pCenter) (vz pCenter)) AxisX false pVolZ pVolY
        else [])
    ++ (if (idxY <? maxY)%Z
        then draw (vec3 (vx pCenter) (vy bMax) (vz pCenter)) AxisY true pVolX pVolZ
        else [])
    ++ (if (idxY >? 0)%Z
        then draw (vec3 (vx pCenter) (vy bMin) (vz pCenter)) AxisY false pVolX pVolZ
        else [])
    ++ (if (idxZ <? maxZ)%Z
        then draw (vec3 (vx pCenter) (vy pCenter) (vz bMax)) AxisZ true pVolX pVolY
        else [])
    ++ (if (idxZ >? 0)%Z
        then draw (vec3 (vx pCenter) (vy pCenter) (vz bMin)) AxisZ false pVolX pVolY
        else [])
  else [].

(** ** Vocabulary of the statements *)

(** A computation appends to the trace it is started on, and the events it
    appends all satisfy [P]. *)
Definition emitsOnly {A} (P : Event -> Prop) (m : M A) : Prop :=
  forall t, exists d, snd (m t) = t ++ d /\ Forall P d.

Definition appends {A} (m : M A) : Prop := emitsOnly (fun _ => True) m.

(** The events of [addFeatures] on a face: normalizations, console errors,
    and evaluator calls on the part's current brush with the operation of
    the face. *)
Definition faceEvent (isPeg : bool) (ev : Event) : Prop :=
  match ev with
  | EvNormalize _ | EvConsoleError _ => True
  | EvEvaluate _ _ op => op = connectorOp isPeg
  | _ => False
  end.

(** The trace of a computation run from the empty trace starts with [ev]. *)
Definition startsWith {A} (ev : Event) (m : M A) : Prop :=
  exists d, snd (run m) = ev :: d.

(** The index pairs [(dh, dv)] visited by the two candidate loops. *)
Definition candidateIndices (countH countV : Z) : list (Z * Z) :=
  flat_map (fun dh => map (pair dh) (range (countV + 1))) (range (countH + 1)).

(** The candidate centers probed on a face by [addFeatures]. *)
Definition faceCandidates (faceAxis : Axis) (isPeg : bool) (box : Box3)
    (center : Vector3) (spacing : Q) (countH countV : Z) : list Vector3 :=
  map (fun p => candidateWorldPos faceAxis isPeg box center
                  (candidateOffset (fst p) countH spacing)
                  (candidateOffset (snd p) countV spacing))
      (candidateIndices countH countV).

(** The candidate centers of a face with the spacing and the counts that
    [addFeatures] computes for it. *)
Definition addFeaturesCandidates (connectors : ConnectorConfig) (box : Box3)
    (size center : Vector3) (faceAxis : Axis) (isPeg : bool) : list Vector3 :=
  let spacing := effectiveSpacing connectors in
  let margin := c_edgeMargin connectors in
  let countH := candidateCount (fst (faceExtents faceAxis size)) margin spacing in
  let countV := candidateCount (snd (faceExtents faceAxis size)) margin spacing in
  faceCandidates faceAxis isPeg box center spacing countH countV.

(** [intersectObject] returns its hits sorted by distance, closest first. *)
Definition hitsSorted (B : Backend) : Prop :=
  forall mesh origin direction far,
    StronglySorted Qle (intersectObject B mesh origin direction far).

(** The faces of the part at cell [(ix, iy, iz)] that get connectors, with
    [true] for pegs and [false] for sockets: pegs where the neighbour in the
    positive direction exists, sockets where the one in the negative
    direction does. *)
Definition connectorPlan (ix iy iz stepsX stepsY stepsZ : Z) : list (Axis * bool) :=
  (if (ix + 1 <? stepsX)%Z then [(AxisX, true)] else [])
  ++ (if (0 <? ix)%Z then [(AxisX, false)] else [])
  ++ (if (iy + 1 <? stepsY)%Z then [(AxisY, true)] else [])
  ++ (if (0 <? iy)%Z then [(AxisY, false)] else [])
  ++ (if (iz + 1 <? stepsZ)%Z then [(AxisZ, true)] else [])
  ++ (if (0 <? iz)%Z then [(AxisZ, false)] else []).

(** The side of the part a feature is placed on: [addFeatures] puts pegs at
    [box.max] and sockets at [box.min] of the face axis. *)
Inductive Side := Positive | Negative.

Definition featureSide (isPeg : bool) : Side :=
  if isPeg then Positive else Negative.

Definition coordinate (a : Axis) (v : Vector3) : Q :=
  match a with AxisX => vx v | AxisY => vy v | AxisZ => vz v end.

Definition cellIndex (a : Axis) (ix iy iz : Z) : Z :=
  match a with AxisX => ix | AxisY => iy | AxisZ => iz end.

(** One step along axis [a], seen from axis [b]. *)
Definition stepAlong (a b : Axis) : Z :=
  match a, b with
  | AxisX, AxisX | AxisY, AxisY | AxisZ, AxisZ => 1
  | _, _ => 0
  end.

(** Between two loop states: [n] more cells were visited, and the parts
    of the earlier state are a prefix of the parts of the later one. *)
Definition advancedBy (n : nat) (s s' : LoopState) : Prop :=
  current s' = (current s + Z.of_nat n)%Z
  /\ exists added, parts s' = parts s ++ added.

(** A connector configuration with another spacing. *)
Definition withSpacing (c : ConnectorConfig) (s : Q) : ConnectorConfig :=
  {| c_enabled := c_enabled c; c_diameter := c_diameter c;
     c_length := c_length c; c_tolerance := c_tolerance c;
     c_spacing := s; c_edgeMargin := c_edgeMargin c;
     c_showInPreview := c_showInPreview c |}.

(** ** Sample data

    A backend and configurations on which the definitions can be run. *)

(** [App.tsx]: the default configuration. *)
Definition defaultSlicing : SlicingConfig :=
  {| mode := grid;
     printerX := 120; printerY := 120; printerZ := 120;
     manualX := 60; manualY := 60; manualZ := 60;
     showX := false; showY := false; showZ := false;
     explodeFactor := 0.5 |}.

Definition defaultConnectors : ConnectorConfig :=
  {| c_enabled := true; c_diameter := 6; c_length := 12; c_tolerance := 0.3;
     c_spacing := 50; c_edgeMargin := 15; c_showInPreview := true |}.

Definition defaultHollow : HollowConfig :=
  {| h_enabled := false; h_wallThickness := 2.5;
     h_drainHoleEnabled := true; h_drainHoleDiameter := 8 |}.

Definition defaultLabels : LabelConfig :=
  {| l_enabled := true; l_plateSize := 15; l_thickness := 2;
     l_showInPreview := true |}.

(** [App.tsx]: the bounds of the demo model, a 200 x 200 x 200 cube. *)
Definition demoBounds : Box3 :=
  box3 (vec3 (-100) 0 (-100)) (vec3 100 200 100).

(** A backend on which every library call succeeds: every geometry but the
    empty one has eight indexed vertices, the evaluator returns mesh 1, and a
    ray finds the surface at distance 0.5 when it may travel at most 1. *)
Definition sampleBackend : Backend :=
  {| positionCount := fun g => match g with GEmpty => None | _ => Some 8%Z end;
     hasIndex := fun _ => true;
     weldAndIndex := fun g => Ok g;
     buildStructure := fun _ => Ok tt;
     evaluate := fun _ _ _ => Ok (GMesh 1);
     boundingBox := fun _ => demoBounds;
     intersectObject := fun _ _ _ far => if Qle_bool far 1 then [0.5] else [] |}.

(** An envelope of 20 on the demo cube: 10 x 10 x 10 cells. *)
Definition smallEnvelope : SlicingConfig :=
  {| mode := grid;
     printerX := 20; printerY := 20; printerZ := 20;
     manualX := 60; manualY := 60; manualZ := 60;
     showX := false; showY := false; showZ := false;
     explodeFactor := 0.5 |}.

(** A backend whose evaluator throws when asked to subtract a drain-hole
    cylinder, and succeeds otherwise. *)
Definition drainFailBackend : Backend :=
  {| positionCount := positionCount sampleBackend;
     hasIndex := hasIndex sampleBackend;
     weldAndIndex := weldAndIndex sampleBackend;
     buildStructure := buildStructure sampleBackend;
     evaluate := fun _ b _ =>
       match brushGeometry b with
       | GTranslate (GCylinder _ _ _ _) _ _ _ =>
         Throw (JsError "evaluation failed")
       | _ => Ok (GMesh 1)
       end;
     boundingBox := boundingBox sampleBackend;
     intersectObject := intersectObject sampleBackend |}.

Definition hollowWithDrain : HollowConfig :=
  {| h_enabled := true; h_wallThickness := 2.5;
     h_drainHoleEnabled := true; h_drainHoleDiameter := 8 |}.

Definition hollowWithoutDrain : HollowConfig :=
  {| h_enabled := true; h_wallThickness := 2.5;
     h_drainHoleEnabled := false; h_drainHoleDiameter := 8 |}.

(** A backend whose evaluator throws when asked to intersect with a full
    120 x 120 x 120 cell box or with a box 60 wide, and succeeds otherwise. *)
Definition flakyBackend : Backend :=
  {| positionCount := positionCount sampleBackend;
     hasIndex := hasIndex sampleBackend;
     weldAndIndex := weldAndIndex sampleBackend;
     buildStructure := buildStructure sampleBackend;
     evaluate := fun _ b op =>
       match op, brushGeometry b with
       | INTERSECTION, GTranslate (GBox w h d) _ _ _ =>
         if (Qeq_bool w 120 && Qeq_bool h 120 && Qeq_bool d 120)
            || Qeq_bool w 60
         then Throw (JsError "evaluation failed")
         else Ok (GMesh 1)
       | _, _ => Ok (GMesh 1)
       end;
     boundingBox := boundingBox sampleBackend;
     intersectObject := intersectObject sampleBackend |}.

(** Manual mode with a split at 60 along X only. *)
Definition manualSplitX : SlicingConfig :=
  {| mode := manual;
     printerX := 120; printerY := 120; printerZ := 120;
     manualX := 60; manualY := 60; manualZ := 60;
     showX := true; showY := false; showZ := false;
     explodeFactor := 0.5 |}.

(** Connectors packed closer than the floor of 5, on a 20 x 20 x 20 part. *)
Definition denseConnectors : ConnectorConfig :=
  {| c_enabled := true; c_diameter := 6; c_length := 12; c_tolerance := 0.3;
     c_spacing := 2; c_edgeMargin := 0; c_showInPreview := true |}.

Definition smallPartBounds : Box3 := box3 (vec3 0 0 0) (vec3 20 20 20).

(** ** Vocabulary of the further properties *)

(** A freshly constructed [THREE.BufferGeometry] has no [position]
    attribute. *)
Definition emptyHasNoPositions (B : Backend) : Prop :=
  positionCount B GEmpty = None.

(** Events that are not evaluator calls. *)
Definition notEvaluate (ev : Event) : Prop :=
  match ev with
  | EvEvaluate _ _ _ => False
  | _ => True
  end.

(** Normalizations, console errors, and evaluator calls with operation
    [op]. *)
Definition onlyOperation (op : Operation) (ev : Event) : Prop :=
  match ev with
  | EvNormalize _ | EvConsoleError _ => True
  | EvEvaluate _ _ op' => op' = op
  | _ => False
  end.

(** A backend on which a cylinder cannot be made into a brush: it has no
    vertices. *)
Definition noCylinderBackend : Backend :=
  {| positionCount := fun g =>
       match g with
       | GEmpty => None
       | GTranslate (GCylinder _ _ _ _) _ _ _ => Some 0%Z
       | _ => Some 8%Z
       end;
     hasIndex := hasIndex sampleBackend;
     weldAndIndex := weldAndIndex sampleBackend;
     buildStructure := buildStructure sampleBackend;
     evaluate := evaluate sampleBackend;
     boundingBox := boundingBox sampleBackend;
     intersectObject := intersectObject sampleBackend |}.

(** A backend whose evaluator cannot add: it throws on every union. *)
Definition noUnionBackend : Backend :=
  {| positionCount := positionCount sampleBackend;
     hasIndex := hasIndex sampleBackend;
     weldAndIndex := weldAndIndex sampleBackend;
     buildStructure := buildStructure sampleBackend;
     evaluate := fun _ _ op =>
       match op with
       | ADDITION => Throw (JsError "union failed")
       | _ => Ok (GMesh 1)
       end;
     boundingBox := boundingBox sampleBackend;
     intersectObject := intersectObject sampleBackend |}.

(** What [createBrush] may trace: normalizations and console errors. *)
Definition brushEvent (ev : Event) : Prop :=
  match ev with
  | EvNormalize _ | EvConsoleError _ => True
  | _ => False
  end.

(** Events other than progress messages. *)
Definition notProgress (ev : Event) : Prop :=
  match ev with
  | EvProgress _ => False
  | _ => True
  end.

(** The messages handed to [onProgress], in order. *)
Fixpoint progressOf (t : list Event) : list string :=
  match t with
  | [] => []
  | EvProgress message :: t' => message :: progressOf t'
  | _ :: t' => progressOf t'
  end.

(** [l1] is [l2] with some elements left out. *)
Inductive Subseq {A} : list A -> list A -> Prop :=
| Subseq_nil : Subseq [] []
| Subseq_skip (x : A) (l1 l2 : list A) : Subseq l1 l2 -> Subseq l1 (x :: l2)
| Subseq_keep (x : A) (l1 l2 : list A) : Subseq l1 l2 -> Subseq (x :: l1) (x :: l2).

(** The cells of a grid in the order the three loops visit them. *)
Definition gridCells (stepsX stepsY stepsZ : Z) : list (Z * Z * Z) :=
  flat_map (fun ix =>
    flat_map (fun iy =>
      flat_map (fun iz => [(ix, iy, iz)]) (range stepsZ))
      (range stepsY))
    (range stepsX).

Definition gridNameOf (baseName : string) (i : Z * Z * Z) : string :=
  let '(ix, iy, iz) := i in gridPartName baseName ix iy iz.

Definition manualNameOf (baseName : string) (i : Z * Z * Z) : string :=
  let '(ix, iy, iz) := i in manualPartName baseName ix iy iz.

(** The progress message of the [k]-th grid cell and manual cell. *)
Definition gridMessage (total k : Z) : string :=
  ("Slicing Fragment " ++ numToString k ++ "/" ++ numToString total ++ "...")%string.

Definition manualMessage (k : Z) : string :=
  ("Cutting Fragment " ++ numToString k ++ "...")%string.

(** What the loops do between two points of a run while visiting [cells]:
    the counter advances by one per cell, the parts added have their indices
    among the cells, in order, and are named after their index, and one
    progress message per cell is sent, numbered by the counter. *)
Definition loopRun (nameOf : Z * Z * Z -> string) (message : Z -> string)
    (cells : list (Z * Z * Z)) (x y : LoopState * list Event) : Prop :=
  current (fst y) = (current (fst x) + Z.of_nat (List.length cells))%Z
  /\ (exists added,
        parts (fst y) = parts (fst x) ++ added
        /\ Subseq (map index added) cells
        /\ Forall (fun p => name p = nameOf (index p)) added)
  /\ progressOf (snd y)
     = progressOf (snd x)
       ++ map (fun j => message (current (fst x) + Z.of_nat j)%Z)
              (seq 1 (List.length cells)).

(** The evaluator calls a run may make, given which stages are switched on:
    intersections always, subtractions only for hollowing or connectors,
    additions only for connectors or labels. *)
Definition allowedEvent (hollowOn connectorsOn labelsOn : bool) (ev : Event)
    : Prop :=
  match ev with
  | EvEvaluate _ _ INTERSECTION => True
  | EvEvaluate _ _ SUBTRACTION => hollowOn = true \/ connectorsOn = true
  | EvEvaluate _ _ ADDITION => connectorsOn = true \/ labelsOn = true
  | _ => True
  end.

(** The cell at an index is not skipped as degenerate. *)
Definition liveCell (size : Vector3) (config : SlicingConfig)
    (stepsX stepsY stepsZ : Z) (i : Z * Z * Z) : bool :=
  let '(ix, iy, iz) := i in
  negb (degenerate (gridCellSize (vx size) (printerX config) stepsX ix)
                   (gridCellSize (vy size) (printerY config) stepsY iy)
                   (gridCellSize (vz size) (printerZ config) stepsZ iz)).

(** A slab of the demo cube thinner than 0.1 along X. *)
Definition thinBounds : Box3 :=
  box3 (vec3 0 0 (-100)) (vec3 0.05 200 100).

(** ** Split view ([components/Viewer.tsx]) *)

(** [parts.reduce((acc, pt) => [Math.max(acc[0], pt.index[0]), ...],
    [0,0,0])]: the largest index along each axis, starting from 0. *)
Definition maxIndex (parts : list ModelPart) : Z * Z * Z :=
  fold_left (fun acc pt =>
    let '(a0, a1, a2) := acc in
    let '(i0, i1, i2) := index pt in
    (Z.max a0 i0, Z.max a1 i1, Z.max a2 i2))
    parts (0, 0, 0)%Z.

(** The face a preview cylinder belongs to: its axis, and whether it is a
    peg. *)
Definition previewFace (c : PreviewCylinder) : Axis * bool :=
  (pc_axis c, pc_isPeg c).

(** ** Rescaling ([components/Sidebar.tsx]) *)

Inductive Unit := mm | inch | ft.

(** [applyScale]: the factor handed to [onScale], if it is called.  The
    field is a number input, so [scaleVal] is either the empty string
    ([None]) or the text of a number. *)
Definition applyScale (modelBounds : option Box3) (scaleVal : option Q)
    (unit : Unit) : option Q :=
  match modelBounds, scaleVal with
  | Some modelBounds, Some scaleVal =>
    let targetHeightMm :=
      match unit with
      | inch => scaleVal * 25.4
      | ft => scaleVal * 304.8
      | mm => scaleVal
      end in
    let currentHeight := vy (bmax modelBounds) - vy (bmin modelBounds) in
    if Qgtb currentHeight 0 then Some (targetHeightMm / currentHeight)
    else None
  | _, _ => None
  end.

(** ** The application ([App.tsx]) *)

(** [geometry.translate(dx, dy, dz)] followed by [computeBoundingBox], on
    the bounding box. *)
Definition translateBox (b : Box3) (dx dy dz : Q) : Box3 :=
  box3 (addVec (bmin b) (vec3 dx dy dz)) (addVec (bmax b) (vec3 dx dy dz)).

(** [handleFileUpload]: the model bounds stored for a mesh whose bounding
    box is [raw] after loading.  [geometry.center()] translates by the
    negated center of the bounding box. *)
Definition uploadedBounds (raw : Box3) : Box3 :=
  let offset := negate (getCenter raw) in
  let bounds := translateBox raw (vx offset) (vy offset) (vz offset) in
  translateBox bounds 0 (- vy (bmin bounds)) 0.

Inductive ViewMode := original | split.

Record AppState := {
  s_isLoaded : bool;
  s_fileName : string;
  s_parts : list ModelPart;
  s_isProcessing : bool;
  s_progressMessage : string;
  s_viewMode : ViewMode;
  s_sectionView : bool
}.

(** [setState(prev => ({ ...prev, progressMessage: msg }))] *)
Definition setProgressMessage (prev : AppState) (msg : string) : AppState :=
  {| s_isLoaded := s_isLoaded prev;
     s_fileName := s_fileName prev;
     s_parts := s_parts prev;
     s_isProcessing := s_isProcessing prev;
     s_progressMessage := msg;
     s_viewMode := s_viewMode prev;
     s_sectionView := s_sectionView prev |}.

(** [setState(prev => ({ ...prev, isProcessing: b }))] *)
Definition setProcessing (prev : AppState) (b : bool) : AppState :=
  {| s_isLoaded := s_isLoaded prev;
     s_fileName := s_fileName prev;
     s_parts := s_parts prev;
     s_isProcessing := b;
     s_progressMessage := s_progressMessage prev;
     s_viewMode := s_viewMode prev;
     s_sectionView := s_sectionView prev |}.

(** [setState(prev => ({ ...prev, parts: resultParts, isProcessing: false,
    viewMode: 'split' }))] *)
Definition setSliced (prev : AppState) (resultParts : list ModelPart)
    : AppState :=
  {| s_isLoaded := s_isLoaded prev;
     s_fileName := s_fileName prev;
     s_parts := resultParts;
     s_isProcessing := false;
     s_progressMessage := s_progressMessage prev;
     s_viewMode := split;
     s_sectionView := s_sectionView prev |}.

Fixpoint dropChars (n : nat) (s : string) : string :=
  match n, s with
  | O, _ => s
  | S n', String _ s' => dropChars n' s'
  | S _, EmptyString => EmptyString
  end.

(** [s.replace(searchValue, replaceValue)] with a string pattern and a
    replacement without [$]: the first occurrence is replaced. *)
Fixpoint replaceFirst (searchValue replaceValue s : string) : string :=
  if prefix searchValue s
  then (replaceValue ++ dropChars (String.length searchValue) s)%string
  else match s with
       | EmptyString => EmptyString
       | String c s' => String c (replaceFirst searchValue replaceValue s')
       end.

(** [err.message || String(err)]: an [Error] without message prints as its
    name. *)
Definition errorText (err : Error) : string :=
  match err with
  | JsError EmptyString => "Error"
  | JsError message => message
  end.

(** [handleSlicing]: the state it leaves and the alerts it shows.  Each
    progress message of the service goes through [setState] in order. *)
Definition handleSlicing (B : Backend) (mesh : option Geometry)
    (modelBounds : option Box3) (slicingConfig : SlicingConfig)
    (connectorConfig : ConnectorConfig) (hollowConfig : HollowConfig)
    (labelConfig : LabelConfig) (state : AppState)
    : AppState * list string :=
  match mesh, modelBounds with
  | Some geometry, Some modelBounds =>
    let started :=
      setProgressMessage (setProcessing state true)
                         "Industrial CSG Engine Online..." in
    let baseName := replaceFirst ".stl" EmptyString (s_fileName state) in
    let '(outcome, trace) :=
      run (match mode slicingConfig with
           | grid =>
             performGridSlice B geometry modelBounds slicingConfig
                              connectorConfig hollowConfig labelConfig baseName
           | manual =>
             performManualSlice B geometry modelBounds slicingConfig
                                connectorConfig hollowConfig labelConfig
                                baseName
           end) in
    let reported := fold_left setProgressMessage (progressOf trace) started in
    match outcome with
    | Ok resultParts => (setSliced reported resultParts, [])
    | Throw err =>
      (setProcessing reported false,
       [("Slicing encountered an error: " ++ errorText err)%string])
    end
  | _, _ => (state, [])
  end.

(** ** Vocabulary of the application properties *)

Import Ascii.

(** [c] does not occur in [s]. *)
Fixpoint lacks (c : ascii) (s : string) : Prop :=
  match s with
  | EmptyString => True
  | String a s' => a <> c /\ lacks c s'
  end.

(** The characters [0] to [9]. *)
Definition isDigit (c : ascii) : bool :=
  (48 <=? nat_of_ascii c)%nat && (nat_of_ascii c <=? 57)%nat.

(** The name [handleSlicing] has the service give to the part at an
    index. *)
Definition partNameOf (m : Mode) (baseName : string) (i : Z * Z * Z) : string :=
  match m with
  | grid => gridNameOf baseName i
  | manual => manualNameOf baseName i
  end.

(** A state of the application showing the demo model. *)
Definition demoState : AppState :=
  {| s_isLoaded := true;
     s_fileName := "Industrial_Housing_V2.stl";
     s_parts := [];
     s_isProcessing := false;
     s_progressMessage := EmptyString;
     s_viewMode := original;
     s_sectionView := false |}.

(** ** Reading a run off its trace *)

(** Events of the work on one cell: anything but a progress message or a
    yield, which only the loops and the hollowing prelude send. *)
Definition cellEvent (ev : Event) : Prop :=
  match ev with
  | EvProgress _ | EvYield => False
  | _ => True
  end.

(** The cutting boxes of a run: a loop iteration yields and then, unless it
    skips its cell, normalizes the cell's box before anything else. *)
Fixpoint cellBoxes (t : list Event) : list Geometry :=
  match t with
  | [] => []
  | ev :: t' =>
    match ev, t' with
    | EvYield, EvNormalize (GTranslate (GBox w h d) x y z) :: _ =>
      GTranslate (GBox w h d) x y z :: cellBoxes t'
    | _, _ => cellBoxes t'
    end
  end.



(** The centres of the cylinders merged into a connector geometry. *)
Definition featureCentres (g : Geometry) : list Vector3 :=
  match g with
  | GMerge gs =>
    flat_map (fun g' => match g' with
                        | GTranslate _ x y z => [vec3 x y z]
                        | _ => []
                        end) gs
  | _ => []
  end.

Definition isAddition (op : Operation) : bool :=
  match op with ADDITION => true | _ => false end.

Definition isSubtraction (op : Operation) : bool :=
  match op with SUBTRACTION => true | _ => false end.

(** The centres of the cylinders a trace hands to the evaluator with an
    operation that passes [wanted]. *)
Definition featuresOf (wanted : Operation -> bool) (t : list Event)
    : list Vector3 :=
  flat_map (fun ev => match ev with
                      | EvEvaluate _ b op =>
                        if wanted op then featureCentres (brushGeometry b)
                        else []
                      | _ => []
                      end) t.

(** Two points at the same place. *)
Definition sameSpot (p q : Vector3) : bool :=
  Qeq_bool (vx p) (vx q) && Qeq_bool (vy p) (vy q) && Qeq_bool (vz p) (vz q).

(** When a computation returns, the events it appended all satisfy [P]. *)
Definition returnsOnly {A} (P : Event -> Prop) (m : M A) : Prop :=
  forall t a t', m t = (Ok a, t') -> exists d, t' = t ++ d /\ Forall P d.

(** An evaluator call that did not throw. *)
Definition evaluatorReturned (B : Backend) (ev : Event) : Prop :=
  match ev with
  | EvEvaluate a b op => exists res, evaluate B a b op = Ok res
  | _ => True
  end.

(** ** More sample data *)

(** A model 120.05 long on a 120 envelope: the second cell along X is a
    sliver of 0.05. *)
Definition sliverBounds : Box3 :=
  box3 (vec3 0 0 0) (vec3 120.05 100 100).

(** A tapering model cut in two along X: the part at cell 0 (mesh 1) is
    100 x 100 across, the part at cell 1 (mesh 2) is 60 x 60 across. *)
Definition taperBackend : Backend :=
  {| positionCount := positionCount sampleBackend;
     hasIndex := hasIndex sampleBackend;
     weldAndIndex := weldAndIndex sampleBackend;
     buildStructure := buildStructure sampleBackend;
     evaluate := evaluate sampleBackend;
     boundingBox := fun g =>
       match g with
       | GMesh 2 => box3 (vec3 120 0 0) (vec3 200 60 60)
       | _ => box3 (vec3 0 0 0) (vec3 120 100 100)
       end;
     intersectObject := intersectObject sampleBackend |}.

(** The default connectors, switched off. *)
Definition connectorsOff : ConnectorConfig :=
  {| c_enabled := false; c_diameter := 6; c_length := 12; c_tolerance := 0.3;
     c_spacing := 50; c_edgeMargin := 15; c_showInPreview := true |}.

(** * Properties *)

(** ** Running a computation step by step *)

Lemma bind_ok {A C} (m : M A) (k : A -> M C) (t t' : list Event) (a : A) :
  m t = (Ok a, t') -> bind m k t = k a t'.
Proof. intros H. unfold bind. now rewrite H. Qed.

Lemma bind_throw {A C} (m : M A) (k : A -> M C) (t t' : list Event) (e : Error) :
  m t = (Throw e, t') -> bind m k t = (Throw e, t').
Proof. intros H. unfold bind. now rewrite H. Qed.

Lemma tryCatch_ok {A} (m : M A) (h : Error -> M A) (t t' : list Event) (a : A) :
  m t = (Ok a, t') -> tryCatch m h t = (Ok a, t').
Proof. intros H. unfold tryCatch. now rewrite H. Qed.

Lemma tryCatch_throw {A} (m : M A) (h : Error -> M A) (t t' : list Event)
    (e : Error) :
  m t = (Throw e, t') -> tryCatch m h t = h e t'.
Proof. intros H. unfold tryCatch. now rewrite H. Qed.

Lemma bind_ext {A C} (m : M A) (k1 k2 : A -> M C) (t : list Event) :
  (forall a t', k1 a t' = k2 a t') -> bind m k1 t = bind m k2 t.
Proof.
  intros E. unfold bind. destruct (m t) as [[a|e] t1]; [apply E | reflexivity].
Qed.

Lemma bind_assoc {A C D} (m : M A) (f : A -> M C) (g : C -> M D)
    (t : list Event) :
  bind (bind m f) g t = bind m (fun a => bind (f a) g) t.
Proof. unfold bind. destruct (m t) as [[a|e] t1]; reflexivity. Qed.

Lemma bind_emit {C} (ev : Event) (k : unit -> M C) (t : list Event) :
  bind (emit ev) k t = k tt (t ++ [ev]).
Proof. reflexivity. Qed.

Ltac step H :=
  match type of H with
  | bind ?m _ ?t = _ =>
    let E := fresh "E" in
    destruct (m t) as [[?|?] ?] eqn:E;
    [ rewrite (bind_ok _ _ _ _ _ E) in H
    | rewrite (bind_throw _ _ _ _ _ E) in H; discriminate H ]
  end.

(** ** Grid partition *)



Lemma range_bounds (n i : Z) : In i (range n) <-> (0 <= i < n)%Z.
Proof.
  unfold range. rewrite in_map_iff. split.
  - intros (k & <- & Hk). apply in_seq in Hk. lia.
  - intros Hi. exists (Z.to_nat i). split; [lia|]. apply in_seq. lia.
Qed.

Lemma range_length (n : Z) : List.length (range n) = Z.to_nat n.
Proof. unfold range. now rewrite length_map, length_seq. Qed.




(** Scenario A: a 200 cube in a 120 envelope is cut in two along each axis,
    and the last cell is 80 wide. *)
Example scenario_A :
  gridSteps 200 120 = 2%Z /\
  Qred (gridCellSize 200 120 2 0) = 120 /\
  Qred (gridCellSize 200 120 2 1) = 80.
Proof. repeat split; reflexivity. Qed.


(** ** The part-count safety limit *)

(** C3. In grid mode (every envelope dimension positive), when the cell count
    [stepsX * stepsY * stepsZ] exceeds 500, [performGridSlice] throws the
    configuration error and its trace is empty: no mesh was normalized, the
    evaluator was not called, not even a progress message was sent; a thrown
    run returns no part list. *)
Theorem grid_limit_aborts_before_geometry (B : Backend) (geometry : Geometry)
    (bounds : Box3) (config : SlicingConfig) (connectors : ConnectorConfig)
    (hollow : HollowConfig) (labels : LabelConfig) (baseName : string) :
  0 < printerX config -> 0 < printerY config -> 0 < printerZ config ->
  (gridSteps (vx (getSize bounds)) (printerX config)
   * gridSteps (vy (getSize bounds)) (printerY config)
   * gridSteps (vz (getSize bounds)) (printerZ config) > 500)%Z ->
  run (performGridSlice B geometry bounds config connectors hollow labels baseName)
  = (Throw (JsError "Part count exceeds safety limit (500). Increase printer volume size."),
     []).
Proof.
  intros _ _ _ Htotal. unfold run, performGridSlice, partCountLimit.
  destruct (Z.gtb_spec
              (gridSteps (vx (getSize bounds)) (printerX config)
               * gridSteps (vy (getSize bounds)) (printerY config)
               * gridSteps (vz (getSize bounds)) (printerZ config)) 500) as [_|Hle].
  - reflexivity.
  - lia.
Qed.

Lemma grid_limit_aborts_before_geometry_witness :
  fst (run (performGridSlice sampleBackend (GMesh 0) demoBounds smallEnvelope
              defaultConnectors defaultHollow defaultLabels "demo"))
  = Throw (JsError "Part count exceeds safety limit (500). Increase printer volume size.").
Proof.
  rewrite (grid_limit_aborts_before_geometry sampleBackend (GMesh 0) demoBounds
             smallEnvelope defaultConnectors defaultHollow defaultLabels "demo").
  - reflexivity.
  - reflexivity.
  - reflexivity.
  - reflexivity.
  - vm_compute. reflexivity.
Defined.

(** ** Traces only grow *)

Lemma emitsOnly_weaken {A} (P Q : Event -> Prop) (m : M A) :
  (forall ev, P ev -> Q ev) -> emitsOnly P m -> emitsOnly Q m.
Proof.
  intros HPQ Hm t. destruct (Hm t) as (d & Hd & HP). exists d. split; [exact Hd|].
  eapply Forall_impl; [|exact HP]. exact HPQ.
Qed.

Lemma emitsOnly_ret {A} (P : Event -> Prop) (a : A) : emitsOnly P (ret a).
Proof. intros t. exists []. simpl. now rewrite app_nil_r. Qed.

Lemma emitsOnly_throw {A} (P : Event -> Prop) (e : Error) :
  emitsOnly P (@throw A e).
Proof. intros t. exists []. simpl. now rewrite app_nil_r. Qed.

Lemma emitsOnly_lift {A} (P : Event -> Prop) (o : Outcome A) :
  emitsOnly P (liftOutcome o).
Proof. intros t. exists []. simpl. now rewrite app_nil_r. Qed.

Lemma emitsOnly_emit (P : Event -> Prop) (ev : Event) :
  P ev -> emitsOnly P (emit ev).
Proof. intros H t. exists [ev]. split; [reflexivity | now constructor]. Qed.

Lemma emitsOnly_bind {A C} (P : Event -> Prop) (m : M A) (k : A -> M C) :
  emitsOnly P m -> (forall a, emitsOnly P (k a)) -> emitsOnly P (bind m k).
Proof.
  intros Hm Hk t. unfold bind. destruct (Hm t) as (d & Hd & HP).
  destruct (m t) as [[a|e] t']; simpl in Hd; subst t'.
  - destruct (Hk a (t ++ d)) as (d' & Hd' & HP'). exists (d ++ d'). split.
    + now rewrite Hd', app_assoc.
    + apply Forall_app. now split.
  - now exists d.
Qed.

Lemma emitsOnly_tryCatch {A} (P : Event -> Prop) (m : M A) (h : Error -> M A) :
  emitsOnly P m -> (forall e, emitsOnly P (h e)) -> emitsOnly P (tryCatch m h).
Proof.
  intros Hm Hh t. unfold tryCatch. destruct (Hm t) as (d & Hd & HP).
  destruct (m t) as [[a|e] t']; simpl in Hd; subst t'.
  - now exists d.
  - destruct (Hh e (t ++ d)) as (d' & Hd' & HP'). exists (d ++ d'). split.
    + now rewrite Hd', app_assoc.
    + apply Forall_app. now split.
Qed.

Lemma emitsOnly_forEach {I S} (P : Event -> Prop) (l : list I)
    (body : I -> S -> M S) :
  (forall i s, emitsOnly P (body i s)) -> forall s, emitsOnly P (forEach l body s).
Proof.
  intros Hb. induction l as [|i l IH]; intros s; simpl.
  - apply emitsOnly_ret.
  - apply emitsOnly_bind; [apply Hb | exact IH].
Qed.

Create HintDb emits discriminated.
#[local] Hint Resolve emitsOnly_ret emitsOnly_throw emitsOnly_lift : emits.

Ltac emits_step :=
  match goal with
  | |- appends _ => unfold appends
  | |- emitsOnly _ (bind _ _) => apply emitsOnly_bind; [|intros]
  | |- emitsOnly _ (tryCatch _ _) => apply emitsOnly_tryCatch; [|intros]
  | |- emitsOnly _ (emit _) => apply emitsOnly_emit; simpl; solve [auto]
  | |- emitsOnly _ (match ?x with _ => _ end) => destruct x
  | |- emitsOnly _ _ => solve [auto with emits]
  end.

Ltac emits_auto := repeat emits_step.

Lemma emitsOnly_getPositionCount (P : Event -> Prop) (B : Backend) (g : Geometry) :
  emitsOnly P (getPositionCount B g).
Proof. unfold getPositionCount. emits_auto. Qed.

#[local] Hint Resolve emitsOnly_getPositionCount : emits.

Lemma emitsOnly_ensureValidForCSG (P : Event -> Prop) (B : Backend) (g : Geometry) :
  (forall g', P (EvNormalize g')) -> emitsOnly P (ensureValidForCSG B g).
Proof. intros HN. unfold ensureValidForCSG. emits_auto. Qed.

Lemma emitsOnly_createBrush (P : Event -> Prop) (B : Backend) (g : Geometry) :
  (forall g', P (EvNormalize g')) -> (forall s, P (EvConsoleError s)) ->
  emitsOnly P (createBrush B g).
Proof.
  intros HN HC. unfold createBrush.
  apply emitsOnly_tryCatch; [|intros; emits_auto].
  apply emitsOnly_bind; [now apply emitsOnly_ensureValidForCSG|].
  intros. emits_auto.
Qed.

Lemma emitsOnly_evaluateM (P : Event -> Prop) (B : Backend) (a b : Brush)
    (op : Operation) :
  P (EvEvaluate a b op) -> emitsOnly P (evaluateM B a b op).
Proof. intros H. unfold evaluateM. emits_auto. Qed.

#[local] Hint Extern 1 (emitsOnly _ (ensureValidForCSG _ _)) =>
  apply emitsOnly_ensureValidForCSG; intros; simpl; solve [auto] : emits.
#[local] Hint Extern 1 (emitsOnly _ (createBrush _ _)) =>
  apply emitsOnly_createBrush; intros; simpl; solve [auto] : emits.
#[local] Hint Extern 1 (emitsOnly _ (evaluateM _ _ _ _)) =>
  apply emitsOnly_evaluateM; simpl; solve [auto] : emits.

Lemma startsWith_emit (ev : Event) : startsWith ev (emit ev).
Proof. now exists []. Qed.

Lemma startsWith_bind {A C} (ev : Event) (m : M A) (k : A -> M C) :
  startsWith ev m -> (forall a, appends (k a)) -> startsWith ev (bind m k).
Proof.
  intros [d Hd] Hk. unfold startsWith, run, bind in *.
  destruct (m []) as [[a|e] t']; simpl in Hd; subst t'.
  - destruct (Hk a (ev :: d)) as (d' & Hd' & _). exists (d ++ d').
    now rewrite Hd'.
  - now exists d.
Qed.

Lemma startsWith_tryCatch {A} (ev : Event) (m : M A) (h : Error -> M A) :
  startsWith ev m -> (forall e, appends (h e)) -> startsWith ev (tryCatch m h).
Proof.
  intros [d Hd] Hh. unfold startsWith, run, tryCatch in *.
  destruct (m []) as [[a|e] t']; simpl in Hd; subst t'.
  - now exists d.
  - destruct (Hh e (ev :: d)) as (d' & Hd' & _). exists (d ++ d').
    now rewrite Hd'.
Qed.

(** The first thing [createBrush] does is to normalize its argument. *)
Lemma createBrush_startsWith (B : Backend) (g : Geometry) :
  startsWith (EvNormalize g) (createBrush B g).
Proof.
  unfold createBrush, ensureValidForCSG.
  apply startsWith_tryCatch; [|intros; emits_auto].
  apply startsWith_bind; [|intros; emits_auto].
  apply startsWith_bind; [|intros; emits_auto].
  apply startsWith_emit.
Qed.

(** ** Hollowing *)

Lemma hollowScale_clamp (size wall : Q) :
  0 < size ->
  hollowScale size wall == Qmax 0.01 ((size - 2 * wall) / size)
  /\ 0.01 <= hollowScale size wall
  /\ 0 < hollowScale size wall
  /\ (size / 2 <= wall -> hollowScale size wall == 0.01).
Proof.
  intros Hs. unfold hollowScale.
  assert (Hne : ~ size == 0) by (intros E; rewrite E in Hs; discriminate).
  split; [|split; [|split]].
  - assert (E : (size - wall * 2) / size == (size - 2 * wall) / size)
      by (field; exact Hne).
    now rewrite E.
  - apply Q.le_max_l.
  - eapply Qlt_le_trans; [|apply Q.le_max_l]. reflexivity.
  - intros Hw. apply Q.max_l.
    apply Qle_trans with 0; [|discriminate].
    apply Qle_shift_div_r; [exact Hs|].
    assert (Hw' : size <= wall * 2).
    { apply (Qmult_le_compat_r _ _ 2) in Hw; [|discriminate].
      assert (E : size / 2 * 2 == size) by field. now rewrite E in Hw. }
    lra.
Qed.

(** Scenario C: a wall of 2.5 on a 100 cube scales the shell by 0.95. *)
Example scenario_C : hollowScale 100 2.5 == 0.95.
Proof. reflexivity. Qed.

(** C6. With hollowing enabled on a solid with positive extents, the first
    mesh [applyHollowing] hands to the evaluator pipeline is the inner shell:
    the base geometry moved to the origin, scaled along each axis [a] by
    [hollowScale size_a w], and moved back to the center.  The factor is
    [max 0.01 ((size_a - 2 w) / size_a)]; it is at least 0.01, so never zero
    or negative, and equals 0.01 whenever [w >= size_a / 2]. *)
Theorem hollow_shell_scale (B : Backend) (baseBrush : Brush) (bounds : Box3)
    (config : HollowConfig) :
  let size := getSize bounds in
  let w := h_wallThickness config in
  h_enabled config = true ->
  0 < vx size -> 0 < vy size -> 0 < vz size ->
  startsWith
    (EvNormalize
       (GTranslate
          (GScale
             (GTranslate (brushGeometry baseBrush)
                (- vx (getCenter bounds)) (- vy (getCenter bounds))
                (- vz (getCenter bounds)))
             (hollowScale (vx size) w) (hollowScale (vy size) w)
             (hollowScale (vz size) w))
          (vx (getCenter bounds)) (vy (getCenter bounds))
          (vz (getCenter bounds))))
    (applyHollowing B baseBrush bounds config)
  /\ (forall a, a = vx size \/ a = vy size \/ a = vz size ->
      hollowScale a w == Qmax 0.01 ((a - 2 * w) / a)
      /\ 0.01 <= hollowScale a w
      /\ 0 < hollowScale a w
      /\ (a / 2 <= w -> hollowScale a w == 0.01)).
Proof.
  intros size w Hen Hx Hy Hz. split.
  - unfold applyHollowing. rewrite Hen. simpl negb. cbv iota.
    apply startsWith_bind; [|intros; emits_auto].
    apply createBrush_startsWith.
  - intros a [-> | [-> | ->]]; now apply hollowScale_clamp.
Qed.

Lemma hollow_shell_scale_witness :
  hollowScale 200 2.5 == Qmax 0.01 ((200 - 2 * 2.5) / 200)
  /\ (200 / 2 <= 100 -> hollowScale 200 100 == 0.01).
Proof.
  pose (cfg := {| h_enabled := true; h_wallThickness := 2.5;
                  h_drainHoleEnabled := true; h_drainHoleDiameter := 8 |}).
  pose (thick := {| h_enabled := true; h_wallThickness := 100;
                    h_drainHoleEnabled := true; h_drainHoleDiameter := 8 |}).
  split.
  - exact (proj1 (proj2 (hollow_shell_scale sampleBackend (mkBrush (GMesh 0))
                           demoBounds cfg eq_refl eq_refl eq_refl eq_refl)
                        200 (or_introl eq_refl))).
  - exact (proj2 (proj2 (proj2 (proj2 (hollow_shell_scale sampleBackend
                           (mkBrush (GMesh 0)) demoBounds thick
                           eq_refl eq_refl eq_refl eq_refl)
                        200 (or_introl eq_refl))))).
Defined.

(** ** Connector candidates *)

Lemma fold_left_collect {I X} (f : I -> list X) (l : list I) (acc : list X) :
  fold_left (fun acc i => acc ++ f i) l acc = acc ++ flat_map f l.
Proof.
  revert acc. induction l as [|i l IH]; intros acc; simpl.
  - now rewrite app_nil_r.
  - now rewrite IH, app_assoc.
Qed.

Lemma fold_left_ext {I X} (f g : X -> I -> X) (l : list I) (acc : X) :
  (forall a i, f a i = g a i) -> fold_left f l acc = fold_left g l acc.
Proof.
  intros E. revert acc. induction l as [|i l IH]; intros acc; simpl.
  - reflexivity.
  - now rewrite E, IH.
Qed.

(** Two nested loops that push at most one element per index pair collect,
    in order, the elements of the pairs that pass the test. *)
Lemma nested_loops_collect {X} (keep : Z -> Z -> bool) (item : Z -> Z -> X)
    (countH countV : Z) :
  fold_left (fun acc dh =>
    fold_left (fun acc dv =>
      if keep dh dv then acc ++ [item dh dv] else acc)
      (range (countV + 1)) acc)
    (range (countH + 1)) []
  = map (fun p => item (fst p) (snd p))
        (filter (fun p => keep (fst p) (snd p)) (candidateIndices countH countV)).
Proof.
  unfold candidateIndices.
  rewrite (fold_left_ext _
             (fun acc dh => acc ++ map (fun p => item (fst p) (snd p))
                (filter (fun p => keep (fst p) (snd p))
                        (map (pair dh) (range (countV + 1)))))).
  - rewrite fold_left_collect. simpl.
    induction (range (countH + 1)) as [|dh l IH]; simpl.
    + reflexivity.
    + now rewrite filter_app, map_app, IH.
  - intros acc dh.
    rewrite (fold_left_ext _
               (fun acc dv => acc ++ if keep dh dv then [item dh dv] else [])).
    + rewrite fold_left_collect. f_equal.
      induction (range (countV + 1)) as [|dv l IH]; simpl.
      * reflexivity.
      * destruct (keep dh dv); simpl; now rewrite IH.
    + intros a dv. destruct (keep dh dv); [reflexivity|now rewrite app_nil_r].
Qed.

Lemma candidateIndices_length (countH countV : Z) :
  (0 <= countH)%Z -> (0 <= countV)%Z ->
  Z.of_nat (List.length (candidateIndices countH countV))
  = ((countH + 1) * (countV + 1))%Z.
Proof.
  intros HH HV. unfold candidateIndices.
  assert (E : forall l : list Z,
             List.length (flat_map (fun dh => map (pair dh) (range (countV + 1))) l)
             = (List.length l * Z.to_nat (countV + 1))%nat).
  { induction l as [|a l IH]; simpl; [reflexivity|].
    now rewrite length_app, length_map, range_length, IH. }
  rewrite E, range_length. lia.
Qed.

Lemma candidateIndices_In (countH countV dh dv : Z) :
  In (dh, dv) (candidateIndices countH countV)
  <-> (0 <= dh <= countH)%Z /\ (0 <= dv <= countV)%Z.
Proof.
  unfold candidateIndices. rewrite in_flat_map. split.
  - intros (a & Ha & Hin). apply in_map_iff in Hin.
    destruct Hin as (b & E & Hb). inversion E; subst.
    apply range_bounds in Ha. apply range_bounds in Hb. lia.
  - intros [Hh Hv]. exists dh. split.
    + apply range_bounds. lia.
    + apply in_map. apply range_bounds. lia.
Qed.

(** [placeFeatures] visits every candidate and keeps, in order, a cylinder
    at each candidate that passes [isValidPlacement]. *)
Lemma placeFeatures_filter (B : Backend) (tempMesh cylGeo : Geometry)
    (faceAxis : Axis) (isPeg : bool) (box : Box3) (center : Vector3)
    (spacing h : Q) (countH countV : Z) :
  placeFeatures B tempMesh cylGeo faceAxis isPeg box center spacing h countH countV
  = map (fun c => GTranslate cylGeo (vx c) (vy c) (vz c))
        (filter (fun c => isValidPlacement B tempMesh c
                            (faceNormalOf faceAxis isPeg) (h * 0.7))
                (faceCandidates faceAxis isPeg box center spacing countH countV)).
Proof.
  unfold placeFeatures, faceCandidates.
  rewrite (nested_loops_collect
             (fun dh dv => isValidPlacement B tempMesh
                 (candidateWorldPos faceAxis isPeg box center
                    (candidateOffset dh countH spacing)
                    (candidateOffset dv countV spacing))
                 (faceNormalOf faceAxis isPeg) (h * 0.7))
             (fun dh dv =>
                let c := candidateWorldPos faceAxis isPeg box center
                           (candidateOffset dh countH spacing)
                           (candidateOffset dv countV spacing) in
                GTranslate cylGeo (vx c) (vy c) (vz c))).
  induction (candidateIndices countH countV) as [|p l IH]; simpl.
  - reflexivity.
  - destruct (isValidPlacement _ _ _ _ _); simpl; [f_equal|]; exact IH.
Qed.

(** [drawConnector] adds one preview cylinder per index pair. *)
Lemma drawConnector_positions (connectorConfig : ConnectorConfig)
    (spacing margin : Q) (facePos : Vector3) (axis : Axis) (isPeg : bool)
    (faceW faceH : Q) :
  let countH := candidateCount faceW margin spacing in
  let countV := candidateCount faceH margin spacing in
  map pc_position
      (drawConnector connectorConfig spacing margin facePos axis isPeg faceW faceH)
  = map (fun p =>
           let hOff := candidateOffset (fst p) countH spacing in
           let vOff := candidateOffset (snd p) countV spacing in
           addVec facePos
             match axis with
             | AxisX => vec3 0 vOff hOff
             | AxisY => vec3 hOff 0 vOff
             | AxisZ => vec3 hOff vOff 0
             end)
        (candidateIndices countH countV).
Proof.
  intros countH countV. unfold drawConnector. fold countH countV.
  etransitivity.
  { apply f_equal.
    exact (nested_loops_collect (fun _ _ => true)
     (fun dh dv =>
          {| pc_radius := connectorRadius connectorConfig isPeg;
              pc_height := c_length connectorConfig;
              pc_axis := axis; pc_isPeg := isPeg;
              pc_position :=
                addVec facePos
                  match axis with
                  | AxisX => vec3 0 (candidateOffset dv countV spacing)
                                    (candidateOffset dh countH spacing)
                  | AxisY => vec3 (candidateOffset dh countH spacing) 0
                                  (candidateOffset dv countV spacing)
                  | AxisZ => vec3 (candidateOffset dh countH spacing)
                                  (candidateOffset dv countV spacing) 0
                  end |})
       countH countV). }
  induction (candidateIndices countH countV) as [|p l IH]; simpl.
  - reflexivity.
  - f_equal. exact IH.
Qed.

(** [addFeatures], with its loops read as a filter over the candidates. *)
Lemma addFeatures_candidates (B : Backend) (connectors : ConnectorConfig)
    (box : Box3) (size center : Vector3) (faceAxis : Axis) (isPeg : bool)
    (st : ConnState) :
  placeFeatures B (tempMeshGeometry st)
    (connectorCylinder connectors faceAxis isPeg) faceAxis isPeg box center
    (effectiveSpacing connectors) (c_length connectors)
    (candidateCount (fst (faceExtents faceAxis size)) (c_edgeMargin connectors)
                    (effectiveSpacing connectors))
    (candidateCount (snd (faceExtents faceAxis size)) (c_edgeMargin connectors)
                    (effectiveSpacing connectors))
  = map (fun c => GTranslate (connectorCylinder connectors faceAxis isPeg)
                             (vx c) (vy c) (vz c))
        (filter (fun c => isValidPlacement B (tempMeshGeometry st) c
                            (faceNormalOf faceAxis isPeg)
                            (c_length connectors * 0.7))
                (addFeaturesCandidates connectors box size center faceAxis isPeg)).
Proof. apply placeFeatures_filter. Qed.

Lemma candidateOffset_symmetric (d count : Z) (spacing : Q) :
  candidateOffset d count spacing + candidateOffset (count - d) count spacing == 0.
Proof.
  unfold candidateOffset. unfold Z.sub. rewrite inject_Z_plus, inject_Z_opp.
  field.
Qed.

Lemma candidateOffset_step (d count : Z) (spacing : Q) :
  candidateOffset (d + 1) count spacing - candidateOffset d count spacing
  == spacing.
Proof.
  unfold candidateOffset. rewrite inject_Z_plus. simpl inject_Z. field.
Qed.

Lemma candidateCount_formula (face margin spacing : Q) :
  candidateCount face margin spacing
  = Z.max 0 (Qfloor ((face - 2 * margin) / spacing)).
Proof.
  unfold candidateCount. f_equal. apply Qfloor_comp.
  assert (E : face - margin * 2 == face - 2 * margin) by ring.
  now rewrite E.
Qed.

(** Scenario D: spacing 50, margin 15, face width 100 give two columns. *)
Example scenario_D : candidateCount 100 15 (Qmax 5 50) = 1%Z.
Proof. reflexivity. Qed.

(** ** The spacing floor *)

Lemma Qmax_floor_small (s : Q) : s < 5 -> Qmax 5 s = 5.
Proof.
  intros H. unfold Qmax, GenericMinMax.gmax.
  assert (E : (5 ?= s) = Gt) by now apply Qgt_alt.
  now rewrite E.
Qed.

(** ** Placement validation *)

Lemma Qgtb_lt (a b : Q) : Qgtb a b = true <-> b < a.
Proof.
  unfold Qgtb, Qltb. rewrite negb_true_iff. split.
  - intros H. apply Qnot_le_lt. intros Hle.
    apply Qle_bool_iff in Hle. congruence.
  - intros H. destruct (Qle_bool a b) eqn:E; [|reflexivity].
    apply Qle_bool_iff in E. exfalso. now apply (Qlt_not_le b a).
Qed.

Lemma sorted_head_bounds (d h0 : Q) (rest : list Q) :
  StronglySorted Qle (h0 :: rest) -> d < h0 ->
  Forall (fun dist => d < dist) (h0 :: rest).
Proof.
  intros Hs Hd. apply StronglySorted_inv in Hs. destruct Hs as [_ Hall].
  constructor; [exact Hd|].
  eapply Forall_impl; [|exact Hall].
  intros a Ha. now apply Qlt_le_trans with h0.
Qed.

(** C5. With the hits of a ray cast ordered by distance, a candidate center
    [C] with face normal [N] and required depth [d = 0.7 * length] is
    accepted exactly when (1) the ray from [C + 0.5 N] along [- N] with
    [far = 1.0] hits the mesh and (2) the ray from [C - 0.1 N] along [- N]
    reports no hit at distance [d] or less.  On a face, every candidate is
    probed, and the cylinders merged are those of the accepted candidates:
    a rejected candidate is left out and the loops go on. *)
Theorem placement_accepts_iff_both_probes (B : Backend) (mesh : Geometry)
    (C N : Vector3) (length : Q) :
  hitsSorted B ->
  let d := length * 0.7 in
  let minusN := vec3 (- vx N) (- vy N) (- vz N) in
  let surfaceProbe :=
    intersectObject B mesh
      (vec3 (vx C + vx N * 0.5) (vy C + vy N * 0.5) (vz C + vz N * 0.5))
      minusN 1.0 in
  let depthProbe :=
    intersectObject B mesh
      (vec3 (vx C + vx N * (-0.1)) (vy C + vy N * (-0.1)) (vz C + vz N * (-0.1)))
      minusN d in
  (isValidPlacement B mesh C N d = true
   <-> surfaceProbe <> [] /\ Forall (fun dist => d < dist) depthProbe)
  /\ (forall connectors box size center faceAxis isPeg st c,
        In c (addFeaturesCandidates connectors box size center faceAxis isPeg) ->
        (In (GTranslate (connectorCylinder connectors faceAxis isPeg)
                        (vx c) (vy c) (vz c))
            (placeFeatures B (tempMeshGeometry st)
               (connectorCylinder connectors faceAxis isPeg) faceAxis isPeg
               box center (effectiveSpacing connectors) (c_length connectors)
               (candidateCount (fst (faceExtents faceAxis size))
                  (c_edgeMargin connectors) (effectiveSpacing connectors))
               (candidateCount (snd (faceExtents faceAxis size))
                  (c_edgeMargin connectors) (effectiveSpacing connectors)))
         <-> isValidPlacement B (tempMeshGeometry st) c
               (faceNormalOf faceAxis isPeg) (c_length connectors * 0.7) = true)).
Proof.
  intros Hsorted d minusN surfaceProbe depthProbe. split.
  - unfold isValidPlacement. fold d.
    change (intersectObject B mesh (addScaledVector C N 0.5) (negate N) 1.0)
      with surfaceProbe.
    change (intersectObject B mesh (addScaledVector C N (-0.1)) (negate N) d)
      with depthProbe.
    assert (Hs : StronglySorted Qle depthProbe) by apply Hsorted.
    destruct surfaceProbe as [|s0 srest].
    + split; [discriminate | intros [H _]; now destruct H].
    + destruct depthProbe as [|h0 rest].
      * split; [intros _; split; [discriminate | constructor] | reflexivity].
      * rewrite Qgtb_lt. split.
        -- intros H. split; [discriminate|]. now apply sorted_head_bounds.
        -- intros [_ H]. now inversion H.
  - intros connectors box size center faceAxis isPeg st c Hc.
    rewrite addFeatures_candidates, in_map_iff. split.
    + intros (c' & E & Hin). apply filter_In in Hin. destruct Hin as [_ Hv].
      destruct c, c'. simpl in E. inversion E; subst. exact Hv.
    + intros Hv. exists c. split; [reflexivity|].
      apply filter_In. now split.
Qed.

Lemma sampleBackend_hitsSorted : hitsSorted sampleBackend.
Proof.
  intros mesh origin direction far. simpl.
  destruct (Qle_bool far 1); repeat constructor.
Qed.

Lemma placement_accepts_iff_both_probes_witness :
  hitsSorted sampleBackend
  /\ isValidPlacement sampleBackend (GMesh 0) (vec3 100 100 0) (vec3 1 0 0)
                      (12 * 0.7) = true.
Proof.
  split; [exact sampleBackend_hitsSorted|].
  apply (proj1 (placement_accepts_iff_both_probes sampleBackend (GMesh 0)
                  (vec3 100 100 0) (vec3 1 0 0) 12 sampleBackend_hitsSorted)).
  split.
  - vm_compute. discriminate.
  - vm_compute. constructor.
Defined.

(** ** Connector faces *)

Lemma bind_forEach_app {I S C} (l1 l2 : list I) (body : I -> S -> M S)
    (k : S -> M C) (s : S) (t : list Event) :
  bind (forEach l1 body s) (fun s' => bind (forEach l2 body s') k) t
  = bind (forEach (l1 ++ l2) body s) k t.
Proof.
  revert s t. induction l1 as [|i l1 IH]; intros s t; simpl.
  - reflexivity.
  - rewrite !bind_assoc. apply bind_ext. intros s' t'. apply IH.
Qed.

Lemma bind_when {I C} (c : bool) (i : I) (body : I -> ConnState -> M ConnState)
    (k : ConnState -> M C) (s : ConnState) (t : list Event) :
  bind (when c (body i) s) k t
  = bind (forEach (if c then [i] else []) body s) k t.
Proof.
  destruct c; simpl; [|reflexivity].
  unfold bind. destruct (body i s t) as [[s'|e] t1]; reflexivity.
Qed.

(** [applyConnectors] runs [addFeatures] over the faces of the plan. *)
Lemma applyConnectors_plan (B : Backend) (geo : Geometry)
    (ix iy iz stepsX stepsY stepsZ : Z) (config : SlicingConfig)
    (connectors : ConnectorConfig) (boundsMin : Vector3) (t : list Event) :
  applyConnectors B geo ix iy iz stepsX stepsY stepsZ config connectors boundsMin t
  = bind (createBrush B geo) (fun rb =>
      match rb with
      | None => ret geo
      | Some rb =>
        let box := boundingBox B geo in
        bind (forEach (connectorPlan ix iy iz stepsX stepsY stepsZ)
                (fun f => addFeatures B connectors box (getSize box)
                                      (getCenter box) (fst f) (snd f))
                {| resultBrush := rb; tempMeshGeometry := geo |})
             (fun st => ret (brushGeometry (resultBrush st)))
      end) t.
Proof.
  unfold applyConnectors. apply bind_ext. intros [rb|] t1; [|reflexivity].
  cbv zeta. unfold connectorPlan.
  set (body := fun f : Axis * bool =>
                 addFeatures B connectors (boundingBox B geo)
                   (getSize (boundingBox B geo)) (getCenter (boundingBox B geo))
                   (fst f) (snd f)).
  set (k := fun st : ConnState => ret (brushGeometry (resultBrush st))).
  replace (ix <? stepsX - 1)%Z with (ix + 1 <? stepsX)%Z
    by (destruct (Z.ltb_spec (ix + 1) stepsX), (Z.ltb_spec ix (stepsX - 1)); lia).
  replace (iy <? stepsY - 1)%Z with (iy + 1 <? stepsY)%Z
    by (destruct (Z.ltb_spec (iy + 1) stepsY), (Z.ltb_spec iy (stepsY - 1)); lia).
  replace (iz <? stepsZ - 1)%Z with (iz + 1 <? stepsZ)%Z
    by (destruct (Z.ltb_spec (iz + 1) stepsZ), (Z.ltb_spec iz (stepsZ - 1)); lia).
  rewrite !Z.gtb_ltb.
  change (addFeatures B connectors (boundingBox B geo)
            (getSize (boundingBox B geo)) (getCenter (boundingBox B geo)) AxisX true)
    with (body (AxisX, true)).
  change (addFeatures B connectors (boundingBox B geo)
            (getSize (boundingBox B geo)) (getCenter (boundingBox B geo)) AxisX false)
    with (body (AxisX, false)).
  change (addFeatures B connectors (boundingBox B geo)
            (getSize (boundingBox B geo)) (getCenter (boundingBox B geo)) AxisY true)
    with (body (AxisY, true)).
  change (addFeatures B connectors (boundingBox B geo)
            (getSize (boundingBox B geo)) (getCenter (boundingBox B geo)) AxisY false)
    with (body (AxisY, false)).
  change (addFeatures B connectors (boundingBox B geo)
            (getSize (boundingBox B geo)) (getCenter (boundingBox B geo)) AxisZ true)
    with (body (AxisZ, true)).
  change (addFeatures B connectors (boundingBox B geo)
            (getSize (boundingBox B geo)) (getCenter (boundingBox B geo)) AxisZ false)
    with (body (AxisZ, false)).
  rewrite <- bind_forEach_app, bind_when. apply bind_ext. intros s1 t2.
  rewrite <- bind_forEach_app, bind_when. apply bind_ext. intros s2 t3.
  rewrite <- bind_forEach_app, bind_when. apply bind_ext. intros s3 t4.
  rewrite <- bind_forEach_app, bind_when. apply bind_ext. intros s4 t5.
  rewrite <- bind_forEach_app, bind_when. apply bind_ext. intros s5 t6.
  rewrite bind_when.
  reflexivity.
Qed.

(** What [addFeatures] does on a face: besides normalizing meshes, it calls
    the evaluator only with the operation of the face. *)
Lemma addFeatures_emits (B : Backend) (connectors : ConnectorConfig)
    (box : Box3) (size center : Vector3) (faceAxis : Axis) (isPeg : bool)
    (st : ConnState) :
  emitsOnly (faceEvent isPeg)
            (addFeatures B connectors box size center faceAxis isPeg st).
Proof.
  unfold addFeatures. destruct (faceExtents faceAxis size) as [faceW faceH].
  emits_auto.
Qed.

Lemma connectorPlan_In (ix iy iz stepsX stepsY stepsZ : Z) (a : Axis)
    (isPeg : bool) :
  In (a, isPeg) (connectorPlan ix iy iz stepsX stepsY stepsZ)
  <-> if isPeg
      then (cellIndex a ix iy iz + 1 < cellIndex a stepsX stepsY stepsZ)%Z
      else (cellIndex a ix iy iz > 0)%Z.
Proof.
  unfold connectorPlan.
  destruct (Z.ltb_spec (ix + 1) stepsX), (Z.ltb_spec 0 ix),
           (Z.ltb_spec (iy + 1) stepsY), (Z.ltb_spec 0 iy),
           (Z.ltb_spec (iz + 1) stepsZ), (Z.ltb_spec 0 iz);
    destruct a, isPeg; simpl; split;
    solve [ lia
          | intros; repeat match goal with
                           | H : _ \/ _ |- _ => destruct H
                           | H : (_, _) = (_, _) |- _ => discriminate H
                           | H : False |- _ => destruct H
                           end; lia
          | intros; auto 10 ].
Qed.

Lemma connectorPlan_NoDup (ix iy iz stepsX stepsY stepsZ : Z) :
  NoDup (connectorPlan ix iy iz stepsX stepsY stepsZ).
Proof.
  unfold connectorPlan.
  destruct (ix + 1 <? stepsX)%Z, (0 <? ix)%Z, (iy + 1 <? stepsY)%Z,
           (0 <? iy)%Z, (iz + 1 <? stepsZ)%Z, (0 <? iz)%Z; simpl;
    repeat constructor; simpl; intuition discriminate.
Qed.

Lemma candidate_on_face (faceAxis : Axis) (isPeg : bool) (box : Box3)
    (center : Vector3) (hOff vOff : Q) :
  coordinate faceAxis (candidateWorldPos faceAxis isPeg box center hOff vOff)
  = coordinate faceAxis (if isPeg then bmax box else bmin box).
Proof. destruct faceAxis, isPeg; reflexivity. Qed.

(** Scenario: the eight cells of the demo cube.  The corner cell (0,0,0)
    gets pegs on its three positive faces, the opposite corner sockets on
    its three negative faces. *)
Example corner_plans :
  connectorPlan 0 0 0 2 2 2 = [(AxisX, true); (AxisY, true); (AxisZ, true)]
  /\ connectorPlan 1 1 1 2 2 2 = [(AxisX, false); (AxisY, false); (AxisZ, false)].
Proof. split; reflexivity. Qed.

(** ** Drain holes *)

(** The drain-hole step of a run whose shell subtraction went through. *)
Lemma drain_hole_geometry (B : Backend) (baseBrush : Brush) (bounds : Box3)
    (config : HollowConfig) (t t1 : list Event) (inner : Brush)
    (shell : Geometry) (t2 : list Event) (rb : option Brush) (t3 : list Event) :
  h_enabled config = true ->
  h_drainHoleEnabled config = true ->
  createBrush B
    (innerShell (brushGeometry baseBrush) (getCenter bounds)
       (hollowScale (vx (getSize bounds)) (h_wallThickness config))
       (hollowScale (vy (getSize bounds)) (h_wallThickness config))
       (hollowScale (vz (getSize bounds)) (h_wallThickness config))) t
  = (Ok (Some inner), t1) ->
  evaluateM B baseBrush inner SUBTRACTION t1 = (Ok shell, t2) ->
  createBrush B shell t2 = (Ok rb, t3) ->
  applyHollowing B baseBrush bounds config t
  = tryCatch
      (holeBrush <- createBrush B
                      (GTranslate
                         (GCylinder (h_drainHoleDiameter config / 2)
                                    (h_drainHoleDiameter config / 2)
                                    (vy (getSize bounds) + 100) 16)
                         (vx (getCenter bounds)) (vy (bmin bounds))
                         (vz (getCenter bounds))) ;;
       match holeBrush with
       | Some holeBrush =>
         withDrain <- evaluateM B (orElse rb baseBrush) holeBrush SUBTRACTION ;;
         wb <- createBrush B withDrain ;;
         ret (orElse wb (orElse rb baseBrush))
       | None => ret (orElse rb baseBrush)
       end)
      (fun e => emit (EvConsoleError "Hollowing operation failure:") ;;;
                ret baseBrush) t3.
Proof.
  intros Hen Hdrain Hinner Hshell Hrb.
  unfold applyHollowing. rewrite Hen, Hdrain.
  change (negb true) with false. cbv iota zeta.
  rewrite (bind_ok _ _ _ _ _ Hinner).
  unfold tryCatch at 1 2.
  rewrite (bind_ok _ _ _ _ _ Hshell), (bind_ok _ _ _ _ _ Hrb).
  reflexivity.
Qed.

(** The sibling paths: when the drain-hole brush cannot be built, or the
    drained result yields no brush, the hollowed solid is returned. *)
Lemma drain_brush_failure_keeps_shell (B : Backend) (baseBrush : Brush)
    (bounds : Box3) (config : HollowConfig) (t t1 : list Event) (inner : Brush)
    (shell : Geometry) (t2 : list Event) (rb : option Brush)
    (t3 t4 : list Event) :
  h_enabled config = true ->
  h_drainHoleEnabled config = true ->
  createBrush B
    (innerShell (brushGeometry baseBrush) (getCenter bounds)
       (hollowScale (vx (getSize bounds)) (h_wallThickness config))
       (hollowScale (vy (getSize bounds)) (h_wallThickness config))
       (hollowScale (vz (getSize bounds)) (h_wallThickness config))) t
  = (Ok (Some inner), t1) ->
  evaluateM B baseBrush inner SUBTRACTION t1 = (Ok shell, t2) ->
  createBrush B shell t2 = (Ok rb, t3) ->
  createBrush B
    (GTranslate
       (GCylinder (h_drainHoleDiameter config / 2)
                  (h_drainHoleDiameter config / 2)
                  (vy (getSize bounds) + 100) 16)
       (vx (getCenter bounds)) (vy (bmin bounds)) (vz (getCenter bounds))) t3
  = (Ok None, t4) ->
  applyHollowing B baseBrush bounds config t = (Ok (orElse rb baseBrush), t4).
Proof.
  intros Hen Hdrain Hinner Hshell Hrb Hhole.
  rewrite (drain_hole_geometry B baseBrush bounds config t t1 inner shell t2 rb t3)
    by assumption.
  apply tryCatch_ok. now rewrite (bind_ok _ _ _ _ _ Hhole).
Qed.

(** The path the catch-all handler takes: when the evaluator throws on the
    drain-hole subtraction, the original solid is returned and the hollowed
    one is dropped. *)
Lemma drain_exception_returns_base (B : Backend) (baseBrush : Brush)
    (bounds : Box3) (config : HollowConfig) (t t1 : list Event) (inner : Brush)
    (shell : Geometry) (t2 : list Event) (rb : option Brush)
    (t3 t4 : list Event) (hole : Brush) (e : Error) (t5 : list Event) :
  h_enabled config = true ->
  h_drainHoleEnabled config = true ->
  createBrush B
    (innerShell (brushGeometry baseBrush) (getCenter bounds)
       (hollowScale (vx (getSize bounds)) (h_wallThickness config))
       (hollowScale (vy (getSize bounds)) (h_wallThickness config))
       (hollowScale (vz (getSize bounds)) (h_wallThickness config))) t
  = (Ok (Some inner), t1) ->
  evaluateM B baseBrush inner SUBTRACTION t1 = (Ok shell, t2) ->
  createBrush B shell t2 = (Ok rb, t3) ->
  createBrush B
    (GTranslate
       (GCylinder (h_drainHoleDiameter config / 2)
                  (h_drainHoleDiameter config / 2)
                  (vy (getSize bounds) + 100) 16)
       (vx (getCenter bounds)) (vy (bmin bounds)) (vz (getCenter bounds))) t3
  = (Ok (Some hole), t4) ->
  evaluateM B (orElse rb baseBrush) hole SUBTRACTION t4 = (Throw e, t5) ->
  applyHollowing B baseBrush bounds config t
  = (Ok baseBrush, t5 ++ [EvConsoleError "Hollowing operation failure:"]).
Proof.
  intros Hen Hdrain Hinner Hshell Hrb Hhole Hthrow.
  rewrite (drain_hole_geometry B baseBrush bounds config t t1 inner shell t2 rb t3)
    by assumption.
  rewrite (tryCatch_throw _ _ t3 t5 e); [reflexivity|].
  rewrite (bind_ok _ _ _ _ _ Hhole). apply bind_throw. exact Hthrow.
Qed.

(** C7 fails on the code.  On the demo cube with a 2.5 wall and a drain hole,
    with an evaluator that performs the shell subtraction (giving mesh 1) and
    throws on the drain-hole subtraction, [applyHollowing] attempts the drain
    subtraction on the hollowed solid, logs the failure and returns the
    original solid, mesh 0, not the hollowed solid, mesh 1, which is what it
    returns on the same input when drain holes are off. *)
Theorem drain_exception_discards_hollowing :
  let base := mkBrush (GMesh 0) in
  let drained :=
    run (applyHollowing drainFailBackend base demoBounds hollowWithDrain) in
  let hollowed :=
    run (applyHollowing drainFailBackend base demoBounds hollowWithoutDrain) in
  fst hollowed = Ok (mkBrush (GMesh 1))
  /\ fst drained = Ok base
  /\ fst drained <> fst hollowed
  /\ (exists hole,
        In (EvEvaluate (mkBrush (GMesh 1)) hole SUBTRACTION) (snd drained))
  /\ last (snd drained) EvYield
     = EvConsoleError "Hollowing operation failure:".
Proof.
  vm_compute. split; [reflexivity|]. split; [reflexivity|].
  split; [discriminate|]. split; [|reflexivity].
  eexists. do 4 right. left. reflexivity.
Qed.

(** ** Per-cell failure isolation *)

Lemma createBrush_total (B : Backend) (geo : Geometry) (t : list Event) :
  exists ob t', createBrush B geo t = (Ok ob, t').
Proof.
  unfold createBrush, tryCatch.
  match goal with |- context [match ?m t with _ => _ end] =>
    destruct (m t) as [[ob|e] t1] end.
  - now exists ob, t1.
  - eexists _, _. reflexivity.
Qed.

Lemma applyHollowing_total (B : Backend) (baseBrush : Brush) (bounds : Box3)
    (config : HollowConfig) (t : list Event) :
  exists b t', applyHollowing B baseBrush bounds config t = (Ok b, t').
Proof.
  unfold applyHollowing. destruct (h_enabled config); cbn [negb]; cbv iota zeta.
  2: { eexists _, _. reflexivity. }
  match goal with |- context [createBrush B ?g] =>
    destruct (createBrush_total B g t) as (ob & t1 & E) end.
  rewrite (bind_ok _ _ _ _ _ E). destruct ob as [inner|].
  - unfold tryCatch.
    match goal with |- context [match ?m t1 with _ => _ end] =>
      destruct (m t1) as [[b|e] t2] end.
    + now exists b, t2.
    + eexists _, _. reflexivity.
  - eexists _, _. reflexivity.
Qed.

(** The label step never throws: an evaluator exception in the label union
    is absorbed there and the unlabelled geometry is returned. *)
Lemma applyLabel_total (B : Backend) (geo : Geometry) (ix iy iz : Z)
    (config : LabelConfig) (t : list Event) :
  exists g t', applyLabel B geo ix iy iz config t = (Ok g, t').
Proof.
  unfold applyLabel. cbv zeta.
  destruct (createBrush_total B geo t) as (ob & t1 & E).
  rewrite (bind_ok _ _ _ _ _ E).
  match goal with |- context [createBrush B ?g] =>
    destruct (createBrush_total B g t1) as (ol & t2 & E2) end.
  rewrite (bind_ok _ _ _ _ _ E2).
  destruct ob as [bb|], ol as [lb|]; try (eexists _, _; reflexivity).
  unfold tryCatch.
  destruct (evaluateM B bb lb ADDITION t2) as [[g|e] t3];
    eexists _, _; reflexivity.
Qed.

(** One more cell was visited, and the parts so far are still there. *)
Lemma advancedBy_refl (s : LoopState) : advancedBy 0 s s.
Proof. split; [simpl; lia | exists []; now rewrite app_nil_r]. Qed.

Lemma advancedBy_trans (n m : nat) (a b c : LoopState) :
  advancedBy n a b -> advancedBy m b c -> advancedBy (n + m) a c.
Proof.
  intros [Hc1 [l1 Hp1]] [Hc2 [l2 Hp2]]. split.
  - rewrite Hc2, Hc1. lia.
  - exists (l1 ++ l2). now rewrite Hp2, Hp1, app_assoc.
Qed.

(** A loop whose body always completes and advances the state by [k]
    completes and advances the state by [k] per iteration. *)
Lemma forEach_advances {I S} (R : nat -> S -> S -> Prop) (k : nat)
    (body : I -> S -> M S) :
  (forall s, R 0%nat s s) ->
  (forall n m a b c, R n a b -> R m b c -> R (n + m)%nat a c) ->
  (forall i s t, exists s' t', body i s t = (Ok s', t') /\ R k s s') ->
  forall l s t, exists s' t',
    forEach l body s t = (Ok s', t') /\ R (List.length l * k)%nat s s'.
Proof.
  intros Hrefl Htrans Hbody. induction l as [|i l IH]; intros s t; simpl.
  - exists s, t. split; [reflexivity | apply Hrefl].
  - destruct (Hbody i s t) as (s1 & t1 & E1 & R1).
    destruct (IH s1 t1) as (s2 & t2 & E2 & R2).
    exists s2, t2. split.
    + now rewrite (bind_ok _ _ _ _ _ E1).
    + now apply Htrans with s1.
Qed.

(** When the [try] block of a grid cell completes, it has added nothing or
    the part of its cell. *)
Lemma gridCellTry_ok (B : Backend) (baseBrush boxBrush : Brush)
    (ix iy iz stepsX stepsY stepsZ : Z) (min : Vector3) (config : SlicingConfig)
    (connectors : ConnectorConfig) (labels : LabelConfig) (baseName : string)
    (st st' : LoopState) (t t' : list Event) :
  gridCellTry B baseBrush boxBrush ix iy iz stepsX stepsY stepsZ min config
              connectors labels baseName st t = (Ok st', t') ->
  st' = st
  \/ exists g, st' = {| current := current st;
                       parts := parts st ++ [{| geometry := g;
                                                name := gridPartName baseName ix iy iz;
                                                index := (ix, iy, iz) |}] |}.
Proof.
  unfold gridCellTry. intros H.
  step H. step H. destruct (_ >? 0)%Z.
  - step H. step H. step H. inversion H; subst. right. eexists. reflexivity.
  - inversion H. now left.
Qed.

Lemma manualCellTry_ok (B : Backend) (baseBrush boxBrush : Brush)
    (ix iy iz : Z) (baseName : string) (st st' : LoopState)
    (t t' : list Event) :
  manualCellTry B baseBrush boxBrush ix iy iz baseName st t = (Ok st', t') ->
  st' = st
  \/ exists g, st' = {| current := current st;
                       parts := parts st ++ [{| geometry := g;
                                                name := manualPartName baseName ix iy iz;
                                                index := (ix, iy, iz) |}] |}.
Proof.
  unfold manualCellTry. intros H.
  step H. step H. destruct (_ >? 0)%Z.
  - step H. inversion H; subst. right. eexists. reflexivity.
  - inversion H. now left.
Qed.

(** A grid cell always completes: the cell counter moves on by one, and the
    parts are those before it, followed by at most the part of this cell. *)
Lemma gridCell_total (B : Backend) (baseBrush : Brush) (size min : Vector3)
    (stepsX stepsY stepsZ total : Z) (config : SlicingConfig)
    (connectors : ConnectorConfig) (labels : LabelConfig) (baseName : string)
    (ix iy iz : Z) (st : LoopState) (t : list Event) :
  exists st' t',
    gridCell B baseBrush size min stepsX stepsY stepsZ total config connectors
             labels baseName ix iy iz st t = (Ok st', t')
    /\ (st' = {| current := current st + 1; parts := parts st |}
        \/ exists g,
             st' = {| current := current st + 1;
                      parts := parts st
                               ++ [{| geometry := g;
                                      name := gridPartName baseName ix iy iz;
                                      index := (ix, iy, iz) |}] |}).
Proof.
  unfold gridCell. cbv zeta. rewrite !bind_emit.
  destruct (degenerate _ _ _).
  { eexists _, _. split; [reflexivity | now left]. }
  match goal with |- context [bind (createBrush B ?g) _ ?t0] =>
    destruct (createBrush_total B g t0) as (ob & t1 & E) end.
  rewrite (bind_ok _ _ _ _ _ E). destruct ob as [boxBrush|].
  2: { eexists _, _. split; [reflexivity | now left]. }
  unfold tryCatch.
  match goal with |- context [gridCellTry B ?a ?b ?c ?d ?e ?f ?g ?h ?i ?j ?k ?l ?m ?n] =>
    destruct (gridCellTry B a b c d e f g h i j k l m n) as [[st'|e0] t2] eqn:Etry end.
  - exists st', t2. split; [reflexivity|].
    apply gridCellTry_ok in Etry. simpl in Etry.
    destruct Etry as [-> | [g ->]]; [now left | right; now exists g].
  - eexists _, _. split; [reflexivity | now left].
Qed.

(** An exception that escapes the [try] block of a grid cell is caught and
    logged; the cell adds no part and the loop state is handed on. *)
Lemma gridCell_catches (B : Backend) (baseBrush : Brush) (size min : Vector3)
    (stepsX stepsY stepsZ total : Z) (config : SlicingConfig)
    (connectors : ConnectorConfig) (labels : LabelConfig) (baseName : string)
    (ix iy iz : Z) (st : LoopState) (t t1 t2 : list Event) (boxBrush : Brush)
    (e : Error) :
  let w := gridCellSize (vx size) (printerX config) stepsX ix in
  let h := gridCellSize (vy size) (printerY config) stepsY iy in
  let d := gridCellSize (vz size) (printerZ config) stepsZ iz in
  let visited := {| current := current st + 1; parts := parts st |} in
  let progress :=
    EvProgress ("Slicing Fragment " ++ numToString (current st + 1) ++ "/"
                  ++ numToString total ++ "...") in
  degenerate w h d = false ->
  createBrush B (gridBoxGeo min config ix iy iz w h d)
              ((t ++ [progress]) ++ [EvYield]) = (Ok (Some boxBrush), t1) ->
  gridCellTry B baseBrush boxBrush ix iy iz stepsX stepsY stepsZ min config
              connectors labels baseName visited t1 = (Throw e, t2) ->
  gridCell B baseBrush size min stepsX stepsY stepsZ total config connectors
           labels baseName ix iy iz st t
  = (Ok visited,
     t2 ++ [EvConsoleError ("Fragment " ++ numToString (current st + 1)
                              ++ " processing failed:")]).
Proof.
  intros w h d visited progress Hdeg Hbox Htry.
  unfold gridCell. cbv zeta. rewrite !bind_emit.
  fold w h d. rewrite Hdeg. simpl current.
  fold progress. rewrite (bind_ok _ _ _ _ _ Hbox).
  fold visited. now rewrite (tryCatch_throw _ _ _ _ _ Htry).
Qed.

Lemma gridLoops_total (B : Backend) (baseBrush : Brush) (size min : Vector3)
    (stepsX stepsY stepsZ total : Z) (config : SlicingConfig)
    (connectors : ConnectorConfig) (labels : LabelConfig) (baseName : string)
    (st : LoopState) (t : list Event) :
  exists st' t',
    gridLoops B baseBrush size min stepsX stepsY stepsZ total config connectors
              labels baseName st t = (Ok st', t')
    /\ advancedBy (Z.to_nat stepsX * (Z.to_nat stepsY * (Z.to_nat stepsZ * 1)))
                  st st'.
Proof.
  unfold gridLoops.
  rewrite <- (range_length stepsX), <- (range_length stepsY),
          <- (range_length stepsZ).
  revert st t. generalize (range stepsX).
  apply (forEach_advances advancedBy);
    [exact advancedBy_refl | exact advancedBy_trans|].
  intros ix. generalize (range stepsY).
  apply (forEach_advances advancedBy);
    [exact advancedBy_refl | exact advancedBy_trans|].
  intros iy. generalize (range stepsZ).
  apply (forEach_advances advancedBy);
    [exact advancedBy_refl | exact advancedBy_trans|].
  intros iz s t.
  destruct (gridCell_total B baseBrush size min stepsX stepsY stepsZ total
              config connectors labels baseName ix iy iz s t)
    as (s' & t' & E & Hs).
  exists s', t'. split; [exact E|].
  destruct Hs as [-> | [g ->]].
  - split; simpl; [lia | exists []; now rewrite app_nil_r].
  - split; simpl; [lia | eexists; reflexivity].
Qed.

Lemma performGridSlice_total (B : Backend) (geometry : Geometry) (bounds : Box3)
    (config : SlicingConfig) (connectors : ConnectorConfig)
    (hollow : HollowConfig) (labels : LabelConfig) (baseName : string)
    (baseBrush : Brush) (t1 : list Event) :
  0 < printerX config -> 0 < printerY config -> 0 < printerZ config ->
  (gridSteps (vx (getSize bounds)) (printerX config)
   * gridSteps (vy (getSize bounds)) (printerY config)
   * gridSteps (vz (getSize bounds)) (printerZ config) <= 500)%Z ->
  run (createBrush B geometry) = (Ok (Some baseBrush), t1) ->
  exists ps t',
    run (performGridSlice B geometry bounds config connectors hollow labels
                          baseName) = (Ok ps, t').
Proof.
  intros _ _ _ Htotal Hbase. unfold run in *. unfold performGridSlice.
  cbv zeta.
  unfold partCountLimit.
  match goal with |- context [(?n >? 500)%Z] =>
    destruct (Z.gtb_spec n 500) as [Hgt|_]; [lia|] end.
  rewrite (bind_ok _ _ _ _ _ Hbase).
  assert (Hh : exists b t2,
            (if h_enabled hollow
             then emit (EvProgress "Hollowing Model...") ;;;
                  emit EvYield ;;;
                  applyHollowing B baseBrush bounds hollow
             else ret baseBrush) t1 = (Ok b, t2)).
  { destruct (h_enabled hollow).
    - rewrite !bind_emit. apply applyHollowing_total.
    - eexists _, _. reflexivity. }
  destruct Hh as (b & t2 & Eh). rewrite (bind_ok _ _ _ _ _ Eh).
  match goal with |- context [gridLoops B ?a ?b ?c ?d ?e ?f ?g ?h ?i ?j ?k ?l] =>
    destruct (gridLoops_total B a b c d e f g h i j k l t2) as (st' & t3 & El & _)
  end.
  rewrite (bind_ok _ _ _ _ _ El). eexists _, _. reflexivity.
Qed.

(** *** Manual mode *)

Lemma manualCell_total (B : Backend) (baseBrush : Brush) (min : Vector3)
    (baseName : string) (ix : Z) (w offsetX : Q) (iy : Z) (h offsetY : Q)
    (iz : Z) (d : Q) (st : LoopState) (offsetZ : Q) (t : list Event) :
  exists st' t',
    manualCell B baseBrush min baseName ix w offsetX iy h offsetY iz d
               (st, offsetZ) t = (Ok (st', offsetZ + d), t')
    /\ (st' = {| current := current st + 1; parts := parts st |}
        \/ exists g,
             st' = {| current := current st + 1;
                      parts := parts st
                               ++ [{| geometry := g;
                                      name := manualPartName baseName ix iy iz;
                                      index := (ix, iy, iz) |}] |}).
Proof.
  unfold manualCell. cbv zeta. rewrite !bind_emit.
  destruct (degenerate _ _ _).
  { eexists _, _. split; [reflexivity | now left]. }
  match goal with |- context [bind (createBrush B ?g) _ ?t0] =>
    destruct (createBrush_total B g t0) as (ob & t1 & E) end.
  rewrite (bind_ok _ _ _ _ _ E). destruct ob as [boxBrush|].
  2: { eexists _, _. split; [reflexivity | now left]. }
  match goal with |- context [manualCellTry B ?a ?b ?c ?d ?e ?f ?g] =>
    destruct (manualCellTry B a b c d e f g t1) as [[st'|e0] t2] eqn:Etry end.
  - rewrite (bind_ok _ _ _ _ (st') (tryCatch_ok _ _ _ _ _ Etry)).
    exists st', t2. split; [reflexivity|].
    apply manualCellTry_ok in Etry. simpl in Etry.
    destruct Etry as [-> | [g ->]]; [now left | right; now exists g].
  - erewrite bind_ok; [|erewrite tryCatch_throw; [reflexivity | exact Etry]].
    eexists _, _. split; [reflexivity | now left].
Qed.

(** An exception that escapes the [try] block of a manual cell is caught
    and logged; the cell adds no part and the loop state is handed on. *)
Lemma manualCell_catches (B : Backend) (baseBrush : Brush) (min : Vector3)
    (baseName : string) (ix : Z) (w offsetX : Q) (iy : Z) (h offsetY : Q)
    (iz : Z) (d : Q) (st : LoopState) (offsetZ : Q) (t t1 t2 : list Event)
    (boxBrush : Brush) (e : Error) :
  let visited := {| current := current st + 1; parts := parts st |} in
  let progress :=
    EvProgress ("Cutting Fragment " ++ numToString (current st + 1) ++ "...") in
  degenerate w h d = false ->
  createBrush B (manualBoxGeo min offsetX offsetY offsetZ w h d)
              ((t ++ [progress]) ++ [EvYield]) = (Ok (Some boxBrush), t1) ->
  manualCellTry B baseBrush boxBrush ix iy iz baseName visited t1
  = (Throw e, t2) ->
  manualCell B baseBrush min baseName ix w offsetX iy h offsetY iz d
             (st, offsetZ) t
  = (Ok (visited, offsetZ + d), t2 ++ [EvConsoleError "Manual cut failure:"]).
Proof.
  intros visited progress Hdeg Hbox Htry.
  unfold manualCell. cbv zeta. rewrite !bind_emit.
  rewrite Hdeg. simpl current.
  fold progress. rewrite (bind_ok _ _ _ _ _ Hbox).
  fold visited.
  erewrite bind_ok; [|erewrite tryCatch_throw; [reflexivity | exact Htry]].
  reflexivity.
Qed.

Lemma enumerate_length (splits : list Q) :
  List.length (enumerate splits) = List.length splits.
Proof.
  unfold enumerate. rewrite length_combine, range_length. lia.
Qed.

Lemma manualLoops_total (B : Backend) (baseBrush : Brush) (min : Vector3)
    (baseName : string) (splitsX splitsY splitsZ : list Q) (st : LoopState)
    (t : list Event) :
  exists st' t',
    manualLoops B baseBrush min baseName splitsX splitsY splitsZ st t
    = (Ok st', t')
    /\ advancedBy (List.length splitsX
                   * (List.length splitsY * (List.length splitsZ * 1)))
                  st st'.
Proof.
  unfold manualLoops.
  rewrite <- (enumerate_length splitsX), <- (enumerate_length splitsY),
          <- (enumerate_length splitsZ).
  pose (R := fun n (s s' : LoopState * Q) => advancedBy n (fst s) (fst s')).
  assert (Rrefl : forall s, R 0%nat s s) by (intros s; apply advancedBy_refl).
  assert (Rtrans : forall n m a b c, R n a b -> R m b c -> R (n + m)%nat a c)
    by (intros n m a b c; apply advancedBy_trans).
  match goal with |- context [forEach ?ll ?body (st, 0)] =>
    destruct (forEach_advances R
                (List.length (enumerate splitsY)
                 * (List.length (enumerate splitsZ) * 1)) body Rrefl Rtrans)
      with (l := ll) (s := (st, 0)) (t := t) as (r & t' & E & HR)
  end.
  - intros [ix w] [s offsetX] t0.
    match goal with |- context [forEach ?ll ?body (s, 0)] =>
      destruct (forEach_advances R (List.length (enumerate splitsZ) * 1) body
                  Rrefl Rtrans)
        with (l := ll) (s := (s, 0)) (t := t0) as (r & t' & E & HR)
    end.
    + intros [iy h] [s1 offsetY] t1.
      match goal with |- context [forEach ?ll ?body (s1, 0)] =>
        destruct (forEach_advances R 1 body Rrefl Rtrans)
          with (l := ll) (s := (s1, 0)) (t := t1) as (r & t' & E & HR)
      end.
      * intros [iz d] [s2 offsetZ] t2.
        destruct (manualCell_total B baseBrush min baseName ix w offsetX iy h
                    offsetY iz d s2 offsetZ t2) as (s' & t' & E & Hs).
        eexists _, _. split; [exact E|]. unfold R. simpl.
        destruct Hs as [-> | [g ->]].
        -- split; simpl; [lia | exists []; now rewrite app_nil_r].
        -- split; simpl; [lia | eexists; reflexivity].
      * rewrite (bind_ok _ _ _ _ _ E). eexists _, _.
        split; [reflexivity | exact HR].
    + rewrite (bind_ok _ _ _ _ _ E). eexists _, _.
      split; [reflexivity | exact HR].
  - rewrite (bind_ok _ _ _ _ _ E). eexists _, _.
    split; [reflexivity | exact HR].
Qed.

Lemma performManualSlice_total (B : Backend) (geometry : Geometry)
    (bounds : Box3) (config : SlicingConfig) (connectors : ConnectorConfig)
    (hollow : HollowConfig) (labels : LabelConfig) (baseName : string)
    (baseBrush : Brush) (t1 : list Event) :
  run (createBrush B geometry) = (Ok (Some baseBrush), t1) ->
  exists ps t',
    run (performManualSlice B geometry bounds config connectors hollow labels
                            baseName) = (Ok ps, t').
Proof.
  intros Hbase. unfold run in *. unfold performManualSlice. cbv zeta.
  rewrite (bind_ok _ _ _ _ _ Hbase).
  assert (Hh : exists b t2,
            (if h_enabled hollow
             then emit (EvProgress "Hollowing Model...") ;;;
                  emit EvYield ;;;
                  applyHollowing B baseBrush bounds hollow
             else ret baseBrush) t1 = (Ok b, t2)).
  { destruct (h_enabled hollow).
    - rewrite !bind_emit. apply applyHollowing_total.
    - eexists _, _. reflexivity. }
  destruct Hh as (b & t2 & Eh). rewrite (bind_ok _ _ _ _ _ Eh).
  match goal with |- context [manualLoops B ?a ?b ?c ?d ?e ?f ?g] =>
    destruct (manualLoops_total B a b c d e f g t2) as (st' & t3 & El & _)
  end.
  rewrite (bind_ok _ _ _ _ _ El). eexists _, _. reflexivity.
Qed.

(** The demo cube in grid mode with an evaluator that fails on the first
    cell: the failure is logged, the other seven cells yield their parts. *)
Example grid_run_with_a_failing_cell :
  let r := run (performGridSlice flakyBackend (GMesh 0) demoBounds defaultSlicing
                  defaultConnectors defaultHollow defaultLabels "demo") in
  (exists ps, fst r = Ok ps
              /\ map index ps
                 = [(0, 0, 1); (0, 1, 0); (0, 1, 1); (1, 0, 0); (1, 0, 1);
                    (1, 1, 0); (1, 1, 1)]%Z)
  /\ filter (fun ev => match ev with EvConsoleError _ => true | _ => false end)
            (snd r)
     = [EvConsoleError "Fragment 1 processing failed:"].
Proof.
  vm_compute. split; [|reflexivity]. eexists. split; reflexivity.
Qed.

(** The demo cube split at 60 along X with an evaluator that fails on the
    first half: the failure is logged, the second half is produced. *)
Example manual_run_with_a_failing_cell :
  let r := run (performManualSlice flakyBackend (GMesh 0) demoBounds manualSplitX
                  defaultConnectors defaultHollow defaultLabels "demo") in
  (exists ps, fst r = Ok ps /\ map index ps = [(1, 0, 0)]%Z)
  /\ filter (fun ev => match ev with EvConsoleError _ => true | _ => false end)
            (snd r)
     = [EvConsoleError "Manual cut failure:"].
Proof.
  vm_compute. split; [|reflexivity]. eexists. split; reflexivity.
Qed.

(** ** Manual splits *)

(** Scenario B: an enabled axis of size 200 with offset 60. *)
Example scenario_B :
  manualSplits true 60 200 = [60; 200 - 60]
  /\ map Qred (manualSplits true 60 200) = [60; 140].
Proof. split; reflexivity. Qed.



(** * Further properties *)

(** ** Brushes *)

(** X1. [createBrush] never throws.  With three.js' empty geometry having no
    positions, a brush it returns holds the welded copy of its input, which
    has an index and at least one vertex, and whose structure was built; the
    input itself had vertices. *)
Theorem createBrush_yields_valid_brush (B : Backend) (geo : Geometry)
    (t : list Event) :
  emptyHasNoPositions B ->
  exists ob t',
    createBrush B geo t = (Ok ob, t')
    /\ forall b, ob = Some b ->
         weldAndIndex B geo = Ok (brushGeometry b)
         /\ hasIndex B (brushGeometry b) = true
         /\ buildStructure B (brushGeometry b) = Ok tt
         /\ (exists n, positionCount B (brushGeometry b) = Some n /\ n <> 0%Z)
         /\ (exists m, positionCount B geo = Some m /\ m <> 0%Z).
Proof.
  intros Hempty. unfold emptyHasNoPositions in Hempty.
  unfold createBrush, tryCatch, ensureValidForCSG, getPositionCount, bind,
    emit, ret, throw, liftOutcome.
  destruct (positionCount B geo) as [m|] eqn:Em.
  2: { rewrite Hempty. eexists _, _. split; [reflexivity | discriminate]. }
  destruct (Z.eqb_spec m 0) as [->|Hm].
  { rewrite Hempty. eexists _, _. split; [reflexivity | discriminate]. }
  destruct (weldAndIndex B geo) as [g|e] eqn:Ew.
  2: { eexists _, _. split; [reflexivity | discriminate]. }
  destruct (positionCount B g) as [n|] eqn:En.
  2: { eexists _, _. split; [reflexivity | discriminate]. }
  destruct (Z.eqb_spec n 0) as [->|Hn].
  { eexists _, _. split; [reflexivity | discriminate]. }
  destruct (hasIndex B g) eqn:Ei; simpl.
  2: { eexists _, _. split; [reflexivity | discriminate]. }
  destruct (buildStructure B g) as [[]|e] eqn:Eb.
  - eexists _, _. split; [reflexivity|]. intros b Hb. inversion Hb; subst.
    simpl. repeat split; try assumption; eauto.
  - eexists _, _. split; [reflexivity | discriminate].
Qed.

Lemma sampleBackend_empty : emptyHasNoPositions sampleBackend.
Proof. reflexivity. Qed.

Lemma createBrush_yields_valid_brush_witness :
  emptyHasNoPositions sampleBackend
  /\ exists ob t', createBrush sampleBackend (GMesh 0) [] = (Ok ob, t').
Proof.
  split; [exact sampleBackend_empty|].
  destruct (createBrush_yields_valid_brush sampleBackend (GMesh 0) []
              sampleBackend_empty) as (ob & t' & E & _).
  exists ob, t'. exact E.
Defined.

(** X2. On an input without vertices (no [position] attribute, or a count of
    zero) [createBrush] returns [null] without welding anything: the empty
    geometry that [ensureValidForCSG] hands back has no [position] attribute,
    reading its [count] throws, and the handler logs
    [Brush preparation failed:]. *)
Theorem createBrush_rejects_empty_input (B : Backend) (geo : Geometry)
    (t : list Event) :
  emptyHasNoPositions B ->
  positionCount B geo = None \/ positionCount B geo = Some 0%Z ->
  createBrush B geo t
  = (Ok None,
     (t ++ [EvNormalize geo]) ++ [EvConsoleError "Brush preparation failed:"]).
Proof.
  intros Hempty Hgeo. unfold emptyHasNoPositions in Hempty.
  unfold createBrush, tryCatch, ensureValidForCSG, getPositionCount, bind,
    emit, ret, throw, liftOutcome.
  destruct Hgeo as [-> | ->]; simpl; rewrite Hempty; reflexivity.
Qed.

Lemma createBrush_rejects_empty_input_witness :
  emptyHasNoPositions sampleBackend
  /\ fst (createBrush sampleBackend GEmpty []) = Ok None.
Proof.
  split; [exact sampleBackend_empty|].
  rewrite (createBrush_rejects_empty_input sampleBackend GEmpty []
             sampleBackend_empty (or_introl eq_refl)).
  reflexivity.
Defined.

(** ** Hollowing, beyond the shell scale *)

(** X3. [applyHollowing] never throws, and gives the solid back untouched
    when hollowing is off (nothing is traced at all), when the inner shell
    cannot be made into a brush (the evaluator is not called), and when the
    evaluator throws on the shell subtraction (the failure is logged). *)
Theorem hollowing_falls_back_to_base (B : Backend) (baseBrush : Brush)
    (bounds : Box3) (config : HollowConfig) (t : list Event) :
  let innerGeo :=
    innerShell (brushGeometry baseBrush) (getCenter bounds)
      (hollowScale (vx (getSize bounds)) (h_wallThickness config))
      (hollowScale (vy (getSize bounds)) (h_wallThickness config))
      (hollowScale (vz (getSize bounds)) (h_wallThickness config)) in
  exists b t',
    applyHollowing B baseBrush bounds config t = (Ok b, t')
    /\ (h_enabled config = false -> b = baseBrush /\ t' = t)
    /\ (forall t1,
          h_enabled config = true ->
          createBrush B innerGeo t = (Ok None, t1) ->
          b = baseBrush /\ t' = t1)
    /\ (forall inner t1 e,
          h_enabled config = true ->
          createBrush B innerGeo t = (Ok (Some inner), t1) ->
          evaluate B baseBrush inner SUBTRACTION = Throw e ->
          b = baseBrush
          /\ t' = (t1 ++ [EvEvaluate baseBrush inner SUBTRACTION])
                  ++ [EvConsoleError "Hollowing operation failure:"]).
Proof.
  intros innerGeo.
  destruct (applyHollowing_total B baseBrush bounds config t) as (b & t' & E).
  exists b, t'. split; [exact E|].
  unfold applyHollowing in E. fold innerGeo in E.
  split; [|split].
  - intros Hen. rewrite Hen in E. simpl in E. inversion E. now split.
  - intros t1 Hen Hinner. rewrite Hen in E. cbn [negb] in E. cbv iota zeta in E.
    rewrite (bind_ok _ _ _ _ _ Hinner) in E. inversion E. now split.
  - intros inner t1 e Hen Hinner Hthrow. rewrite Hen in E. cbn [negb] in E.
    cbv iota zeta in E. rewrite (bind_ok _ _ _ _ _ Hinner) in E.
    assert (Hev : evaluateM B baseBrush inner SUBTRACTION t1
                  = (Throw e, t1 ++ [EvEvaluate baseBrush inner SUBTRACTION])).
    { unfold evaluateM. rewrite bind_emit. unfold liftOutcome. now rewrite Hthrow. }
    rewrite (tryCatch_throw _ _ t1
               (t1 ++ [EvEvaluate baseBrush inner SUBTRACTION]) e) in E.
    + inversion E. now split.
    + now apply bind_throw.
Qed.

Lemma hollowing_falls_back_to_base_witness :
  applyHollowing sampleBackend (mkBrush (GMesh 0)) demoBounds defaultHollow []
  = (Ok (mkBrush (GMesh 0)), []).
Proof.
  destruct (hollowing_falls_back_to_base sampleBackend (mkBrush (GMesh 0))
              demoBounds defaultHollow []) as (b & t' & E & Hoff & _).
  destruct (Hoff eq_refl) as [-> ->]. exact E.
Defined.

(** X4. Every evaluator call of [applyHollowing] is a subtraction, and it
    sends no progress message and does not yield: it only normalizes meshes,
    subtracts, and logs. *)
Theorem hollowing_only_subtracts (B : Backend) (baseBrush : Brush)
    (bounds : Box3) (config : HollowConfig) :
  emitsOnly (onlyOperation SUBTRACTION)
            (applyHollowing B baseBrush bounds config).
Proof. unfold applyHollowing. emits_auto. Qed.

(** X5. Once the shell subtraction went through, a drain hole that fails
    without an exception leaves the hollowed solid: when the drain-hole
    cylinder cannot be made into a brush the evaluator is not called again,
    and when the drained result cannot be made into a brush it is discarded;
    when it can, it is the result. *)
Theorem drain_hole_outcomes (B : Backend) (baseBrush : Brush) (bounds : Box3)
    (config : HollowConfig) (t t1 : list Event) (inner : Brush)
    (shell : Geometry) (t2 : list Event) (rb : option Brush) (t3 : list Event) :
  let holeGeo :=
    GTranslate
      (GCylinder (h_drainHoleDiameter config / 2) (h_drainHoleDiameter config / 2)
                 (vy (getSize bounds) + 100) 16)
      (vx (getCenter bounds)) (vy (bmin bounds)) (vz (getCenter bounds)) in
  h_enabled config = true ->
  h_drainHoleEnabled config = true ->
  createBrush B
    (innerShell (brushGeometry baseBrush) (getCenter bounds)
       (hollowScale (vx (getSize bounds)) (h_wallThickness config))
       (hollowScale (vy (getSize bounds)) (h_wallThickness config))
       (hollowScale (vz (getSize bounds)) (h_wallThickness config))) t
  = (Ok (Some inner), t1) ->
  evaluateM B baseBrush inner SUBTRACTION t1 = (Ok shell, t2) ->
  createBrush B shell t2 = (Ok rb, t3) ->
  (forall t4,
     createBrush B holeGeo t3 = (Ok None, t4) ->
     applyHollowing B baseBrush bounds config t = (Ok (orElse rb baseBrush), t4))
  /\ (forall hole t4 drained t5 db t6,
        createBrush B holeGeo t3 = (Ok (Some hole), t4) ->
        evaluateM B (orElse rb baseBrush) hole SUBTRACTION t4 = (Ok drained, t5) ->
        createBrush B drained t5 = (Ok db, t6) ->
        applyHollowing B baseBrush bounds config t
        = (Ok (orElse db (orElse rb baseBrush)), t6)).
Proof.
  intros holeGeo Hen Hdrain Hinner Hshell Hrb. split.
  - intros t4 Hhole.
    now apply (drain_brush_failure_keeps_shell B baseBrush bounds config t t1
                 inner shell t2 rb t3 t4).
  - intros hole t4 drained t5 db t6 Hhole Hdrained Hdb.
    rewrite (drain_hole_geometry B baseBrush bounds config t t1 inner shell t2
               rb t3) by assumption.
    fold holeGeo. apply tryCatch_ok.
    rewrite (bind_ok _ _ _ _ _ Hhole), (bind_ok _ _ _ _ _ Hdrained),
            (bind_ok _ _ _ _ _ Hdb).
    reflexivity.
Qed.

Lemma drain_hole_outcomes_witness :
  fst (run (applyHollowing noCylinderBackend (mkBrush (GMesh 0)) demoBounds
              hollowWithDrain))
  = Ok (mkBrush (GMesh 1)).
Proof.
  unfold run.
  erewrite (proj1 (drain_hole_outcomes noCylinderBackend (mkBrush (GMesh 0))
                     demoBounds hollowWithDrain [] _ _ _ _ (Some (mkBrush (GMesh 1))) _
                     eq_refl eq_refl eq_refl eq_refl eq_refl)).
  - reflexivity.
  - reflexivity.
Defined.

(** ** Labels *)

(** X6. Given a geometry with positions, whose bounding box three.js
    computes, [applyLabel] never throws and returns either the geometry it
    was given or what the evaluator made of a union; it calls the evaluator
    only to add.  When the evaluator throws on the union, the geometry comes
    back unlabelled and nothing is logged. *)
Theorem label_failure_keeps_geometry (B : Backend) (geo : Geometry)
    (ix iy iz : Z) (config : LabelConfig) (t : list Event) :
  let bounds := boundingBox B geo in
  let plateGeo :=
    GTranslate
      (GBox (l_plateSize config) (l_thickness config) (l_plateSize config / 2))
      (vx (getCenter bounds)) (vy (bmin bounds) + l_thickness config / 2)
      (vz (getCenter bounds)) in
  (exists g t',
     applyLabel B geo ix iy iz config t = (Ok g, t')
     /\ (g = geo \/ exists a b, evaluate B a b ADDITION = Ok g))
  /\ emitsOnly (onlyOperation ADDITION) (applyLabel B geo ix iy iz config)
  /\ (forall baseBrush labelBrush t1 t2 e,
        createBrush B geo t = (Ok (Some baseBrush), t1) ->
        createBrush B plateGeo t1 = (Ok (Some labelBrush), t2) ->
        evaluate B baseBrush labelBrush ADDITION = Throw e ->
        applyLabel B geo ix iy iz config t
        = (Ok geo, t2 ++ [EvEvaluate baseBrush labelBrush ADDITION])).
Proof.
  intros bounds plateGeo. split; [|split].
  - unfold applyLabel. cbv zeta. fold bounds plateGeo.
    destruct (createBrush_total B geo t) as (ob & t1 & E1).
    destruct (createBrush_total B plateGeo t1) as (ol & t2 & E2).
    rewrite (bind_ok _ _ _ _ _ E1), (bind_ok _ _ _ _ _ E2).
    destruct ob as [bb|], ol as [lb|];
      try (eexists _, _; split; [reflexivity | now left]).
    unfold tryCatch, evaluateM. rewrite bind_emit. unfold liftOutcome.
    destruct (evaluate B bb lb ADDITION) as [g|e] eqn:Ee.
    + eexists _, _. split; [reflexivity|]. right. now exists bb, lb.
    + eexists _, _. split; [reflexivity | now left].
  - unfold applyLabel. emits_auto.
  - intros baseBrush labelBrush t1 t2 e E1 E2 Hthrow.
    unfold applyLabel. cbv zeta. fold bounds plateGeo.
    rewrite (bind_ok _ _ _ _ _ E1), (bind_ok _ _ _ _ _ E2).
    unfold tryCatch, evaluateM. rewrite bind_emit. unfold liftOutcome.
    now rewrite Hthrow.
Qed.

(** ** Connectors, beyond the face plan *)

Lemma forEach_throws {I S} (l : list I) (body : I -> S -> M S) (s : S)
    (t t' : list Event) (e : Error) :
  forEach l body s t = (Throw e, t') ->
  exists i s0 t0, In i l /\ body i s0 t0 = (Throw e, t').
Proof.
  revert s t. induction l as [|i l IH]; intros s t H; simpl in H.
  - discriminate H.
  - unfold bind in H. destruct (body i s t) as [[s1|e1] t1] eqn:E.
    + destruct (IH s1 t1 H) as (j & s0 & t0 & Hin & Hj).
      exists j, s0, t0. split; [now right | exact Hj].
    + inversion H; subst. exists i, s, t. split; [now left | exact E].
Qed.

(** The only exception that leaves [addFeatures] is the evaluator's. *)
Lemma addFeatures_throws (B : Backend) (connectors : ConnectorConfig)
    (box : Box3) (size center : Vector3) (faceAxis : Axis) (isPeg : bool)
    (st : ConnState) (t t' : list Event) (e : Error) :
  addFeatures B connectors box size center faceAxis isPeg st t = (Throw e, t') ->
  exists opBrush,
    evaluate B (resultBrush st) opBrush (connectorOp isPeg) = Throw e.
Proof.
  unfold addFeatures. destruct (faceExtents faceAxis size) as [faceW faceH].
  cbv zeta. destruct (0 <? _)%Z; [|discriminate].
  match goal with |- context [bind (createBrush B ?g) _ ?t0] =>
    destruct (createBrush_total B g t0) as (ob & t1 & E) end.
  rewrite (bind_ok _ _ _ _ _ E). destruct ob as [opBrush|]; [|discriminate].
  unfold evaluateM. rewrite bind_assoc, bind_emit. unfold liftOutcome, bind at 1.
  destruct (evaluate B (resultBrush st) opBrush (connectorOp isPeg))
    as [res|e0] eqn:Ee.
  - match goal with |- context [bind (createBrush B ?g) _ ?t0] =>
      destruct (createBrush_total B g t0) as (nb & t2 & E2) end.
    rewrite (bind_ok _ _ _ _ _ E2). discriminate.
  - intros H. inversion H; subst. now exists opBrush.
Qed.

(** X7. A part without neighbours gets no connectors: when no face is
    planned, [applyConnectors] never calls the evaluator and returns the
    normalized geometry of the part (the part itself when it cannot be made
    into a brush).  For a cell inside the grid no face is planned exactly
    when the grid is a single cell. *)
Theorem lone_part_gets_no_connectors (B : Backend) (geo : Geometry)
    (ix iy iz stepsX stepsY stepsZ : Z) (config : SlicingConfig)
    (connectors : ConnectorConfig) (boundsMin : Vector3) :
  (0 <= ix < stepsX)%Z -> (0 <= iy < stepsY)%Z -> (0 <= iz < stepsZ)%Z ->
  (connectorPlan ix iy iz stepsX stepsY stepsZ = []
   <-> stepsX = 1%Z /\ stepsY = 1%Z /\ stepsZ = 1%Z)
  /\ (connectorPlan ix iy iz stepsX stepsY stepsZ = [] ->
      (forall t,
         applyConnectors B geo ix iy iz stepsX stepsY stepsZ config connectors
                         boundsMin t
         = bind (createBrush B geo)
                (fun rb => ret (match rb with
                                | Some b => brushGeometry b
                                | None => geo
                                end)) t)
      /\ emitsOnly notEvaluate
           (applyConnectors B geo ix iy iz stepsX stepsY stepsZ config
                            connectors boundsMin)).
Proof.
  intros Hx Hy Hz. split.
  - unfold connectorPlan.
    destruct (Z.ltb_spec (ix + 1) stepsX), (Z.ltb_spec 0 ix),
             (Z.ltb_spec (iy + 1) stepsY), (Z.ltb_spec 0 iy),
             (Z.ltb_spec (iz + 1) stepsZ), (Z.ltb_spec 0 iz);
      simpl; split; try discriminate; try lia; intros _; reflexivity.
  - intros Hplan.
    assert (E : forall t,
              applyConnectors B geo ix iy iz stepsX stepsY stepsZ config
                              connectors boundsMin t
              = bind (createBrush B geo)
                     (fun rb => ret (match rb with
                                     | Some b => brushGeometry b
                                     | None => geo
                                     end)) t).
    { intros t. rewrite applyConnectors_plan, Hplan. apply bind_ext.
      intros [rb|] t1; reflexivity. }
    split; [exact E|].
    intros t. rewrite E.
    assert (Hm : emitsOnly notEvaluate
                   (bind (createBrush B geo)
                      (fun rb => ret (match rb with
                                      | Some b => brushGeometry b
                                      | None => geo
                                      end)))) by emits_auto.
    apply Hm.
Qed.

Lemma lone_part_gets_no_connectors_witness :
  connectorPlan 0 0 0 1 1 1 = []
  /\ forall t,
       applyConnectors sampleBackend (GMesh 1) 0 0 0 1 1 1 defaultSlicing
                       defaultConnectors (bmin demoBounds) t
       = (Ok (GMesh 1), t ++ [EvNormalize (GMesh 1)]).
Proof.
  assert (H : (0 <= 0 < 1)%Z) by lia.
  destruct (lone_part_gets_no_connectors sampleBackend (GMesh 1) 0 0 0 1 1 1
              defaultSlicing defaultConnectors (bmin demoBounds) H H H)
    as [Hiff Hrun].
  assert (Hplan : connectorPlan 0 0 0 1 1 1 = [])
    by (apply Hiff; repeat split).
  split; [exact Hplan|].
  intros t. rewrite (proj1 (Hrun Hplan) t). reflexivity.
Defined.

(** X8. Connector synthesis is not guarded: the only exceptions that leave
    [applyConnectors] are the evaluator's, thrown on an addition or a
    subtraction, and such an exception costs the whole cell.  In a grid cell
    with connectors on, whose intersection gave a non-empty mesh, an
    exception from [applyConnectors] is caught by the cell's handler, which
    logs it; the cell adds no part, not even the plain intersection. *)
Theorem connector_exception_drops_cell (B : Backend) (baseBrush : Brush)
    (size min : Vector3) (stepsX stepsY stepsZ total : Z)
    (config : SlicingConfig) (connectors : ConnectorConfig)
    (labels : LabelConfig) (baseName : string) (ix iy iz : Z) (st : LoopState)
    (t t1 t2 : list Event) (boxBrush : Brush) (res : Geometry) (n : Z)
    (e : Error) :
  let w := gridCellSize (vx size) (printerX config) stepsX ix in
  let h := gridCellSize (vy size) (printerY config) stepsY iy in
  let d := gridCellSize (vz size) (printerZ config) stepsZ iz in
  let visited := {| current := current st + 1; parts := parts st |} in
  let progress :=
    EvProgress ("Slicing Fragment " ++ numToString (current st + 1) ++ "/"
                  ++ numToString total ++ "...") in
  c_enabled connectors = true ->
  degenerate w h d = false ->
  createBrush B (gridBoxGeo min config ix iy iz w h d)
              ((t ++ [progress]) ++ [EvYield]) = (Ok (Some boxBrush), t1) ->
  evaluate B baseBrush boxBrush INTERSECTION = Ok res ->
  positionCount B res = Some n -> (n > 0)%Z ->
  applyConnectors B res ix iy iz stepsX stepsY stepsZ config connectors min
                  (t1 ++ [EvEvaluate baseBrush boxBrush INTERSECTION])
  = (Throw e, t2) ->
  gridCell B baseBrush size min stepsX stepsY stepsZ total config connectors
           labels baseName ix iy iz st t
  = (Ok visited,
     t2 ++ [EvConsoleError ("Fragment " ++ numToString (current st + 1)
                              ++ " processing failed:")])
  /\ exists a b op,
       evaluate B a b op = Throw e /\ (op = ADDITION \/ op = SUBTRACTION).
Proof.
  intros w h d visited progress Hen Hdeg Hbox Hev Hcount Hn Hconn. split.
  - apply (gridCell_catches B baseBrush size min stepsX stepsY stepsZ total
             config connectors labels baseName ix iy iz st t t1 t2 boxBrush e);
      try assumption.
    unfold gridCellTry, evaluateM. rewrite bind_assoc, bind_emit.
    unfold liftOutcome, bind at 1. rewrite Hev.
    unfold getPositionCount, bind at 1. rewrite Hcount. unfold ret at 1.
    destruct (Z.gtb_spec n 0) as [_|Hle]; [|lia].
    rewrite Hen. now apply bind_throw.
  - rewrite applyConnectors_plan in Hconn.
    match type of Hconn with bind (createBrush B ?g) _ ?t0 = _ =>
      destruct (createBrush_total B g t0) as (rb & t3 & E) end.
    rewrite (bind_ok _ _ _ _ _ E) in Hconn. destruct rb as [rb|]; [|discriminate].
    cbv zeta in Hconn. unfold bind at 1 in Hconn.
    match type of Hconn with context [forEach ?l ?body ?s ?t0] =>
      destruct (forEach l body s t0) as [[s'|e'] t4] eqn:Eloop end;
      [discriminate|].
    inversion Hconn; subst.
    destruct (forEach_throws _ _ _ _ _ _ Eloop) as ([a isPeg] & s0 & t0 & _ & Hbody).
    simpl in Hbody. apply addFeatures_throws in Hbody.
    destruct Hbody as [opBrush Hthrow].
    exists (resultBrush s0), opBrush, (connectorOp isPeg). split; [exact Hthrow|].
    destruct isPeg; [now left | now right].
Qed.

Lemma connector_exception_drops_cell_witness :
  exists tr,
    gridCell noUnionBackend (mkBrush (GMesh 0)) (getSize demoBounds)
             (bmin demoBounds) 2 2 2 8 defaultSlicing defaultConnectors
             defaultLabels "demo" 0 0 0 {| current := 0; parts := [] |} []
    = (Ok {| current := 0 + 1; parts := [] |}, tr).
Proof.
  eexists.
  edestruct (connector_exception_drops_cell noUnionBackend
               (mkBrush (GMesh 0)) (getSize demoBounds) (bmin demoBounds)
               2 2 2 8 defaultSlicing defaultConnectors defaultLabels "demo"
               0 0 0 {| current := 0; parts := [] |} []) as [H _].
  - reflexivity.
  - reflexivity.
  - vm_compute. reflexivity.
  - reflexivity.
  - reflexivity.
  - reflexivity.
  - vm_compute. reflexivity.
  - exact H.
Defined.

(** ** Fatal start-up errors *)

(** X9. When the source geometry cannot be made into a brush, grid mode
    (with positive envelope sizes, within the part-count limit) throws
    [Could not initialize geometry for CSG.] and manual mode throws
    [Geometry initialization failed.]; up to then the run has only
    normalized the geometry and logged: no progress message was sent and the
    evaluator was not called. *)
Theorem base_brush_failure_is_fatal (B : Backend) (geometry : Geometry)
    (bounds : Box3) (config : SlicingConfig) (connectors : ConnectorConfig)
    (hollow : HollowConfig) (labels : LabelConfig) (baseName : string)
    (t1 : list Event) :
  run (createBrush B geometry) = (Ok None, t1) ->
  (0 < printerX config -> 0 < printerY config -> 0 < printerZ config ->
   (gridSteps (vx (getSize bounds)) (printerX config)
    * gridSteps (vy (getSize bounds)) (printerY config)
    * gridSteps (vz (getSize bounds)) (printerZ config) <= 500)%Z ->
   run (performGridSlice B geometry bounds config connectors hollow labels
                         baseName)
   = (Throw (JsError "Could not initialize geometry for CSG."), t1))
  /\ run (performManualSlice B geometry bounds config connectors hollow labels
                             baseName)
     = (Throw (JsError "Geometry initialization failed."), t1)
  /\ Forall brushEvent t1.
Proof.
  intros Hbase. unfold run in *. split; [|split].
  - intros _ _ _ Htotal. unfold performGridSlice, partCountLimit. cbv zeta.
    match goal with |- context [(?n >? 500)%Z] =>
      destruct (Z.gtb_spec n 500) as [Hgt|_]; [lia|] end.
    now rewrite (bind_ok _ _ _ _ _ Hbase).
  - unfold performManualSlice. cbv zeta. now rewrite (bind_ok _ _ _ _ _ Hbase).
  - assert (Hm : emitsOnly brushEvent (createBrush B geometry)) by emits_auto.
    destruct (Hm []) as (d & Hd & Hall). rewrite Hbase in Hd. simpl in Hd.
    now subst.
Qed.

Lemma base_brush_failure_is_fatal_witness :
  fst (run (performGridSlice sampleBackend GEmpty demoBounds defaultSlicing
              defaultConnectors defaultHollow defaultLabels "demo"))
  = Throw (JsError "Could not initialize geometry for CSG.")
  /\ fst (run (performManualSlice sampleBackend GEmpty demoBounds manualSplitX
                 defaultConnectors defaultHollow defaultLabels "demo"))
     = Throw (JsError "Geometry initialization failed.").
Proof.
  assert (Htotal :
            (gridSteps (vx (getSize demoBounds)) (printerX defaultSlicing)
             * gridSteps (vy (getSize demoBounds)) (printerY defaultSlicing)
             * gridSteps (vz (getSize demoBounds)) (printerZ defaultSlicing)
             <= 500)%Z) by (vm_compute; discriminate).
  split.
  - rewrite (proj1 (base_brush_failure_is_fatal sampleBackend GEmpty
                      demoBounds defaultSlicing defaultConnectors
                      defaultHollow defaultLabels "demo" _ eq_refl)
                   eq_refl eq_refl eq_refl Htotal).
    reflexivity.
  - rewrite (proj1 (proj2 (base_brush_failure_is_fatal sampleBackend GEmpty
                             demoBounds manualSplitX defaultConnectors
                             defaultHollow defaultLabels "demo" _ eq_refl))).
    reflexivity.
Defined.

(** ** The loops as a whole *)

Lemma Subseq_nil_l {A} (l : list A) : Subseq [] l.
Proof. induction l; now constructor. Qed.

Lemma Subseq_refl {A} (l : list A) : Subseq l l.
Proof. induction l; now constructor. Qed.

Lemma Subseq_app {A} (a1 l1 a2 l2 : list A) :
  Subseq a1 l1 -> Subseq a2 l2 -> Subseq (a1 ++ a2) (l1 ++ l2).
Proof. intros H1 H2. induction H1; simpl; [exact H2 | |]; now constructor. Qed.

Lemma Subseq_In {A} (l1 l2 : list A) (x : A) :
  Subseq l1 l2 -> In x l1 -> In x l2.
Proof.
  intros H. induction H as [|y l1 l2 H IH|y l1 l2 H IH]; simpl; intros Hin.
  - exact Hin.
  - right. now apply IH.
  - destruct Hin as [->|Hin]; [now left | right; now apply IH].
Qed.

Lemma Subseq_length {A} (l1 l2 : list A) :
  Subseq l1 l2 -> (List.length l1 <= List.length l2)%nat.
Proof. intros H. induction H; simpl; lia. Qed.

Lemma Subseq_NoDup {A} (l1 l2 : list A) :
  Subseq l1 l2 -> NoDup l2 -> NoDup l1.
Proof.
  intros H. induction H as [|y l1 l2 H IH|y l1 l2 H IH]; intros Hnd.
  - constructor.
  - inversion Hnd; subst. now apply IH.
  - inversion Hnd as [|? ? Hnotin Hnd']; subst. constructor.
    + intros Hin. apply Hnotin. now apply (Subseq_In l1 l2).
    + now apply IH.
Qed.

Lemma progressOf_app (t d : list Event) :
  progressOf (t ++ d) = progressOf t ++ progressOf d.
Proof.
  induction t as [|ev t IH]; simpl; [reflexivity|].
  destruct ev; simpl; now rewrite IH.
Qed.

Lemma progressOf_quiet (d : list Event) :
  Forall notProgress d -> progressOf d = [].
Proof.
  induction 1 as [|ev d Hev _ IH]; simpl; [reflexivity|].
  destruct ev; simpl in *; [contradiction | | | |]; exact IH.
Qed.

(** A computation that sends no progress message leaves the messages sent
    so far as they are. *)
Lemma quiet_progress {A} (m : M A) (t t' : list Event) (o : Outcome A) :
  emitsOnly notProgress m -> m t = (o, t') -> progressOf t' = progressOf t.
Proof.
  intros Hm E. destruct (Hm t) as (d & Hd & Hall). rewrite E in Hd. simpl in Hd.
  subst t'. now rewrite progressOf_app, (progressOf_quiet d Hall), app_nil_r.
Qed.

(** Loops over cells: when each iteration completes and relates its two ends
    by [R] on the cells it covers, so does the loop, on all cells covered. *)
Lemma forEach_cells {I S K}
    (R : list K -> S * list Event -> S * list Event -> Prop)
    (cellsOf : I -> list K) (body : I -> S -> M S) (l : list I) :
  (forall x, R [] x x) ->
  (forall l1 l2 x y z, R l1 x y -> R l2 y z -> R (l1 ++ l2) x z) ->
  (forall i, In i l -> forall s t,
     exists s' t', body i s t = (Ok s', t') /\ R (cellsOf i) (s, t) (s', t')) ->
  forall s t, exists s' t',
    forEach l body s t = (Ok s', t') /\ R (flat_map cellsOf l) (s, t) (s', t').
Proof.
  intros Hnil Happ. induction l as [|i l IH]; intros Hbody s t; simpl.
  - exists s, t. split; [reflexivity | apply Hnil].
  - destruct (Hbody i (or_introl eq_refl) s t) as (s1 & t1 & E1 & R1).
    destruct (IH (fun j Hj => Hbody j (or_intror Hj)) s1 t1)
      as (s2 & t2 & E2 & R2).
    exists s2, t2. split.
    + now rewrite (bind_ok _ _ _ _ _ E1).
    + now apply Happ with (s1, t1).
Qed.

Lemma seq_shift_add (n1 s n2 : nat) :
  seq (n1 + s) n2 = map (Nat.add n1) (seq s n2).
Proof.
  revert s. induction n2 as [|n2 IH]; intros s; simpl; [reflexivity|].
  f_equal. rewrite <- IH. f_equal. lia.
Qed.

Lemma loopRun_nil (nameOf : Z * Z * Z -> string) (message : Z -> string)
    (x : LoopState * list Event) :
  loopRun nameOf message [] x x.
Proof.
  split; [simpl; lia|]. split.
  - exists []. rewrite app_nil_r. repeat split; constructor.
  - simpl. now rewrite app_nil_r.
Qed.

Lemma loopRun_app (nameOf : Z * Z * Z -> string) (message : Z -> string)
    (l1 l2 : list (Z * Z * Z)) (x y z : LoopState * list Event) :
  loopRun nameOf message l1 x y -> loopRun nameOf message l2 y z ->
  loopRun nameOf message (l1 ++ l2) x z.
Proof.
  intros (Hc1 & (a1 & Hp1 & Hs1 & Hn1) & Hm1) (Hc2 & (a2 & Hp2 & Hs2 & Hn2) & Hm2).
  split; [|split].
  - rewrite Hc2, Hc1, length_app. lia.
  - exists (a1 ++ a2). split; [|split].
    + now rewrite Hp2, Hp1, app_assoc.
    + rewrite map_app. now apply Subseq_app.
    + apply Forall_app. now split.
  - rewrite Hm2, Hm1, <- app_assoc. f_equal.
    rewrite length_app, seq_app, map_app. f_equal.
    replace (1 + List.length l1)%nat with (List.length l1 + 1)%nat by lia.
    rewrite seq_shift_add, map_map. apply map_ext. intros j.
    f_equal. rewrite Hc1. lia.
Qed.

(** *** The service sends progress messages only from the loops *)

Lemma quiet_addFeatures (B : Backend) (connectors : ConnectorConfig)
    (box : Box3) (size center : Vector3) (faceAxis : Axis) (isPeg : bool)
    (st : ConnState) :
  emitsOnly notProgress
            (addFeatures B connectors box size center faceAxis isPeg st).
Proof.
  eapply emitsOnly_weaken; [|apply addFeatures_emits].
  intros [] H; simpl in *; try exact I; contradiction.
Qed.

Lemma quiet_applyConnectors (B : Backend) (geo : Geometry)
    (ix iy iz stepsX stepsY stepsZ : Z) (config : SlicingConfig)
    (connectors : ConnectorConfig) (boundsMin : Vector3) :
  emitsOnly notProgress
            (applyConnectors B geo ix iy iz stepsX stepsY stepsZ config
                             connectors boundsMin).
Proof.
  unfold applyConnectors.
  apply emitsOnly_bind; [emits_auto|]. intros [rb|]; [|emits_auto]. cbv zeta.
  repeat (apply emitsOnly_bind;
          [unfold when;
           match goal with |- emitsOnly _ (if ?c then _ else _) =>
             destruct c; [apply quiet_addFeatures | apply emitsOnly_ret] end
          | intros ?]).
  apply emitsOnly_ret.
Qed.

Lemma quiet_applyLabel (B : Backend) (geo : Geometry) (ix iy iz : Z)
    (config : LabelConfig) :
  emitsOnly notProgress (applyLabel B geo ix iy iz config).
Proof. unfold applyLabel. emits_auto. Qed.

Lemma quiet_applyHollowing (B : Backend) (baseBrush : Brush) (bounds : Box3)
    (config : HollowConfig) :
  emitsOnly notProgress (applyHollowing B baseBrush bounds config).
Proof. unfold applyHollowing. emits_auto. Qed.

#[local] Hint Resolve quiet_applyConnectors quiet_applyLabel : emits.

Lemma quiet_gridCellTry (B : Backend) (baseBrush boxBrush : Brush)
    (ix iy iz stepsX stepsY stepsZ : Z) (min : Vector3) (config : SlicingConfig)
    (connectors : ConnectorConfig) (labels : LabelConfig) (baseName : string)
    (st : LoopState) :
  emitsOnly notProgress
            (gridCellTry B baseBrush boxBrush ix iy iz stepsX stepsY stepsZ min
                         config connectors labels baseName st).
Proof. unfold gridCellTry. emits_auto. Qed.

Lemma quiet_manualCellTry (B : Backend) (baseBrush boxBrush : Brush)
    (ix iy iz : Z) (baseName : string) (st : LoopState) :
  emitsOnly notProgress
            (manualCellTry B baseBrush boxBrush ix iy iz baseName st).
Proof. unfold manualCellTry. emits_auto. Qed.

#[local] Hint Resolve quiet_gridCellTry quiet_manualCellTry : emits.

(** *** One cell *)

Lemma gridCell_run (B : Backend) (baseBrush : Brush) (size min : Vector3)
    (stepsX stepsY stepsZ total : Z) (config : SlicingConfig)
    (connectors : ConnectorConfig) (labels : LabelConfig) (baseName : string)
    (ix iy iz : Z) (st : LoopState) (t : list Event) :
  exists st' t',
    gridCell B baseBrush size min stepsX stepsY stepsZ total config connectors
             labels baseName ix iy iz st t = (Ok st', t')
    /\ loopRun (gridNameOf baseName) (gridMessage total) [(ix, iy, iz)]
               (st, t) (st', t').
Proof.
  destruct (gridCell_total B baseBrush size min stepsX stepsY stepsZ total
              config connectors labels baseName ix iy iz st t)
    as (st' & t' & E & Hshape).
  exists st', t'. split; [exact E|].
  unfold gridCell in E. cbv zeta in E. rewrite !bind_emit in E.
  match type of E with ?m ?tr = _ =>
    assert (Hq : emitsOnly notProgress m) by emits_auto;
    pose proof (quiet_progress m tr t' _ Hq E) as Hp
  end.
  rewrite !progressOf_app in Hp. simpl in Hp. rewrite app_nil_r in Hp.
  split; [|split]; simpl.
  - destruct Hshape as [-> | [g ->]]; reflexivity.
  - destruct Hshape as [-> | [g ->]]; simpl.
    + exists []. rewrite app_nil_r. repeat split;
        [apply Subseq_nil_l | constructor].
    + eexists. split; [reflexivity|]. split; [apply Subseq_refl|].
      repeat constructor.
  - exact Hp.
Qed.

Lemma manualCell_run (B : Backend) (baseBrush : Brush) (min : Vector3)
    (baseName : string) (ix : Z) (w offsetX : Q) (iy : Z) (h offsetY : Q)
    (iz : Z) (d : Q) (st : LoopState) (offsetZ : Q) (t : list Event) :
  exists s' t',
    manualCell B baseBrush min baseName ix w offsetX iy h offsetY iz d
               (st, offsetZ) t = (Ok s', t')
    /\ loopRun (manualNameOf baseName) manualMessage [(ix, iy, iz)]
               (st, t) (fst s', t').
Proof.
  destruct (manualCell_total B baseBrush min baseName ix w offsetX iy h offsetY
              iz d st offsetZ t) as (st' & t' & E & Hshape).
  exists (st', offsetZ + d), t'. split; [exact E|].
  unfold manualCell in E. cbv zeta in E. rewrite !bind_emit in E.
  match type of E with ?m ?tr = _ =>
    assert (Hq : emitsOnly notProgress m) by emits_auto;
    pose proof (quiet_progress m tr t' _ Hq E) as Hp
  end.
  rewrite !progressOf_app in Hp. simpl in Hp. rewrite app_nil_r in Hp.
  split; [|split]; simpl.
  - destruct Hshape as [-> | [g ->]]; reflexivity.
  - destruct Hshape as [-> | [g ->]]; simpl.
    + exists []. rewrite app_nil_r. repeat split;
        [apply Subseq_nil_l | constructor].
    + eexists. split; [reflexivity|]. split; [apply Subseq_refl|].
      repeat constructor.
  - exact Hp.
Qed.

(** *** All cells *)

Lemma gridLoops_run (B : Backend) (baseBrush : Brush) (size min : Vector3)
    (stepsX stepsY stepsZ total : Z) (config : SlicingConfig)
    (connectors : ConnectorConfig) (labels : LabelConfig) (baseName : string)
    (st : LoopState) (t : list Event) :
  exists st' t',
    gridLoops B baseBrush size min stepsX stepsY stepsZ total config connectors
              labels baseName st t = (Ok st', t')
    /\ loopRun (gridNameOf baseName) (gridMessage total)
               (gridCells stepsX stepsY stepsZ) (st, t) (st', t').
Proof.
  unfold gridLoops, gridCells.
  apply (forEach_cells (loopRun (gridNameOf baseName) (gridMessage total)));
    [apply loopRun_nil | apply loopRun_app|].
  intros ix _.
  apply (forEach_cells (loopRun (gridNameOf baseName) (gridMessage total)));
    [apply loopRun_nil | apply loopRun_app|].
  intros iy _.
  apply (forEach_cells (loopRun (gridNameOf baseName) (gridMessage total))
                       (fun iz => [(ix, iy, iz)]));
    [apply loopRun_nil | apply loopRun_app|].
  intros iz _ s t0. apply gridCell_run.
Qed.

Lemma map_fst_combine {A C} (a : list A) (b : list C) :
  List.length a = List.length b -> map fst (combine a b) = a.
Proof.
  revert b. induction a as [|x a IH]; intros [|y b] H; simpl in *;
    try reflexivity; try discriminate.
  f_equal. apply IH. lia.
Qed.

Lemma flat_map_enumerate {K} (f : Z -> list K) (splits : list Q) :
  flat_map (fun p => f (fst p)) (enumerate splits)
  = flat_map f (range (Z.of_nat (List.length splits))).
Proof.
  assert (E : forall l : list (Z * Q),
             flat_map (fun p => f (fst p)) l = flat_map f (map fst l)).
  { induction l as [|p l IH]; simpl; [reflexivity | now rewrite IH]. }
  rewrite E. unfold enumerate. rewrite map_fst_combine; [reflexivity|].
  rewrite range_length. lia.
Qed.

Lemma manualLoops_run (B : Backend) (baseBrush : Brush) (min : Vector3)
    (baseName : string) (splitsX splitsY splitsZ : list Q) (st : LoopState)
    (t : list Event) :
  exists st' t',
    manualLoops B baseBrush min baseName splitsX splitsY splitsZ st t
    = (Ok st', t')
    /\ loopRun (manualNameOf baseName) manualMessage
               (gridCells (Z.of_nat (List.length splitsX))
                          (Z.of_nat (List.length splitsY))
                          (Z.of_nat (List.length splitsZ)))
               (st, t) (st', t').
Proof.
  unfold manualLoops, gridCells.
  rewrite <- (flat_map_enumerate _ splitsX).
  pose (R := fun cells (x y : (LoopState * Q) * list Event) =>
               loopRun (manualNameOf baseName) manualMessage cells
                       (fst (fst x), snd x) (fst (fst y), snd y)).
  assert (Rnil : forall x, R [] x x) by (intros x; apply loopRun_nil).
  assert (Rapp : forall l1 l2 x y z, R l1 x y -> R l2 y z -> R (l1 ++ l2) x z).
  { intros l1 l2 x y z. apply loopRun_app. }
  match goal with |- context [forEach ?ll ?body (st, 0)] =>
    destruct (forEach_cells R
                (fun p : Z * Q =>
                   flat_map (fun iy =>
                     flat_map (fun iz => [(fst p, iy, iz)])
                              (range (Z.of_nat (List.length splitsZ))))
                     (range (Z.of_nat (List.length splitsY))))
                body ll Rnil Rapp)
      with (s := (st, 0)) (t := t) as (r & t' & E & HR)
  end.
  - intros [ix w] _ [s offsetX] t0.
    rewrite <- (flat_map_enumerate _ splitsY).
    match goal with |- context [forEach ?ll ?body (s, 0)] =>
      destruct (forEach_cells R
                  (fun p : Z * Q =>
                     flat_map (fun iz => [(ix, fst p, iz)])
                              (range (Z.of_nat (List.length splitsZ))))
                  body ll Rnil Rapp)
        with (s := (s, 0)) (t := t0) as (r & t' & E & HR)
    end.
    + intros [iy h] _ [s1 offsetY] t1.
      rewrite <- (flat_map_enumerate _ splitsZ).
      match goal with |- context [forEach ?ll ?body (s1, 0)] =>
        destruct (forEach_cells R (fun p : Z * Q => [(ix, iy, fst p)])
                    body ll Rnil Rapp)
          with (s := (s1, 0)) (t := t1) as (r & t' & E & HR)
      end.
      * intros [iz d] _ [s2 offsetZ] t2.
        destruct (manualCell_run B baseBrush min baseName ix w offsetX iy h
                    offsetY iz d s2 offsetZ t2) as (s' & t' & E & HR).
        exists s', t'. split; [exact E | exact HR].
      * rewrite (bind_ok _ _ _ _ _ E). eexists _, _.
        split; [reflexivity | exact HR].
    + rewrite (bind_ok _ _ _ _ _ E). eexists _, _.
      split; [reflexivity | exact HR].
  - rewrite (bind_ok _ _ _ _ _ E). eexists _, _.
    split; [reflexivity | exact HR].
Qed.

(** *** The cells of a grid *)

Lemma gridCells_In (stepsX stepsY stepsZ ix iy iz : Z) :
  In (ix, iy, iz) (gridCells stepsX stepsY stepsZ)
  <-> (0 <= ix < stepsX)%Z /\ (0 <= iy < stepsY)%Z /\ (0 <= iz < stepsZ)%Z.
Proof.
  unfold gridCells. rewrite in_flat_map. split.
  - intros (x & Hx & H). apply in_flat_map in H. destruct H as (y & Hy & H).
    apply in_flat_map in H. destruct H as (z & Hz & [E|[]]).
    inversion E; subst. apply range_bounds in Hx, Hy, Hz. tauto.
  - intros (Hx & Hy & Hz). exists ix. split; [now apply range_bounds|].
    apply in_flat_map. exists iy. split; [now apply range_bounds|].
    apply in_flat_map. exists iz. split; [now apply range_bounds | now left].
Qed.

Lemma range_NoDup (n : Z) : NoDup (range n).
Proof.
  unfold range. generalize (seq_NoDup (Z.to_nat n) 0).
  induction 1 as [|a l Hnotin _ IH]; simpl; constructor; [|exact IH].
  intros Hin. apply in_map_iff in Hin. destruct Hin as (b & E & Hb).
  apply Nat2Z.inj in E. now subst.
Qed.

Lemma NoDup_flat_map {A C} (f : A -> list C) (l : list A) :
  NoDup l -> (forall a, NoDup (f a)) ->
  (forall a b x, In x (f a) -> In x (f b) -> a = b) ->
  NoDup (flat_map f l).
Proof.
  intros Hl Hf Hdisj. induction Hl as [|a l Hnotin Hl IH]; simpl.
  - constructor.
  - apply NoDup_app; [apply Hf | exact IH|].
    intros x Hx Hin. apply in_flat_map in Hin. destruct Hin as (b & Hb & Hxb).
    apply Hnotin. now rewrite (Hdisj a b x Hx Hxb).
Qed.

Lemma gridCells_NoDup (stepsX stepsY stepsZ : Z) :
  NoDup (gridCells stepsX stepsY stepsZ).
Proof.
  unfold gridCells.
  apply NoDup_flat_map; [apply range_NoDup | |].
  - intros ix. apply NoDup_flat_map; [apply range_NoDup | |].
    + intros iy. apply NoDup_flat_map; [apply range_NoDup | |].
      * intros iz. repeat constructor. intros [].
      * intros a b x [<-|[]] [E|[]]. now inversion E.
    + intros a b x Ha Hb.
      apply in_flat_map in Ha, Hb.
      destruct Ha as (z1 & _ & [<-|[]]), Hb as (z2 & _ & [E|[]]).
      now inversion E.
  - intros a b x Ha Hb.
    apply in_flat_map in Ha, Hb.
    destruct Ha as (y1 & _ & Ha), Hb as (y2 & _ & Hb).
    apply in_flat_map in Ha, Hb.
    destruct Ha as (z1 & _ & [<-|[]]), Hb as (z2 & _ & [E|[]]).
    now inversion E.
Qed.

Lemma gridCells_length (stepsX stepsY stepsZ : Z) :
  List.length (gridCells stepsX stepsY stepsZ)
  = (Z.to_nat stepsX * (Z.to_nat stepsY * Z.to_nat stepsZ))%nat.
Proof.
  unfold gridCells.
  assert (E : forall {A C} (f : A -> list C) (l : list A) (k : nat),
             (forall a, List.length (f a) = k) ->
             List.length (flat_map f l) = (List.length l * k)%nat).
  { intros A C f l k Hk. induction l as [|a l IH]; simpl; [reflexivity|].
    now rewrite length_app, Hk, IH. }
  rewrite (E _ _ _ _ (Z.to_nat stepsY * Z.to_nat stepsZ)%nat), range_length;
    [reflexivity|].
  intros ix. rewrite (E _ _ _ _ (Z.to_nat stepsZ)), range_length; [reflexivity|].
  intros iy. rewrite (E _ _ _ _ 1%nat), range_length; [lia | reflexivity].
Qed.

(** *** A whole run *)

Lemma hollowStep_ok (B : Backend) (baseBrush : Brush) (bounds : Box3)
    (hollow : HollowConfig) (t : list Event) :
  exists b t',
    (if h_enabled hollow
     then emit (EvProgress "Hollowing Model...") ;;;
          emit EvYield ;;;
          applyHollowing B baseBrush bounds hollow
     else ret baseBrush) t = (Ok b, t')
    /\ progressOf t'
       = progressOf t
         ++ (if h_enabled hollow then ["Hollowing Model..."%string] else []).
Proof.
  destruct (h_enabled hollow).
  - rewrite !bind_emit.
    destruct (applyHollowing_total B baseBrush bounds hollow
                ((t ++ [EvProgress "Hollowing Model..."]) ++ [EvYield]))
      as (b & t' & E).
    exists b, t'. split; [exact E|].
    rewrite (quiet_progress _ _ _ _ (quiet_applyHollowing _ _ _ _) E).
    rewrite !progressOf_app. simpl. now rewrite app_nil_r.
  - exists baseBrush, t. split; [reflexivity | now rewrite app_nil_r].
Qed.

Lemma quiet_createBrush (B : Backend) (geo : Geometry) :
  emitsOnly notProgress (createBrush B geo).
Proof. emits_auto. Qed.

(** A grid run that returns: it was within the limit, and its parts and
    progress messages are those of the loops over all cells. *)
Lemma performGridSlice_ok (B : Backend) (geometry : Geometry) (bounds : Box3)
    (config : SlicingConfig) (connectors : ConnectorConfig)
    (hollow : HollowConfig) (labels : LabelConfig) (baseName : string)
    (ps : list ModelPart) (t : list Event) :
  let stepsX := gridSteps (vx (getSize bounds)) (printerX config) in
  let stepsY := gridSteps (vy (getSize bounds)) (printerY config) in
  let stepsZ := gridSteps (vz (getSize bounds)) (printerZ config) in
  let total := (stepsX * stepsY * stepsZ)%Z in
  run (performGridSlice B geometry bounds config connectors hollow labels
                        baseName) = (Ok ps, t) ->
  (total <= 500)%Z
  /\ exists t0,
       progressOf t0
       = (if h_enabled hollow then ["Hollowing Model..."%string] else [])
       /\ loopRun (gridNameOf baseName) (gridMessage total)
                  (gridCells stepsX stepsY stepsZ)
                  ({| current := 0; parts := [] |}, t0)
                  ({| current := Z.of_nat (List.length
                                             (gridCells stepsX stepsY stepsZ));
                      parts := ps |}, t).
Proof.
  intros stepsX stepsY stepsZ total. unfold run, performGridSlice. cbv zeta.
  fold stepsX stepsY stepsZ. fold total. unfold partCountLimit.
  destruct (Z.gtb_spec total 500) as [Hgt|Hle]; [discriminate|].
  intros H. split; [exact Hle|].
  destruct (createBrush_total B geometry []) as (ob & t1 & E1).
  rewrite (bind_ok _ _ _ _ _ E1) in H. destruct ob as [baseBrush|];
    [|discriminate].
  destruct (hollowStep_ok B baseBrush bounds hollow t1) as (b & t2 & E2 & Hp2).
  rewrite (bind_ok _ _ _ _ _ E2) in H.
  destruct (gridLoops_run B b (getSize bounds) (bmin bounds) stepsX stepsY
              stepsZ total config connectors labels baseName
              {| current := 0; parts := [] |} t2) as (st' & t3 & E3 & HR).
  rewrite (bind_ok _ _ _ _ _ E3) in H. inversion H; subst.
  exists t2. split.
  - rewrite Hp2, (quiet_progress _ _ _ _ (quiet_createBrush B geometry) E1).
    reflexivity.
  - destruct HR as (Hc & Hparts & Hmsg). split; [|split]; simpl in *.
    + lia.
    + exact Hparts.
    + exact Hmsg.
Qed.

Lemma gridSteps_pos (size envelope : Q) : (1 <= gridSteps size envelope)%Z.
Proof. unfold gridSteps. lia. Qed.

(** X10. With positive envelope sizes, the parts a grid run returns follow
    the cells: their indices are
    cells of the grid, in the order the loops visit them and without
    repetition, each part is named after its index, and there are at most as
    many parts as cells, so at most 500. *)
Theorem grid_parts_follow_cells (B : Backend) (geometry : Geometry)
    (bounds : Box3) (config : SlicingConfig) (connectors : ConnectorConfig)
    (hollow : HollowConfig) (labels : LabelConfig) (baseName : string)
    (ps : list ModelPart) (t : list Event) :
  let stepsX := gridSteps (vx (getSize bounds)) (printerX config) in
  let stepsY := gridSteps (vy (getSize bounds)) (printerY config) in
  let stepsZ := gridSteps (vz (getSize bounds)) (printerZ config) in
  0 < printerX config -> 0 < printerY config -> 0 < printerZ config ->
  run (performGridSlice B geometry bounds config connectors hollow labels
                        baseName) = (Ok ps, t) ->
  Subseq (map index ps) (gridCells stepsX stepsY stepsZ)
  /\ NoDup (map index ps)
  /\ (forall p, In p ps ->
        exists ix iy iz,
          index p = (ix, iy, iz)
          /\ (0 <= ix < stepsX)%Z /\ (0 <= iy < stepsY)%Z /\ (0 <= iz < stepsZ)%Z
          /\ name p = gridPartName baseName ix iy iz)
  /\ (Z.of_nat (List.length ps) <= stepsX * stepsY * stepsZ <= 500)%Z.
Proof.
  intros stepsX stepsY stepsZ _ _ _ Hrun.
  destruct (performGridSlice_ok B geometry bounds config connectors hollow
              labels baseName ps t Hrun)
    as (Htotal & t0 & _ & _ & (added & Hps & Hsub & Hnames) & _).
  fold stepsX stepsY stepsZ in Htotal, Hsub.
  simpl in Hps. subst added.
  split; [exact Hsub|]. split; [|split].
  - eapply Subseq_NoDup; [exact Hsub | apply gridCells_NoDup].
  - intros p Hp. destruct (index p) as [[ix iy] iz] eqn:Ei.
    exists ix, iy, iz. split; [reflexivity|].
    assert (Hin : In (ix, iy, iz) (gridCells stepsX stepsY stepsZ)).
    { apply (Subseq_In _ _ _ Hsub). rewrite <- Ei. now apply in_map. }
    apply gridCells_In in Hin. destruct Hin as (Hx & Hy & Hz).
    repeat split; try lia.
    rewrite Forall_forall in Hnames. rewrite (Hnames p Hp), Ei. reflexivity.
  - split; [|exact Htotal].
    apply Subseq_length in Hsub. rewrite length_map, gridCells_length in Hsub.
    pose proof (gridSteps_pos (vx (getSize bounds)) (printerX config)).
    pose proof (gridSteps_pos (vy (getSize bounds)) (printerY config)).
    pose proof (gridSteps_pos (vz (getSize bounds)) (printerZ config)).
    subst stepsX stepsY stepsZ. nia.
Qed.

Lemma grid_parts_follow_cells_witness :
  exists ps t,
    run (performGridSlice flakyBackend (GMesh 0) demoBounds defaultSlicing
           defaultConnectors defaultHollow defaultLabels "demo") = (Ok ps, t)
    /\ NoDup (map index ps).
Proof.
  destruct (run (performGridSlice flakyBackend (GMesh 0) demoBounds
                   defaultSlicing defaultConnectors defaultHollow defaultLabels
                   "demo")) as [[ps|e] t] eqn:E.
  - exists ps, t. split; [reflexivity|].
    exact (proj1 (proj2 (grid_parts_follow_cells flakyBackend (GMesh 0)
                           demoBounds defaultSlicing defaultConnectors
                           defaultHollow defaultLabels "demo" ps t
                           eq_refl eq_refl eq_refl E))).
  - vm_compute in E. discriminate E.
Defined.

(** X11. A grid run with positive envelope sizes that returns has sent one
    progress message per cell,
    [Slicing Fragment k/total...] for [k = 1 .. total] in this order, whether
    the cell was skipped, failed or gave a part, preceded by
    [Hollowing Model...] when hollowing is on; these are all its messages. *)
Theorem grid_progress_messages (B : Backend) (geometry : Geometry)
    (bounds : Box3) (config : SlicingConfig) (connectors : ConnectorConfig)
    (hollow : HollowConfig) (labels : LabelConfig) (baseName : string)
    (ps : list ModelPart) (t : list Event) :
  let total :=
    (gridSteps (vx (getSize bounds)) (printerX config)
     * gridSteps (vy (getSize bounds)) (printerY config)
     * gridSteps (vz (getSize bounds)) (printerZ config))%Z in
  0 < printerX config -> 0 < printerY config -> 0 < printerZ config ->
  run (performGridSlice B geometry bounds config connectors hollow labels
                        baseName) = (Ok ps, t) ->
  progressOf t
  = (if h_enabled hollow then ["Hollowing Model..."%string] else [])
    ++ map (fun k => ("Slicing Fragment " ++ numToString (Z.of_nat k) ++ "/"
                        ++ numToString total ++ "...")%string)
           (seq 1 (Z.to_nat total)).
Proof.
  intros total _ _ _ Hrun.
  destruct (performGridSlice_ok B geometry bounds config connectors hollow
              labels baseName ps t Hrun)
    as (_ & t0 & Hp0 & _ & _ & Hmsg).
  simpl in Hmsg. rewrite Hmsg, Hp0. f_equal.
  rewrite gridCells_length.
  pose proof (gridSteps_pos (vx (getSize bounds)) (printerX config)).
  pose proof (gridSteps_pos (vy (getSize bounds)) (printerY config)).
  pose proof (gridSteps_pos (vz (getSize bounds)) (printerZ config)).
  replace (Z.to_nat total)
    with (Z.to_nat (gridSteps (vx (getSize bounds)) (printerX config))
          * (Z.to_nat (gridSteps (vy (getSize bounds)) (printerY config))
             * Z.to_nat (gridSteps (vz (getSize bounds)) (printerZ config))))%nat
    by (unfold total; nia).
  reflexivity.
Qed.

Lemma grid_progress_messages_witness :
  exists ps t,
    run (performGridSlice flakyBackend (GMesh 0) demoBounds defaultSlicing
           defaultConnectors defaultHollow defaultLabels "demo") = (Ok ps, t)
    /\ List.length (progressOf t) = 8%nat.
Proof.
  destruct (run (performGridSlice flakyBackend (GMesh 0) demoBounds
                   defaultSlicing defaultConnectors defaultHollow defaultLabels
                   "demo")) as [[ps|e] t] eqn:E.
  - exists ps, t. split; [reflexivity|].
    rewrite (grid_progress_messages flakyBackend (GMesh 0) demoBounds
               defaultSlicing defaultConnectors defaultHollow defaultLabels
               "demo" ps t eq_refl eq_refl eq_refl E).
    reflexivity.
  - vm_compute in E. discriminate E.
Defined.

Lemma manualSplits_length (show : bool) (offset size : Q) :
  Z.of_nat (List.length (manualSplits show offset size))
  = if show then 2%Z else 1%Z.
Proof. destruct show; reflexivity. Qed.

(** A manual run that returns: its parts and progress messages are those of
    the loops over the cells of the splits. *)
Lemma performManualSlice_ok (B : Backend) (geometry : Geometry) (bounds : Box3)
    (config : SlicingConfig) (connectors : ConnectorConfig)
    (hollow : HollowConfig) (labels : LabelConfig) (baseName : string)
    (ps : list ModelPart) (t : list Event) :
  let cells :=
    gridCells (if showX config then 2 else 1) (if showY config then 2 else 1)
              (if showZ config then 2 else 1) in
  run (performManualSlice B geometry bounds config connectors hollow labels
                          baseName) = (Ok ps, t) ->
  exists t0,
    progressOf t0
    = (if h_enabled hollow then ["Hollowing Model..."%string] else [])
    /\ loopRun (manualNameOf baseName) manualMessage cells
               ({| current := 0; parts := [] |}, t0)
               ({| current := Z.of_nat (List.length cells); parts := ps |}, t).
Proof.
  intros cells. unfold run, performManualSlice. cbv zeta. intros H.
  destruct (createBrush_total B geometry []) as (ob & t1 & E1).
  rewrite (bind_ok _ _ _ _ _ E1) in H. destruct ob as [baseBrush|];
    [|discriminate].
  destruct (hollowStep_ok B baseBrush bounds hollow t1) as (b & t2 & E2 & Hp2).
  rewrite (bind_ok _ _ _ _ _ E2) in H.
  match type of H with context [manualLoops B b ?mn ?bn ?sx ?sy ?sz ?s0] =>
    destruct (manualLoops_run B b mn bn sx sy sz s0 t2) as (st' & t3 & E3 & HR)
  end.
  rewrite (bind_ok _ _ _ _ _ E3) in H. inversion H; subst.
  rewrite !manualSplits_length in HR. fold cells in HR.
  exists t2. split.
  - rewrite Hp2, (quiet_progress _ _ _ _ (quiet_createBrush B geometry) E1).
    reflexivity.
  - destruct HR as (Hc & Hparts & Hmsg). split; [|split]; simpl in *.
    + lia.
    + exact Hparts.
    + exact Hmsg.
Qed.

(** X12. The parts a manual run returns have distinct indices, each 0 or 1
    on an enabled axis and 0 on a disabled one, in the order the loops visit
    the cells; each part is named [base_Mi-j-k.stl] after its index, and
    there are at most 8 parts (2 per enabled axis). *)
Theorem manual_parts_follow_splits (B : Backend) (geometry : Geometry)
    (bounds : Box3) (config : SlicingConfig) (connectors : ConnectorConfig)
    (hollow : HollowConfig) (labels : LabelConfig) (baseName : string)
    (ps : list ModelPart) (t : list Event) :
  let count (show : bool) := if show then 2%Z else 1%Z in
  run (performManualSlice B geometry bounds config connectors hollow labels
                          baseName) = (Ok ps, t) ->
  Subseq (map index ps)
         (gridCells (count (showX config)) (count (showY config))
                    (count (showZ config)))
  /\ NoDup (map index ps)
  /\ (forall p, In p ps ->
        exists ix iy iz,
          index p = (ix, iy, iz)
          /\ (0 <= ix < count (showX config))%Z
          /\ (0 <= iy < count (showY config))%Z
          /\ (0 <= iz < count (showZ config))%Z
          /\ name p = manualPartName baseName ix iy iz)
  /\ (Z.of_nat (List.length ps)
      <= count (showX config) * count (showY config) * count (showZ config)
      <= 8)%Z.
Proof.
  intros count Hrun.
  destruct (performManualSlice_ok B geometry bounds config connectors hollow
              labels baseName ps t Hrun)
    as (t0 & _ & _ & (added & Hps & Hsub & Hnames) & _).
  simpl in Hps. subst added. fold (count (showX config)) in Hsub.
  fold (count (showY config)) in Hsub. fold (count (showZ config)) in Hsub.
  split; [exact Hsub|]. split; [|split].
  - eapply Subseq_NoDup; [exact Hsub | apply gridCells_NoDup].
  - intros p Hp. destruct (index p) as [[ix iy] iz] eqn:Ei.
    exists ix, iy, iz. split; [reflexivity|].
    assert (Hin : In (ix, iy, iz)
                     (gridCells (count (showX config)) (count (showY config))
                                (count (showZ config)))).
    { apply (Subseq_In _ _ _ Hsub). rewrite <- Ei. now apply in_map. }
    apply gridCells_In in Hin. destruct Hin as (Hx & Hy & Hz).
    repeat split; try lia.
    rewrite Forall_forall in Hnames. rewrite (Hnames p Hp), Ei. reflexivity.
  - apply Subseq_length in Hsub. rewrite length_map, gridCells_length in Hsub.
    unfold count in *.
    destruct (showX config), (showY config), (showZ config); simpl in *; lia.
Qed.

Lemma manual_parts_follow_splits_witness :
  exists ps t,
    run (performManualSlice flakyBackend (GMesh 0) demoBounds manualSplitX
           defaultConnectors defaultHollow defaultLabels "demo") = (Ok ps, t)
    /\ NoDup (map index ps).
Proof.
  destruct (run (performManualSlice flakyBackend (GMesh 0) demoBounds
                   manualSplitX defaultConnectors defaultHollow defaultLabels
                   "demo")) as [[ps|e] t] eqn:E.
  - exists ps, t. split; [reflexivity|].
    exact (proj1 (proj2 (manual_parts_follow_splits flakyBackend (GMesh 0)
                           demoBounds manualSplitX defaultConnectors
                           defaultHollow defaultLabels "demo" ps t E))).
  - vm_compute in E. discriminate E.
Defined.

(** X13. A manual run that returns has sent one progress message per cell,
    [Cutting Fragment k...] for [k = 1 .. n] in this order with [n] the
    product of the split counts (2 on an enabled axis, 1 on a disabled one),
    preceded by [Hollowing Model...] when hollowing is on; these are all its
    messages. *)
Theorem manual_progress_messages (B : Backend) (geometry : Geometry)
    (bounds : Box3) (config : SlicingConfig) (connectors : ConnectorConfig)
    (hollow : HollowConfig) (labels : LabelConfig) (baseName : string)
    (ps : list ModelPart) (t : list Event) :
  let count (show : bool) := if show then 2%nat else 1%nat in
  run (performManualSlice B geometry bounds config connectors hollow labels
                          baseName) = (Ok ps, t) ->
  progressOf t
  = (if h_enabled hollow then ["Hollowing Model..."%string] else [])
    ++ map (fun k => ("Cutting Fragment " ++ numToString (Z.of_nat k)
                        ++ "...")%string)
           (seq 1 (count (showX config) * count (showY config)
                   * count (showZ config))).
Proof.
  intros count Hrun.
  destruct (performManualSlice_ok B geometry bounds config connectors hollow
              labels baseName ps t Hrun)
    as (t0 & Hp0 & _ & _ & Hmsg).
  simpl in Hmsg. rewrite Hmsg, Hp0. f_equal.
  rewrite gridCells_length.
  replace (Z.to_nat (if showX config then 2 else 1)
           * (Z.to_nat (if showY config then 2 else 1)
              * Z.to_nat (if showZ config then 2 else 1)))%nat
    with (count (showX config) * count (showY config) * count (showZ config))%nat
    by (unfold count; destruct (showX config), (showY config), (showZ config);
        reflexivity).
  reflexivity.
Qed.

Lemma manual_progress_messages_witness :
  exists ps t,
    run (performManualSlice flakyBackend (GMesh 0) demoBounds manualSplitX
           defaultConnectors defaultHollow defaultLabels "demo") = (Ok ps, t)
    /\ progressOf t
       = ["Cutting Fragment 1..."%string; "Cutting Fragment 2..."%string].
Proof.
  destruct (run (performManualSlice flakyBackend (GMesh 0) demoBounds
                   manualSplitX defaultConnectors defaultHollow defaultLabels
                   "demo")) as [[ps|e] t] eqn:E.
  - exists ps, t. split; [reflexivity|].
    rewrite (manual_progress_messages flakyBackend (GMesh 0) demoBounds
               manualSplitX defaultConnectors defaultHollow defaultLabels
               "demo" ps t E).
    reflexivity.
  - vm_compute in E. discriminate E.
Defined.

(** ** Which operations a run performs *)

Lemma emitsOnly_applyHollowing (P : Event -> Prop) (B : Backend)
    (baseBrush : Brush) (bounds : Box3) (config : HollowConfig) :
  (forall g, P (EvNormalize g)) -> (forall s, P (EvConsoleError s)) ->
  (forall a b, P (EvEvaluate a b SUBTRACTION)) ->
  emitsOnly P (applyHollowing B baseBrush bounds config).
Proof. intros HN HC HS. unfold applyHollowing. emits_auto. Qed.

Lemma emitsOnly_applyLabel (P : Event -> Prop) (B : Backend) (geo : Geometry)
    (ix iy iz : Z) (config : LabelConfig) :
  (forall g, P (EvNormalize g)) -> (forall s, P (EvConsoleError s)) ->
  (forall a b, P (EvEvaluate a b ADDITION)) ->
  emitsOnly P (applyLabel B geo ix iy iz config).
Proof. intros HN HC HA. unfold applyLabel. emits_auto. Qed.

Lemma emitsOnly_applyConnectors (P : Event -> Prop) (B : Backend)
    (geo : Geometry) (ix iy iz stepsX stepsY stepsZ : Z)
    (config : SlicingConfig) (connectors : ConnectorConfig)
    (boundsMin : Vector3) :
  (forall g, P (EvNormalize g)) -> (forall s, P (EvConsoleError s)) ->
  (forall a b, P (EvEvaluate a b ADDITION)) ->
  (forall a b, P (EvEvaluate a b SUBTRACTION)) ->
  emitsOnly P (applyConnectors B geo ix iy iz stepsX stepsY stepsZ config
                               connectors boundsMin).
Proof.
  intros HN HC HA HS.
  assert (Hface : forall box size center a isPeg st,
             emitsOnly P (addFeatures B connectors box size center a isPeg st)).
  { intros. eapply emitsOnly_weaken; [|apply addFeatures_emits].
    intros [] H; simpl in H; try contradiction; auto.
    subst. destruct isPeg; simpl; auto. }
  unfold applyConnectors.
  apply emitsOnly_bind; [emits_auto|]. intros [rb|]; [|emits_auto]. cbv zeta.
  repeat (apply emitsOnly_bind;
          [unfold when;
           match goal with |- emitsOnly _ (if ?c then _ else _) =>
             destruct c; [apply Hface | apply emitsOnly_ret] end
          | intros ?]).
  apply emitsOnly_ret.
Qed.

#[local] Hint Extern 1 (emitsOnly _ (applyHollowing _ _ _ _)) =>
  apply emitsOnly_applyHollowing; intros; simpl; solve [auto] : emits.
#[local] Hint Extern 1 (emitsOnly _ (applyLabel _ _ _ _ _ _)) =>
  apply emitsOnly_applyLabel; intros; simpl; solve [auto] : emits.
#[local] Hint Extern 1 (emitsOnly _ (applyConnectors _ _ _ _ _ _ _ _ _ _ _)) =>
  apply emitsOnly_applyConnectors; intros; simpl; solve [auto] : emits.

(** X14. A grid run asks the evaluator for intersections, for subtractions
    only when hollowing or connectors are on, and for additions only when
    connectors or labels are on. *)
Theorem grid_operations_follow_settings (B : Backend) (geometry : Geometry)
    (bounds : Box3) (config : SlicingConfig) (connectors : ConnectorConfig)
    (hollow : HollowConfig) (labels : LabelConfig) (baseName : string) :
  emitsOnly (allowedEvent (h_enabled hollow) (c_enabled connectors)
                          (l_enabled labels))
            (performGridSlice B geometry bounds config connectors hollow labels
                              baseName).
Proof.
  unfold performGridSlice. cbv zeta.
  destruct (_ >? partCountLimit)%Z; [apply emitsOnly_throw|].
  apply emitsOnly_bind; [emits_auto|]. intros [baseBrush|]; [|emits_auto].
  apply emitsOnly_bind; [emits_auto|]. intros b.
  apply emitsOnly_bind; [|intros; apply emitsOnly_ret].
  unfold gridLoops.
  apply emitsOnly_forEach. intros ix s0.
  apply emitsOnly_forEach. intros iy s1.
  apply emitsOnly_forEach. intros iz s2.
  unfold gridCell, gridCellTry. emits_auto.
Qed.

(** X15. A manual run never asks the evaluator for an addition, whatever the
    connector and label settings: no pegs and no label plates.  It asks for
    intersections, and for subtractions only when hollowing is on, so with
    hollowing off no sockets either. *)
Theorem manual_operations_follow_settings (B : Backend) (geometry : Geometry)
    (bounds : Box3) (config : SlicingConfig) (connectors : ConnectorConfig)
    (hollow : HollowConfig) (labels : LabelConfig) (baseName : string) :
  emitsOnly (allowedEvent (h_enabled hollow) false false)
            (performManualSlice B geometry bounds config connectors hollow
                                labels baseName).
Proof.
  unfold performManualSlice. cbv zeta.
  apply emitsOnly_bind; [emits_auto|]. intros [baseBrush|]; [|emits_auto].
  apply emitsOnly_bind; [emits_auto|]. intros b.
  apply emitsOnly_bind; [|intros; apply emitsOnly_ret].
  unfold manualLoops.
  apply emitsOnly_bind; [|intros; apply emitsOnly_ret].
  apply emitsOnly_forEach. intros [ix w] [s0 offsetX].
  apply emitsOnly_bind; [|intros; apply emitsOnly_ret].
  apply emitsOnly_forEach. intros [iy h] [s1 offsetY].
  apply emitsOnly_bind; [|intros; apply emitsOnly_ret].
  apply emitsOnly_forEach. intros [iz d] [s2 offsetZ].
  unfold manualCell, manualCellTry. emits_auto.
Qed.

(** ** Degenerate cells *)

Lemma Qltb_lt (a b : Q) : Qltb a b = true <-> a < b.
Proof. apply (Qgtb_lt b a). Qed.

Lemma degenerate_iff (w h d : Q) :
  degenerate w h d = true <-> w < 0.1 \/ h < 0.1 \/ d < 0.1.
Proof.
  unfold degenerate. rewrite !orb_true_iff, !Qltb_lt. tauto.
Qed.

(** A degenerate cell is counted and announced, and nothing else. *)
Lemma gridCell_degenerate (B : Backend) (baseBrush : Brush) (size min : Vector3)
    (stepsX stepsY stepsZ total : Z) (config : SlicingConfig)
    (connectors : ConnectorConfig) (labels : LabelConfig) (baseName : string)
    (ix iy iz : Z) (st : LoopState) (t : list Event) :
  liveCell size config stepsX stepsY stepsZ (ix, iy, iz) = false ->
  gridCell B baseBrush size min stepsX stepsY stepsZ total config connectors
           labels baseName ix iy iz st t
  = (Ok {| current := current st + 1; parts := parts st |},
     (t ++ [EvProgress (gridMessage total (current st + 1))]) ++ [EvYield]).
Proof.
  unfold liveCell. rewrite negb_false_iff. intros Hdeg.
  unfold gridCell. cbv zeta. rewrite !bind_emit. now rewrite Hdeg.
Qed.

(** On an axis thinner than 0.1 every cell is thinner than 0.1. *)
Lemma thin_axis_cells (size envelope : Q) (i : Z) :
  0 < envelope -> size < 0.1 ->
  (0 <= i < gridSteps size envelope)%Z ->
  gridCellSize size envelope (gridSteps size envelope) i < 0.1.
Proof.
  intros He Hs Hi. unfold gridCellSize.
  destruct (Z.eqb_spec i (gridSteps size envelope - 1)) as [E|Hne].
  - assert (H0 : 0 <= inject_Z i * envelope).
    { apply Qmult_le_0_compat; [|now apply Qlt_le_weak].
      change 0 with (inject_Z 0). rewrite <- Zle_Qle. lia. }
    set (p := inject_Z i * envelope) in *. lra.
  - assert (H2 : (2 <= gridSteps size envelope)%Z) by lia.
    unfold gridSteps in H2.
    assert (Hc : (2 <= Qceiling (size / envelope))%Z) by lia.
    pose proof (Qceiling_lt (size / envelope)) as Hlt.
    assert (H1 : 1 < size / envelope).
    { eapply Qle_lt_trans; [|exact Hlt].
      change 1 with (inject_Z 1). rewrite <- Zle_Qle. lia. }
    apply (Qmult_lt_compat_r _ _ envelope He) in H1.
    assert (Hdiv : size / envelope * envelope == size).
    { field. intros E. rewrite E in He. discriminate. }
    rewrite Hdiv in H1. lra.
Qed.

(** X16. No part comes from a degenerate cell: every part of a grid run has
    a cell at least 0.1 in each dimension.  So a model thinner than 0.1 along
    an axis gives no part at all; the run returns an empty list without any
    error. *)
Theorem degenerate_cells_give_no_part (B : Backend) (geometry : Geometry)
    (bounds : Box3) (config : SlicingConfig) (connectors : ConnectorConfig)
    (hollow : HollowConfig) (labels : LabelConfig) (baseName : string)
    (ps : list ModelPart) (t : list Event) :
  let size := getSize bounds in
  let stepsX := gridSteps (vx size) (printerX config) in
  let stepsY := gridSteps (vy size) (printerY config) in
  let stepsZ := gridSteps (vz size) (printerZ config) in
  run (performGridSlice B geometry bounds config connectors hollow labels
                        baseName) = (Ok ps, t) ->
  (forall p ix iy iz,
     In p ps -> index p = (ix, iy, iz) ->
     ~ gridCellSize (vx size) (printerX config) stepsX ix < 0.1
     /\ ~ gridCellSize (vy size) (printerY config) stepsY iy < 0.1
     /\ ~ gridCellSize (vz size) (printerZ config) stepsZ iz < 0.1)
  /\ ((0 < printerX config /\ vx size < 0.1)
      \/ (0 < printerY config /\ vy size < 0.1)
      \/ (0 < printerZ config /\ vz size < 0.1) ->
      ps = []).
Proof.
  intros size stepsX stepsY stepsZ Hrun.
  assert (Hlive : Forall (fun p => liveCell size config stepsX stepsY stepsZ
                                            (index p) = true) ps).
  { revert Hrun. unfold run, performGridSlice. cbv zeta.
    fold size. fold stepsX stepsY stepsZ.
    destruct (_ >? partCountLimit)%Z; [discriminate|]. intros H.
    destruct (createBrush_total B geometry []) as (ob & t1 & E1).
    rewrite (bind_ok _ _ _ _ _ E1) in H.
    destruct ob as [baseBrush|]; [|discriminate].
    destruct (hollowStep_ok B baseBrush bounds hollow t1) as (b & t2 & E2 & _).
    rewrite (bind_ok _ _ _ _ _ E2) in H.
    pose (R := fun (_ : list unit) (x y : LoopState * list Event) =>
                 exists added,
                   parts (fst y) = parts (fst x) ++ added
                   /\ Forall (fun p => liveCell size config stepsX stepsY stepsZ
                                                (index p) = true) added).
    assert (Rnil : forall x, R [] x x).
    { intros x. exists []. split; [now rewrite app_nil_r | constructor]. }
    assert (Rapp : forall l1 l2 x y z, R l1 x y -> R l2 y z -> R (l1 ++ l2) x z).
    { intros l1 l2 x y z (a1 & H1 & F1) (a2 & H2 & F2). exists (a1 ++ a2).
      split; [now rewrite H2, H1, app_assoc | apply Forall_app; now split]. }
    assert (Hloops : exists st' t3,
               gridLoops B b size (bmin bounds) stepsX stepsY stepsZ
                         (stepsX * stepsY * stepsZ) config connectors labels
                         baseName {| current := 0; parts := [] |} t2
               = (Ok st', t3)
               /\ R [] ({| current := 0; parts := [] |}, t2) (st', t3)).
    { unfold gridLoops.
      match goal with |- context [forEach ?lx ?body ?s0 t2] =>
        destruct (forEach_cells R (fun _ => []) body lx Rnil Rapp)
          with (s := s0) (t := t2) as (st' & t3 & E & HR)
      end.
      - intros ix _ s t0.
        match goal with |- context [forEach ?ly ?body s t0] =>
          destruct (forEach_cells R (fun _ => []) body ly Rnil Rapp)
            with (s := s) (t := t0) as (s' & t' & E & HR)
        end.
        + intros iy _ s1 t1'.
          match goal with |- context [forEach ?lz ?body s1 t1'] =>
            destruct (forEach_cells R (fun _ => []) body lz Rnil Rapp)
              with (s := s1) (t := t1') as (s' & t' & E & HR)
          end.
          * intros iz _ s2 t2'.
            destruct (liveCell size config stepsX stepsY stepsZ (ix, iy, iz))
              eqn:El.
            -- destruct (gridCell_total B b size (bmin bounds) stepsX stepsY
                           stepsZ (stepsX * stepsY * stepsZ) config connectors
                           labels baseName ix iy iz s2 t2')
                 as (s' & t' & E & Hshape).
               exists s', t'. split; [exact E|].
               destruct Hshape as [-> | [g ->]]; simpl.
               ++ exists []. split; [now rewrite app_nil_r | constructor].
               ++ eexists. split; [reflexivity|]. repeat constructor. exact El.
            -- rewrite (gridCell_degenerate _ _ _ _ _ _ _ _ _ _ _ _ _ _ _ _ _ El).
               eexists _, _. split; [reflexivity|]. exists [].
               split; [simpl; now rewrite app_nil_r | constructor].
          * exists s', t'. split; [exact E | exact HR].
        + exists s', t'. split; [exact E | exact HR].
      - exists st', t3. split; [exact E | exact HR]. }
    destruct Hloops as (st' & t3 & E3 & (added & Hadded & Hall)).
    rewrite (bind_ok _ _ _ _ _ E3) in H. inversion H; subst.
    simpl in Hadded. now rewrite Hadded. }
  destruct (performGridSlice_ok B geometry bounds config connectors hollow
              labels baseName ps t Hrun)
    as (_ & t0 & _ & _ & (added & Hps & Hsub & _) & _).
  simpl in Hps. subst added. fold size in Hsub. fold stepsX stepsY stepsZ in Hsub.
  rewrite Forall_forall in Hlive.
  assert (Hcell : forall p ix iy iz,
             In p ps -> index p = (ix, iy, iz) ->
             degenerate (gridCellSize (vx size) (printerX config) stepsX ix)
                        (gridCellSize (vy size) (printerY config) stepsY iy)
                        (gridCellSize (vz size) (printerZ config) stepsZ iz)
             = false
             /\ (0 <= ix < stepsX)%Z /\ (0 <= iy < stepsY)%Z
             /\ (0 <= iz < stepsZ)%Z).
  { intros p ix iy iz Hp Ei. split.
    - specialize (Hlive p Hp). rewrite Ei in Hlive. unfold liveCell in Hlive.
      now apply negb_true_iff in Hlive.
    - apply gridCells_In. apply (Subseq_In _ _ _ Hsub). rewrite <- Ei.
      now apply in_map. }
  split.
  - intros p ix iy iz Hp Ei. destruct (Hcell p ix iy iz Hp Ei) as [Hdeg _].
    repeat split; intros Hlt;
      assert (Hd : degenerate
                     (gridCellSize (vx size) (printerX config) stepsX ix)
                     (gridCellSize (vy size) (printerY config) stepsY iy)
                     (gridCellSize (vz size) (printerZ config) stepsZ iz) = true)
        by (apply degenerate_iff; tauto);
      congruence.
  - intros Hthin. destruct ps as [|p ps']; [reflexivity|]. exfalso.
    destruct (index p) as [[ix iy] iz] eqn:Ei.
    destruct (Hcell p ix iy iz (or_introl eq_refl) Ei) as (Hdeg & Hx & Hy & Hz).
    assert (Hd : degenerate
                   (gridCellSize (vx size) (printerX config) stepsX ix)
                   (gridCellSize (vy size) (printerY config) stepsY iy)
                   (gridCellSize (vz size) (printerZ config) stepsZ iz) = true).
    { apply degenerate_iff.
      destruct Hthin as [[He Hs] | [[He Hs] | [He Hs]]].
      - left. now apply thin_axis_cells.
      - right. left. now apply thin_axis_cells.
      - right. right. now apply thin_axis_cells. }
    congruence.
Qed.

Lemma degenerate_cells_give_no_part_witness :
  fst (run (performGridSlice sampleBackend (GMesh 0) thinBounds defaultSlicing
              defaultConnectors defaultHollow defaultLabels "demo"))
  = Ok [].
Proof.
  destruct (run (performGridSlice sampleBackend (GMesh 0) thinBounds
                   defaultSlicing defaultConnectors defaultHollow defaultLabels
                   "demo")) as [[ps|e] t] eqn:E.
  - simpl. f_equal.
    apply (proj2 (degenerate_cells_give_no_part sampleBackend (GMesh 0)
                    thinBounds defaultSlicing defaultConnectors defaultHollow
                    defaultLabels "demo" ps t E)).
    left. split; reflexivity.
  - vm_compute in E. discriminate E.
Defined.

(** ** File names *)

Lemma append_inv_head (a s1 s2 : string) :
  (a ++ s1)%string = (a ++ s2)%string -> s1 = s2.
Proof. induction a as [|c a IH]; simpl; [auto|]. intros H. inversion H. auto. Qed.

(** Two strings split at their first [c] agree part by part. *)
Lemma split_at_char (c : ascii) (a1 a2 r1 r2 : string) :
  lacks c a1 -> lacks c a2 ->
  (a1 ++ String c r1)%string = (a2 ++ String c r2)%string ->
  a1 = a2 /\ r1 = r2.
Proof.
  revert a2. induction a1 as [|x a1 IH]; intros [|y a2]; simpl.
  - intros _ _ H. inversion H. auto.
  - intros _ [Hy _] H. inversion H. congruence.
  - intros [Hx _] _ H. inversion H. congruence.
  - intros [_ H1] [_ H2] H. injection H as -> H.
    destruct (IH a2 H1 H2 H) as [-> ->]. auto.
Qed.

Lemma uint_digits (c : ascii) (d : Decimal.uint) :
  isDigit c = false -> lacks c (NilEmpty.string_of_uint d).
Proof.
  intros Hc. induction d; simpl; try exact I;
    (split; [intros <-; discriminate Hc | exact IHd]).
Qed.

Lemma numToString_digits (c : ascii) (n : Z) :
  isDigit c = false -> (0 <= n)%Z -> lacks c (numToString n).
Proof.
  intros Hc Hn. unfold numToString. destruct n as [|p|p]; [| |lia].
  - simpl. split; [intros <-; discriminate Hc | exact I].
  - simpl. unfold NilZero.string_of_uint.
    pose proof (uint_digits c (Pos.to_uint p) Hc) as H.
    destruct (Pos.to_uint p); try exact H.
    simpl. split; [intros <-; discriminate Hc | exact I].
Qed.

Lemma numToString_inj (a b : Z) : numToString a = numToString b -> a = b.
Proof.
  unfold numToString. intros H. apply DecimalZ.to_int_inj.
  assert (Hnn : forall z, Z.to_int z <> Decimal.Pos Decimal.Nil
                          /\ Z.to_int z <> Decimal.Neg Decimal.Nil).
  { intros [|p|p]; simpl; split; try discriminate;
      intros E; injection E as E; revert E; apply DecimalPos.Unsigned.to_uint_nonnil. }
  assert (E : Some (Z.to_int a) = Some (Z.to_int b)).
  { rewrite <- (NilZero.isi (Z.to_int a)), <- (NilZero.isi (Z.to_int b));
      try apply Hnn. now rewrite H. }
  now inversion E.
Qed.

Lemma dash_not_digit : isDigit "-" = false.
Proof. reflexivity. Qed.

Lemma dot_not_digit : isDigit "." = false.
Proof. reflexivity. Qed.

(** Names built from an index determine the index. *)
Lemma indexed_name_inj (ix iy iz jx jy jz : Z) :
  (0 <= ix)%Z -> (0 <= iy)%Z -> (0 <= iz)%Z ->
  (0 <= jx)%Z -> (0 <= jy)%Z -> (0 <= jz)%Z ->
  (numToString ix ++ "-" ++ numToString iy ++ "-" ++ numToString iz ++ ".stl")%string
  = (numToString jx ++ "-" ++ numToString jy ++ "-" ++ numToString jz ++ ".stl")%string ->
  (ix, iy, iz) = (jx, jy, jz).
Proof.
  intros Hix Hiy Hiz Hjx Hjy Hjz H.
  apply split_at_char in H;
    try (apply numToString_digits; [exact dash_not_digit | assumption]).
  destruct H as [Ex H].
  apply split_at_char in H;
    try (apply numToString_digits; [exact dash_not_digit | assumption]).
  destruct H as [Ey H].
  apply split_at_char in H;
    try (apply numToString_digits; [exact dot_not_digit | assumption]).
  destruct H as [Ez _].
  apply numToString_inj in Ex, Ey, Ez. congruence.
Qed.

Lemma gridNameOf_inj (baseName : string) (i j : Z * Z * Z) :
  (let '(ix, iy, iz) := i in (0 <= ix)%Z /\ (0 <= iy)%Z /\ (0 <= iz)%Z) ->
  (let '(jx, jy, jz) := j in (0 <= jx)%Z /\ (0 <= jy)%Z /\ (0 <= jz)%Z) ->
  gridNameOf baseName i = gridNameOf baseName j -> i = j.
Proof.
  destruct i as [[ix iy] iz], j as [[jx jy] jz].
  intros (Hix & Hiy & Hiz) (Hjx & Hjy & Hjz) H.
  unfold gridNameOf, gridPartName in H.
  apply append_inv_head in H. simpl in H. injection H as H.
  now apply indexed_name_inj.
Qed.

Lemma manualNameOf_inj (baseName : string) (i j : Z * Z * Z) :
  (let '(ix, iy, iz) := i in (0 <= ix)%Z /\ (0 <= iy)%Z /\ (0 <= iz)%Z) ->
  (let '(jx, jy, jz) := j in (0 <= jx)%Z /\ (0 <= jy)%Z /\ (0 <= jz)%Z) ->
  manualNameOf baseName i = manualNameOf baseName j -> i = j.
Proof.
  destruct i as [[ix iy] iz], j as [[jx jy] jz].
  intros (Hix & Hiy & Hiz) (Hjx & Hjy & Hjz) H.
  unfold manualNameOf, manualPartName in H.
  apply append_inv_head in H. simpl in H. injection H as H.
  now apply indexed_name_inj.
Qed.

Lemma NoDup_map_on {A C} (f : A -> C) (l : list A) :
  (forall x y, In x l -> In y l -> f x = f y -> x = y) ->
  NoDup l -> NoDup (map f l).
Proof.
  intros Hinj Hnd. induction Hnd as [|x l Hx Hnd IH]; simpl; constructor.
  - intros Hin. apply in_map_iff in Hin. destruct Hin as (y & E & Hy).
    assert (y = x) by (apply Hinj; simpl; auto). subst. contradiction.
  - apply IH. intros a b Ha Hb. apply Hinj; simpl; auto.
Qed.

(** Parts named after distinct cells of a grid have distinct names. *)
Lemma names_distinct (nameOf : Z * Z * Z -> string) (ps : list ModelPart)
    (nx ny nz : Z) :
  (forall i j,
     (let '(ix, iy, iz) := i in (0 <= ix)%Z /\ (0 <= iy)%Z /\ (0 <= iz)%Z) ->
     (let '(jx, jy, jz) := j in (0 <= jx)%Z /\ (0 <= jy)%Z /\ (0 <= jz)%Z) ->
     nameOf i = nameOf j -> i = j) ->
  Subseq (map index ps) (gridCells nx ny nz) ->
  Forall (fun p => name p = nameOf (index p)) ps ->
  NoDup (map name ps).
Proof.
  intros Hinj Hsub Hnames.
  assert (E : map name ps = map nameOf (map index ps)).
  { rewrite map_map. apply map_ext_in. intros p Hp.
    rewrite Forall_forall in Hnames. now apply Hnames. }
  rewrite E. apply NoDup_map_on.
  - assert (Hpos : forall i, In i (map index ps) ->
                     let '(ix, iy, iz) := i in
                     (0 <= ix)%Z /\ (0 <= iy)%Z /\ (0 <= iz)%Z).
    { intros [[ix iy] iz] Hi. apply (Subseq_In _ _ _ Hsub) in Hi.
      apply gridCells_In in Hi. lia. }
    intros i j Hi Hj. apply Hinj; now apply Hpos.
  - eapply Subseq_NoDup; [exact Hsub | apply gridCells_NoDup].
Qed.

(** X17. The parts of a grid run have pairwise distinct file names, so they
    can be stored side by side under their names. *)
Theorem grid_part_names_distinct (B : Backend) (geometry : Geometry)
    (bounds : Box3) (config : SlicingConfig) (connectors : ConnectorConfig)
    (hollow : HollowConfig) (labels : LabelConfig) (baseName : string)
    (ps : list ModelPart) (t : list Event) :
  run (performGridSlice B geometry bounds config connectors hollow labels
                        baseName) = (Ok ps, t) ->
  NoDup (map name ps).
Proof.
  intros Hrun.
  destruct (performGridSlice_ok B geometry bounds config connectors hollow
              labels baseName ps t Hrun)
    as (_ & t0 & _ & _ & (added & Hps & Hsub & Hnames) & _).
  simpl in Hps. subst added.
  exact (names_distinct _ ps _ _ _ (gridNameOf_inj baseName) Hsub Hnames).
Qed.

Lemma grid_part_names_distinct_witness :
  exists ps t,
    run (performGridSlice flakyBackend (GMesh 0) demoBounds defaultSlicing
           defaultConnectors defaultHollow defaultLabels "demo") = (Ok ps, t)
    /\ NoDup (map name ps).
Proof.
  destruct (run (performGridSlice flakyBackend (GMesh 0) demoBounds
                   defaultSlicing defaultConnectors defaultHollow defaultLabels
                   "demo")) as [[ps|e] t] eqn:E.
  - exists ps, t. split; [reflexivity|].
    exact (grid_part_names_distinct flakyBackend (GMesh 0) demoBounds
             defaultSlicing defaultConnectors defaultHollow defaultLabels
             "demo" ps t E).
  - vm_compute in E. discriminate E.
Defined.

(** X18. The parts of a manual run have pairwise distinct file names. *)
Theorem manual_part_names_distinct (B : Backend) (geometry : Geometry)
    (bounds : Box3) (config : SlicingConfig) (connectors : ConnectorConfig)
    (hollow : HollowConfig) (labels : LabelConfig) (baseName : string)
    (ps : list ModelPart) (t : list Event) :
  run (performManualSlice B geometry bounds config connectors hollow labels
                          baseName) = (Ok ps, t) ->
  NoDup (map name ps).
Proof.
  intros Hrun.
  destruct (performManualSlice_ok B geometry bounds config connectors hollow
              labels baseName ps t Hrun)
    as (t0 & _ & _ & (added & Hps & Hsub & Hnames) & _).
  simpl in Hps. subst added.
  exact (names_distinct _ ps _ _ _ (manualNameOf_inj baseName) Hsub Hnames).
Qed.

Lemma manual_part_names_distinct_witness :
  exists ps t,
    run (performManualSlice flakyBackend (GMesh 0) demoBounds manualSplitX
           defaultConnectors defaultHollow defaultLabels "demo") = (Ok ps, t)
    /\ NoDup (map name ps).
Proof.
  destruct (run (performManualSlice flakyBackend (GMesh 0) demoBounds
                   manualSplitX defaultConnectors defaultHollow defaultLabels
                   "demo")) as [[ps|e] t] eqn:E.
  - exists ps, t. split; [reflexivity|].
    exact (manual_part_names_distinct flakyBackend (GMesh 0) demoBounds
             manualSplitX defaultConnectors defaultHollow defaultLabels
             "demo" ps t E).
  - vm_compute in E. discriminate E.
Defined.

(** ** Split view *)

(** [maxIndex] from any start: the fold takes the maximum with each index. *)
Lemma maxIndex_fold (ps : list ModelPart) (a0 a1 a2 : Z) :
  let '(m0, m1, m2) :=
    fold_left (fun acc pt =>
      let '(b0, b1, b2) := acc in
      let '(i0, i1, i2) := index pt in
      (Z.max b0 i0, Z.max b1 i1, Z.max b2 i2)) ps (a0, a1, a2) in
  (a0 <= m0 /\ a1 <= m1 /\ a2 <= m2)%Z
  /\ (forall p, In p ps ->
        let '(i0, i1, i2) := index p in (i0 <= m0 /\ i1 <= m1 /\ i2 <= m2)%Z)
  /\ (m0 = a0 \/ exists p, In p ps /\ fst (fst (index p)) = m0)
  /\ (m1 = a1 \/ exists p, In p ps /\ snd (fst (index p)) = m1)
  /\ (m2 = a2 \/ exists p, In p ps /\ snd (index p) = m2).
Proof.
  revert a0 a1 a2. induction ps as [|q ps IH]; intros a0 a1 a2; simpl.
  - repeat split; try lia; auto.
  - destruct (index q) as [[j0 j1] j2] eqn:Eq.
    specialize (IH (Z.max a0 j0) (Z.max a1 j1) (Z.max a2 j2)).
    destruct (fold_left _ ps _) as [[m0 m1] m2].
    destruct IH as (Hge & Hall & H0 & H1 & H2).
    split; [lia|]. split; [|split; [|split]].
    + intros p [<-|Hp]; [rewrite Eq; lia | now apply Hall].
    + destruct H0 as [E|(p & Hp & E)]; [|right; exists p; auto].
      destruct (Z.max_spec a0 j0) as [[_ E']|[_ E']]; [|left; lia].
      right. exists q. rewrite Eq. simpl. split; [auto | lia].
    + destruct H1 as [E|(p & Hp & E)]; [|right; exists p; auto].
      destruct (Z.max_spec a1 j1) as [[_ E']|[_ E']]; [|left; lia].
      right. exists q. rewrite Eq. simpl. split; [auto | lia].
    + destruct H2 as [E|(p & Hp & E)]; [|right; exists p; auto].
      destruct (Z.max_spec a2 j2) as [[_ E']|[_ E']]; [|left; lia].
      right. exists q. rewrite Eq. simpl. split; [auto | lia].
Qed.

(** X19. The index the split view takes as the far corner of the grid is,
    along each axis, at least the index of every part and never negative;
    when it is not 0 some part has it.  So along each axis the part with the
    largest index counts as the last one, whatever cells came out empty. *)
Theorem maxIndex_is_maximum (ps : list ModelPart) :
  let '(m0, m1, m2) := maxIndex ps in
  (0 <= m0 /\ 0 <= m1 /\ 0 <= m2)%Z
  /\ (forall p, In p ps ->
        let '(i0, i1, i2) := index p in (i0 <= m0 /\ i1 <= m1 /\ i2 <= m2)%Z)
  /\ (m0 = 0%Z \/ exists p, In p ps /\ fst (fst (index p)) = m0)
  /\ (m1 = 0%Z \/ exists p, In p ps /\ snd (fst (index p)) = m1)
  /\ (m2 = 0%Z \/ exists p, In p ps /\ snd (index p) = m2).
Proof. exact (maxIndex_fold ps 0 0 0). Qed.

(** Every cylinder [drawConnector] adds is on the face it was called for,
    and it adds at least one. *)
Lemma drawConnector_faces (connectorConfig : ConnectorConfig)
    (spacing margin : Q) (facePos : Vector3) (axis : Axis) (isPeg : bool)
    (faceW faceH : Q) (face : Axis * bool) :
  In face (map previewFace
             (drawConnector connectorConfig spacing margin facePos axis isPeg
                            faceW faceH))
  <-> face = (axis, isPeg).
Proof.
  set (countH := candidateCount faceW margin spacing).
  set (countV := candidateCount faceH margin spacing).
  assert (E : map previewFace
                (drawConnector connectorConfig spacing margin facePos axis
                               isPeg faceW faceH)
              = map (fun _ => (axis, isPeg)) (candidateIndices countH countV)).
  { unfold drawConnector. fold countH countV.
    etransitivity.
    { apply f_equal.
      exact (nested_loops_collect (fun _ _ => true)
        (fun dh dv =>
           {| pc_radius := connectorRadius connectorConfig isPeg;
              pc_height := c_length connectorConfig;
              pc_axis := axis; pc_isPeg := isPeg;
              pc_position :=
                addVec facePos
                  match axis with
                  | AxisX => vec3 0 (candidateOffset dv countV spacing)
                                    (candidateOffset dh countH spacing)
                  | AxisY => vec3 (candidateOffset dh countH spacing) 0
                                  (candidateOffset dv countV spacing)
                  | AxisZ => vec3 (candidateOffset dh countH spacing)
                                  (candidateOffset dv countV spacing) 0
                  end |})
        countH countV). }
    induction (candidateIndices countH countV) as [|p l IH]; simpl.
    - reflexivity.
    - f_equal. exact IH. }
  rewrite E, in_map_iff. split.
  - intros (p & <- & _). reflexivity.
  - intros ->. exists (0, 0)%Z. split; [reflexivity|].
    apply candidateIndices_In. unfold countH, countV, candidateCount. lia.
Qed.

(** The faces of the connector preview of one part. *)
Lemma connectorPreview_faces (connectorConfig : ConnectorConfig)
    (slicingConfig : SlicingConfig) (pBounds : Box3)
    (ix iy iz maxX maxY maxZ : Z) (face : Axis * bool) :
  In face (map previewFace
             (connectorPreview connectorConfig slicingConfig pBounds
                               (ix, iy, iz) (maxX, maxY, maxZ)))
  <-> c_enabled connectorConfig && c_showInPreview connectorConfig = true
      /\ In face (connectorPlan ix iy iz (maxX + 1) (maxY + 1) (maxZ + 1)).
Proof.
  unfold connectorPreview, connectorPlan.
  destruct (c_enabled connectorConfig && c_showInPreview connectorConfig);
    [|simpl; intuition discriminate].
  rewrite !map_app, !in_app_iff.
  replace (ix + 1 <? maxX + 1)%Z with (ix <? maxX)%Z
    by (destruct (Z.ltb_spec ix maxX), (Z.ltb_spec (ix + 1) (maxX + 1)); lia).
  replace (iy + 1 <? maxY + 1)%Z with (iy <? maxY)%Z
    by (destruct (Z.ltb_spec iy maxY), (Z.ltb_spec (iy + 1) (maxY + 1)); lia).
  replace (iz + 1 <? maxZ + 1)%Z with (iz <? maxZ)%Z
    by (destruct (Z.ltb_spec iz maxZ), (Z.ltb_spec (iz + 1) (maxZ + 1)); lia).
  rewrite !Z.gtb_ltb.
  destruct (ix <? maxX)%Z, (0 <? ix)%Z, (iy <? maxY)%Z, (0 <? iy)%Z,
           (iz <? maxZ)%Z, (0 <? iz)%Z;
    rewrite ?drawConnector_faces; simpl; intuition (auto; discriminate).
Qed.

(** The far corner the split view computes lies inside the grid the parts'
    indices come from. *)
Lemma maxIndex_within (ps : list ModelPart) (nx ny nz : Z) :
  (1 <= nx)%Z -> (1 <= ny)%Z -> (1 <= nz)%Z ->
  Subseq (map index ps) (gridCells nx ny nz) ->
  let '(m0, m1, m2) := maxIndex ps in
  (0 <= m0 < nx /\ 0 <= m1 < ny /\ 0 <= m2 < nz)%Z.
Proof.
  intros Hx Hy Hz Hsub.
  pose proof (maxIndex_fold ps 0 0 0) as H. fold (maxIndex ps) in H.
  destruct (maxIndex ps) as [[m0 m1] m2].
  destruct H as (Hge & _ & H0 & H1 & H2).
  assert (Hin : forall p, In p ps ->
                  (fst (fst (index p)) < nx /\ snd (fst (index p)) < ny
                   /\ snd (index p) < nz)%Z).
  { intros p Hp. destruct (index p) as [[ix iy] iz] eqn:Ei.
    assert (Hc : In (ix, iy, iz) (gridCells nx ny nz)).
    { apply (Subseq_In _ _ _ Hsub). rewrite <- Ei. now apply in_map. }
    apply gridCells_In in Hc. simpl. lia. }
  repeat split; try lia.
  - destruct H0 as [->|(p & Hp & <-)]; [lia | apply (Hin p Hp)].
  - destruct H1 as [->|(p & Hp & <-)]; [lia | apply (Hin p Hp)].
  - destruct H2 as [->|(p & Hp & <-)]; [lia | apply (Hin p Hp)].
Qed.

Lemma connectorPlan_mono (ix iy iz mx my mz nx ny nz : Z) (face : Axis * bool) :
  (mx <= nx)%Z -> (my <= ny)%Z -> (mz <= nz)%Z ->
  In face (connectorPlan ix iy iz mx my mz) ->
  In face (connectorPlan ix iy iz nx ny nz).
Proof.
  intros Hx Hy Hz. destruct face as [a isPeg]. rewrite !connectorPlan_In.
  destruct isPeg, a; simpl; lia.
Qed.

(** Along each axis some part has the largest index, when there is a part
    and no index is negative. *)
Lemma maxIndex_attained (ps : list ModelPart) (a : Axis) :
  ps <> [] ->
  (forall p, In p ps ->
     let '(ix, iy, iz) := index p in (0 <= cellIndex a ix iy iz)%Z) ->
  exists p,
    In p ps
    /\ (let '(ix, iy, iz) := index p in cellIndex a ix iy iz)
       = (let '(mx, my, mz) := maxIndex ps in cellIndex a mx my mz).
Proof.
  intros Hne Hpos.
  pose proof (maxIndex_fold ps 0 0 0) as H. fold (maxIndex ps) in H.
  destruct (maxIndex ps) as [[mx my] mz].
  destruct H as (_ & Hle & H0 & H1 & H2).
  assert (Hany : forall m,
            (forall p, In p ps ->
               let '(ix, iy, iz) := index p in (cellIndex a ix iy iz <= m)%Z) ->
            m = 0%Z ->
            exists p, In p ps
                      /\ (let '(ix, iy, iz) := index p in cellIndex a ix iy iz)
                         = m).
  { intros m Hm ->. destruct ps as [|p ps']; [now destruct Hne|].
    exists p. split; [now left|].
    specialize (Hpos p (or_introl eq_refl)).
    specialize (Hm p (or_introl eq_refl)).
    destruct (index p) as [[ix iy] iz]. lia. }
  destruct a; simpl.
  - destruct H0 as [E|(p & Hp & E)].
    + apply Hany; [|exact E]. intros p Hp. specialize (Hle p Hp).
      destruct (index p) as [[ix iy] iz]. simpl. lia.
    + exists p. split; [exact Hp|]. destruct (index p) as [[ix iy] iz].
      exact E.
  - destruct H1 as [E|(p & Hp & E)].
    + apply Hany; [|exact E]. intros p Hp. specialize (Hle p Hp).
      destruct (index p) as [[ix iy] iz]. simpl. lia.
    + exists p. split; [exact Hp|]. destruct (index p) as [[ix iy] iz].
      exact E.
  - destruct H2 as [E|(p & Hp & E)].
    + apply Hany; [|exact E]. intros p Hp. specialize (Hle p Hp).
      destruct (index p) as [[ix iy] iz]. simpl. lia.
    + exists p. split; [exact Hp|]. destruct (index p) as [[ix iy] iz].
      exact E.
Qed.

(** X20. The split view draws preview connectors of a grid part (sliced
    with positive envelope sizes) only on faces where the slicer planned
    connectors for it, and sockets on exactly the planned faces.  For the
    last cell of each axis it takes the largest index among the returned
    parts: the preview shows every planned face of every part exactly when
    that index is [steps - 1] on each axis. *)
Theorem preview_faces_within_plan (B : Backend) (geometry : Geometry)
    (bounds : Box3) (config : SlicingConfig) (connectors : ConnectorConfig)
    (hollow : HollowConfig) (labels : LabelConfig) (baseName : string)
    (ps : list ModelPart) (t : list Event) (pBounds : ModelPart -> Box3) :
  let stepsX := gridSteps (vx (getSize bounds)) (printerX config) in
  let stepsY := gridSteps (vy (getSize bounds)) (printerY config) in
  let stepsZ := gridSteps (vz (getSize bounds)) (printerZ config) in
  let preview p :=
    map previewFace
        (connectorPreview connectors config (pBounds p) (index p)
                          (maxIndex ps)) in
  let plan p :=
    let '(ix, iy, iz) := index p in
    connectorPlan ix iy iz stepsX stepsY stepsZ in
  0 < printerX config -> 0 < printerY config -> 0 < printerZ config ->
  run (performGridSlice B geometry bounds config connectors hollow labels
                        baseName) = (Ok ps, t) ->
  (forall p face, In p ps -> In face (preview p) -> In face (plan p))
  /\ (c_enabled connectors && c_showInPreview connectors = true ->
      (forall p a, In p ps ->
                   (In (a, false) (plan p) <-> In (a, false) (preview p)))
      /\ (ps <> [] ->
          ((forall p face, In p ps -> In face (plan p) -> In face (preview p))
           <-> maxIndex ps = (stepsX - 1, stepsY - 1, stepsZ - 1)%Z))).
Proof.
  intros stepsX stepsY stepsZ preview plan _ _ _ Hrun.
  destruct (performGridSlice_ok B geometry bounds config connectors hollow
              labels baseName ps t Hrun)
    as (_ & t0 & _ & _ & (added & Hps & Hsub & _) & _).
  fold stepsX stepsY stepsZ in Hsub. simpl in Hps. subst added.
  pose proof (maxIndex_within ps stepsX stepsY stepsZ
                (gridSteps_pos _ _) (gridSteps_pos _ _) (gridSteps_pos _ _)
                Hsub) as Hmax.
  assert (Hcell : forall p, In p ps ->
            let '(ix, iy, iz) := index p in
            (0 <= ix < stepsX)%Z /\ (0 <= iy < stepsY)%Z
            /\ (0 <= iz < stepsZ)%Z).
  { intros p Hp. destruct (index p) as [[ix iy] iz] eqn:Ei.
    apply gridCells_In. apply (Subseq_In _ _ _ Hsub). rewrite <- Ei.
    now apply in_map. }
  subst preview plan. cbv beta.
  destruct (maxIndex ps) as [[mx my] mz] eqn:Em.
  assert (Hattained : forall a, ps <> [] ->
            exists p, In p ps
                      /\ (let '(ix, iy, iz) := index p in cellIndex a ix iy iz)
                         = cellIndex a mx my mz).
  { intros a Hne.
    destruct (maxIndex_attained ps a Hne) as (p & Hp & E).
    - intros q Hq. specialize (Hcell q Hq).
      destruct (index q) as [[ix iy] iz]. destruct a; simpl; lia.
    - rewrite Em in E. now exists p. }
  split; [|intros Hon; split].
  - intros p face Hp Hf. destruct (index p) as [[ix iy] iz].
    apply connectorPreview_faces in Hf. destruct Hf as [_ Hf].
    apply (connectorPlan_mono ix iy iz (mx + 1) (my + 1) (mz + 1)); [lia..|].
    exact Hf.
  - intros p a Hp. destruct (index p) as [[ix iy] iz].
    rewrite connectorPreview_faces, !connectorPlan_In. tauto.
  - intros Hne. split.
    + intros Hall.
      assert (Hge : forall a, (cellIndex a stepsX stepsY stepsZ - 1
                               <= cellIndex a mx my mz)%Z).
      { intros a. destruct (Hattained a Hne) as (p & Hp & E).
        destruct (Z.le_gt_cases (cellIndex a stepsX stepsY stepsZ - 1)
                                (cellIndex a mx my mz)) as [H|H]; [exact H|].
        exfalso. specialize (Hall p (a, true) Hp).
        destruct (index p) as [[ix iy] iz].
        rewrite connectorPreview_faces, !connectorPlan_In in Hall.
        assert (Hp1 : (cellIndex a ix iy iz + 1
                       < cellIndex a stepsX stepsY stepsZ)%Z) by lia.
        destruct (Hall Hp1) as [_ Hlt].
        destruct a; simpl in *; lia. }
      pose proof (Hge AxisX) as Hx. pose proof (Hge AxisY) as Hy.
      pose proof (Hge AxisZ) as Hz. simpl in Hx, Hy, Hz.
      f_equal; [f_equal|]; lia.
    + intros E p face Hp Hf. injection E as -> -> ->.
      destruct (index p) as [[ix iy] iz].
      apply connectorPreview_faces. split; [exact Hon|].
      replace (stepsX - 1 + 1)%Z with stepsX by lia.
      replace (stepsY - 1 + 1)%Z with stepsY by lia.
      replace (stepsZ - 1 + 1)%Z with stepsZ by lia.
      exact Hf.
Qed.

Lemma preview_faces_within_plan_witness :
  exists ps t,
    run (performGridSlice sampleBackend (GMesh 0) demoBounds defaultSlicing
           defaultConnectors defaultHollow defaultLabels "demo") = (Ok ps, t)
    /\ forall p face,
         In p ps ->
         In face (map previewFace
                    (connectorPreview defaultConnectors defaultSlicing
                       demoBounds (index p) (maxIndex ps))) ->
         In face (let '(ix, iy, iz) := index p in connectorPlan ix iy iz 2 2 2).
Proof.
  destruct (run (performGridSlice sampleBackend (GMesh 0) demoBounds
                   defaultSlicing defaultConnectors defaultHollow defaultLabels
                   "demo")) as [[ps|e] t] eqn:E;
    [|vm_compute in E; discriminate E].
  exists ps, t. split; [reflexivity|].
  exact (proj1 (preview_faces_within_plan sampleBackend (GMesh 0) demoBounds
                  defaultSlicing defaultConnectors defaultHollow defaultLabels
                  "demo" ps t (fun _ => demoBounds)
                  eq_refl eq_refl eq_refl E)).
Defined.

(** A manual run adds nothing, whatever the connector and label settings. *)
Lemma manual_quiet (B : Backend) (geometry : Geometry) (bounds : Box3)
    (config : SlicingConfig) (connectors : ConnectorConfig)
    (hollow : HollowConfig) (labels : LabelConfig) (baseName : string) :
  emitsOnly (allowedEvent (h_enabled hollow) false false)
            (performManualSlice B geometry bounds config connectors hollow
                                labels baseName).
Proof.
  unfold performManualSlice. cbv zeta.
  apply emitsOnly_bind; [emits_auto|]. intros [baseBrush|]; [|emits_auto].
  apply emitsOnly_bind; [emits_auto|]. intros b.
  apply emitsOnly_bind; [|intros; apply emitsOnly_ret].
  unfold manualLoops.
  apply emitsOnly_bind; [|intros; apply emitsOnly_ret].
  apply emitsOnly_forEach. intros [ix w] [s0 offsetX].
  apply emitsOnly_bind; [|intros; apply emitsOnly_ret].
  apply emitsOnly_forEach. intros [iy h] [s1 offsetY].
  apply emitsOnly_bind; [|intros; apply emitsOnly_ret].
  apply emitsOnly_forEach. intros [iz d] [s2 offsetZ].
  unfold manualCell, manualCellTry. emits_auto.
Qed.

(** X21. The split view draws connectors that manual mode does not make: a
    manual run never asks the evaluator for an addition, and with hollowing
    off for no subtraction either, so its parts carry no pegs and then no
    sockets; yet as soon as it returns two parts, with connectors enabled
    and shown in the preview, the view draws preview connectors on at least
    one of them. *)
Theorem manual_preview_draws_absent_connectors (B : Backend)
    (geometry : Geometry) (bounds : Box3) (config : SlicingConfig)
    (connectors : ConnectorConfig) (hollow : HollowConfig)
    (labels : LabelConfig) (baseName : string) (ps : list ModelPart)
    (t : list Event) :
  run (performManualSlice B geometry bounds config connectors hollow labels
                          baseName) = (Ok ps, t) ->
  c_enabled connectors && c_showInPreview connectors = true ->
  (2 <= List.length ps)%nat ->
  (forall a b, ~ In (EvEvaluate a b ADDITION) t)
  /\ (h_enabled hollow = false ->
      forall a b, ~ In (EvEvaluate a b SUBTRACTION) t)
  /\ exists p,
       In p ps
       /\ forall viewConfig pBounds,
            connectorPreview connectors viewConfig pBounds (index p)
                             (maxIndex ps) <> [].
Proof.
  intros Hrun Hon Hlen.
  assert (Hall : Forall (allowedEvent (h_enabled hollow) false false) t).
  { destruct (manual_quiet B geometry bounds config connectors hollow labels
                baseName []) as (d & Ed & Hd).
    unfold run in Hrun. rewrite Hrun in Ed. simpl in Ed. now subst d. }
  rewrite Forall_forall in Hall. split; [|split].
  - intros a b Hin. apply Hall in Hin. simpl in Hin.
    destruct Hin; discriminate.
  - intros Hoff a b Hin. apply Hall in Hin. simpl in Hin. rewrite Hoff in Hin.
    destruct Hin; discriminate.
  - destruct (performManualSlice_ok B geometry bounds config connectors hollow
                labels baseName ps t Hrun)
      as (t0 & _ & _ & (added & Hps & Hsub & _) & _).
    simpl in Hps. subst added.
    destruct ps as [|p [|q ps']]; simpl in Hlen; try lia.
    assert (Hnd : NoDup (map index (p :: q :: ps')))
      by (eapply Subseq_NoDup; [exact Hsub | apply gridCells_NoDup]).
    assert (Hpos : forall r, In r (p :: q :: ps') ->
              (0 <= fst (fst (index r)) /\ 0 <= snd (fst (index r))
               /\ 0 <= snd (index r))%Z).
    { intros r Hr. destruct (index r) as [[ix iy] iz] eqn:Ei.
      match type of Hsub with Subseq _ ?cells =>
        assert (Hc : In (ix, iy, iz) cells)
          by (apply (Subseq_In _ _ _ Hsub); rewrite <- Ei; now apply in_map)
      end.
      apply gridCells_In in Hc. simpl. lia. }
    assert (Hne : index p <> index q).
    { simpl in Hnd. apply NoDup_cons_iff in Hnd. destruct Hnd as [Hnotin _].
      intros E. apply Hnotin. left. now symmetry. }
    assert (Hsome : exists r a,
              In r (p :: q :: ps')
              /\ (let '(ix, iy, iz) := index r in cellIndex a ix iy iz > 0)%Z).
    { pose proof (Hpos p (or_introl eq_refl)) as Pp.
      pose proof (Hpos q (or_intror (or_introl eq_refl))) as Pq.
      destruct (index p) as [[px py] pz] eqn:Ep,
               (index q) as [[qx qy] qz] eqn:Eq'.
      simpl in Pp, Pq.
      destruct (Z.eq_dec px 0) as [Hx|Hx];
        [|exists p, AxisX; rewrite Ep; simpl; split; [auto | lia]].
      destruct (Z.eq_dec py 0) as [Hy|Hy];
        [|exists p, AxisY; rewrite Ep; simpl; split; [auto | lia]].
      destruct (Z.eq_dec pz 0) as [Hz|Hz];
        [|exists p, AxisZ; rewrite Ep; simpl; split; [auto | lia]].
      destruct (Z.eq_dec qx 0) as [Hx'|Hx'];
        [|exists q, AxisX; rewrite Eq'; simpl; split; [auto | lia]].
      destruct (Z.eq_dec qy 0) as [Hy'|Hy'];
        [|exists q, AxisY; rewrite Eq'; simpl; split; [auto | lia]].
      destruct (Z.eq_dec qz 0) as [Hz'|Hz'];
        [|exists q, AxisZ; rewrite Eq'; simpl; split; [auto | lia]].
      exfalso. apply Hne. congruence. }
    destruct Hsome as (r & a & Hr & Ha). exists r. split; [exact Hr|].
    intros viewConfig pBounds Hnil.
    destruct (index r) as [[ix iy] iz], (maxIndex (p :: q :: ps'))
      as [[mx my] mz].
    assert (Hin : In (a, false)
                    (map previewFace
                       (connectorPreview connectors viewConfig pBounds
                          (ix, iy, iz) (mx, my, mz)))).
    { apply connectorPreview_faces. split; [exact Hon|].
      apply connectorPlan_In. exact Ha. }
    rewrite Hnil in Hin. exact Hin.
Qed.

Lemma manual_preview_draws_absent_connectors_witness :
  exists ps t,
    run (performManualSlice sampleBackend (GMesh 0) demoBounds manualSplitX
           defaultConnectors defaultHollow defaultLabels "demo") = (Ok ps, t)
    /\ (forall a b, ~ In (EvEvaluate a b ADDITION) t)
    /\ (h_enabled defaultHollow = false ->
        forall a b, ~ In (EvEvaluate a b SUBTRACTION) t)
    /\ exists p,
         In p ps
         /\ forall viewConfig pBounds,
              connectorPreview defaultConnectors viewConfig pBounds (index p)
                               (maxIndex ps) <> [].
Proof.
  destruct (run (performManualSlice sampleBackend (GMesh 0) demoBounds
                   manualSplitX defaultConnectors defaultHollow defaultLabels
                   "demo")) as [[ps|e] t] eqn:E;
    [|vm_compute in E; discriminate E].
  exists ps, t. split; [reflexivity|].
  apply (manual_preview_draws_absent_connectors sampleBackend (GMesh 0)
           demoBounds manualSplitX defaultConnectors defaultHollow
           defaultLabels "demo" ps t E).
  - reflexivity.
  - destruct ps as [|p [|q ps']]; try (vm_compute in E; discriminate E).
    simpl. lia.
Defined.

(** ** Sidebar and application *)

(** X22. [applyScale] rescales only when a height was entered and the model
    has a positive height; the factor it then hands to [onScale] times the
    current height is the entered height in millimetres (1 in = 25.4 mm,
    1 ft = 304.8 mm), so a model scaled uniformly by it is exactly as high as
    asked.  The entry is not checked: the factor has the sign of the entry,
    and an entry of 0 gives the factor 0. *)
Theorem applyScale_reaches_target (modelBounds : Box3) (scaleVal : option Q)
    (unit : Unit) :
  let currentHeight := vy (bmax modelBounds) - vy (bmin modelBounds) in
  let millimetres (v : Q) :=
    match unit with mm => v | inch => v * 25.4 | ft => v * 304.8 end in
  match applyScale (Some modelBounds) scaleVal unit with
  | Some factor =>
    exists v, scaleVal = Some v
              /\ 0 < currentHeight
              /\ factor * currentHeight == millimetres v
              /\ (0 < factor <-> 0 < v)
              /\ (factor == 0 <-> v == 0)
  | None => scaleVal = None \/ currentHeight <= 0
  end.
Proof.
  intros currentHeight millimetres. unfold applyScale.
  destruct scaleVal as [v|]; [|now left]. fold currentHeight.
  destruct (Qgtb currentHeight 0) eqn:E.
  - apply Qgtb_lt in E. exists v. split; [reflexivity|]. split; [exact E|].
    assert (Hne : ~ currentHeight == 0) by lra.
    assert (Hm : (0 < millimetres v <-> 0 < v)
                 /\ (millimetres v == 0 <-> v == 0)).
    { unfold millimetres. destruct unit; split; split; intros; lra. }
    set (target := match unit with
                   | mm => v | inch => v * 25.4 | ft => v * 304.8 end) in *.
    fold (millimetres v). change target with (millimetres v).
    clearbody currentHeight. generalize dependent (millimetres v).
    clear target. intros m Hm.
    assert (Hf : m / currentHeight * currentHeight == m) by (field; exact Hne).
    split; [exact Hf|].
    assert (Hinv : 0 < / currentHeight) by (now apply Qinv_lt_0_compat).
    split; split; intros H.
    + apply Hm. rewrite <- Hf. now apply Qmult_lt_0_compat.
    + apply Hm in H. unfold Qdiv. now apply Qmult_lt_0_compat.
    + apply Hm. rewrite <- Hf, H. ring.
    + apply Hm in H. rewrite H. field. exact Hne.
  - right. destruct (Qlt_le_dec 0 currentHeight) as [H|H]; [|exact H].
    apply Qgtb_lt in H. congruence.
Qed.

(** X23. An uploaded model is put on the build plate: whatever the bounding
    box of the loaded mesh (as long as it is not empty), the stored model
    bounds start at height 0, are centred on the vertical axis, and keep the
    size of the mesh. *)
Theorem upload_places_model_on_plate (raw : Box3) :
  isEmpty raw = false ->
  let b := uploadedBounds raw in
  let size := getSize raw in
  vy (bmin b) == 0 /\ vy (bmax b) == vy size
  /\ vx (bmin b) == - (vx size / 2) /\ vx (bmax b) == vx size / 2
  /\ vz (bmin b) == - (vz size / 2) /\ vz (bmax b) == vz size / 2
  /\ isEmpty b = false.
Proof.
  intros He. unfold uploadedBounds, getCenter, getSize. rewrite He.
  unfold isEmpty in *. apply orb_false_iff in He. destruct He as [He Hz].
  apply orb_false_iff in He. destruct He as [Hx Hy].
  assert (Hle : forall a c, Qltb c a = false -> a <= c).
  { intros a c H. destruct (Qlt_le_dec c a) as [Hlt|Hle]; [|exact Hle].
    apply Qltb_lt in Hlt. congruence. }
  apply Hle in Hx, Hy, Hz.
  destruct raw as [[x0 y0 z0] [x1 y1 z1]]. simpl in *.
  repeat split; try (cbv zeta; simpl; field).
  apply orb_false_iff. split; [apply orb_false_iff; split|];
    (match goal with |- Qltb ?c ?a = false =>
       destruct (Qltb c a) eqn:E; [|reflexivity];
       apply Qltb_lt in E; exfalso; simpl in E; lra end).
Qed.

Lemma upload_places_model_on_plate_witness :
  vy (bmin (uploadedBounds (box3 (vec3 10 20 30) (vec3 50 80 40)))) == 0
  /\ vy (bmax (uploadedBounds (box3 (vec3 10 20 30) (vec3 50 80 40)))) == 60.
Proof.
  destruct (upload_places_model_on_plate
              (box3 (vec3 10 20 30) (vec3 50 80 40)) eq_refl)
    as (H0 & H1 & _).
  split; [exact H0 | exact H1].
Defined.

(** X24. Asking, with positive envelope sizes, for a grid of more than 500
    cells costs nothing but an alert: [handleSlicing] shows [Slicing encountered an error: Part count
    exceeds safety limit (500). Increase printer volume size.], keeps the
    parts and the view of before, and ends with the busy flag cleared. *)
Theorem slicing_over_limit_alerts (B : Backend) (geometry : Geometry)
    (modelBounds : Box3) (slicingConfig : SlicingConfig)
    (connectorConfig : ConnectorConfig) (hollowConfig : HollowConfig)
    (labelConfig : LabelConfig) (state : AppState) :
  mode slicingConfig = grid ->
  0 < printerX slicingConfig -> 0 < printerY slicingConfig ->
  0 < printerZ slicingConfig ->
  (gridSteps (vx (getSize modelBounds)) (printerX slicingConfig)
   * gridSteps (vy (getSize modelBounds)) (printerY slicingConfig)
   * gridSteps (vz (getSize modelBounds)) (printerZ slicingConfig) > 500)%Z ->
  handleSlicing B (Some geometry) (Some modelBounds) slicingConfig
                connectorConfig hollowConfig labelConfig state
  = ({| s_isLoaded := s_isLoaded state;
        s_fileName := s_fileName state;
        s_parts := s_parts state;
        s_isProcessing := false;
        s_progressMessage := "Industrial CSG Engine Online...";
        s_viewMode := s_viewMode state;
        s_sectionView := s_sectionView state |},
     ["Slicing encountered an error: Part count exceeds safety limit (500). Increase printer volume size."%string]).
Proof.
  intros Hmode _ _ _ Htotal. unfold handleSlicing. rewrite Hmode.
  unfold run, performGridSlice, partCountLimit. cbv zeta.
  match goal with |- context [(?total >? 500)%Z] =>
    destruct (Z.gtb_spec total 500) as [_|Hle]; [|lia]
  end.
  reflexivity.
Qed.

Lemma slicing_over_limit_alerts_witness :
  snd (handleSlicing sampleBackend (Some (GMesh 0)) (Some demoBounds)
         smallEnvelope defaultConnectors defaultHollow defaultLabels demoState)
  = ["Slicing encountered an error: Part count exceeds safety limit (500). Increase printer volume size."%string].
Proof.
  rewrite (slicing_over_limit_alerts sampleBackend (GMesh 0) demoBounds
             smallEnvelope defaultConnectors defaultHollow defaultLabels
             demoState).
  - reflexivity.
  - reflexivity.
  - reflexivity.
  - reflexivity.
  - reflexivity.
  - reflexivity.
Defined.

(** Cutting the extension off a file name that has no other dot. *)
Lemma replaceFirst_extension (base : string) :
  lacks "." base -> replaceFirst ".stl" EmptyString (base ++ ".stl") = base.
Proof.
  induction base as [|c base IH]; intros H.
  - reflexivity.
  - destruct H as [Hc H]. cbn -[ascii_dec].
    destruct (ascii_dec "." c) as [E|_]; [congruence|].
    f_equal. exact (IH H).
Qed.

(** [handleSlicing] that shows no alert: the run returned, and its parts
    are the parts of the new state. *)
Lemma handleSlicing_quiet (B : Backend) (geometry : Geometry)
    (modelBounds : Box3) (slicingConfig : SlicingConfig)
    (connectorConfig : ConnectorConfig) (hollowConfig : HollowConfig)
    (labelConfig : LabelConfig) (state state' : AppState) :
  handleSlicing B (Some geometry) (Some modelBounds) slicingConfig
                connectorConfig hollowConfig labelConfig state
  = (state', []) ->
  let baseName := replaceFirst ".stl" EmptyString (s_fileName state) in
  exists t,
    run (match mode slicingConfig with
         | grid =>
           performGridSlice B geometry modelBounds slicingConfig
                            connectorConfig hollowConfig labelConfig baseName
         | manual =>
           performManualSlice B geometry modelBounds slicingConfig
                              connectorConfig hollowConfig labelConfig baseName
         end) = (Ok (s_parts state'), t)
    /\ s_isProcessing state' = false /\ s_viewMode state' = split
    /\ s_fileName state' = s_fileName state.
Proof.
  unfold handleSlicing. cbv zeta.
  destruct (run _) as [[ps|e] t] eqn:E; intros H; [|discriminate].
  injection H as <-. exists t. simpl. repeat split.
  clear E. induction (progressOf t) as [|m l IH] using rev_ind; simpl.
  - reflexivity.
  - rewrite fold_left_app. simpl. exact IH.
Qed.

(** X25. Slicing [base.stl] names the parts after [base]: when
    [handleSlicing] shows no alert for a file name ending in [.stl] without
    another dot, the new state is idle, in split view, and holds parts
    named [base_Pi-j-k.stl] (grid mode) or [base_Mi-j-k.stl] (manual mode)
    after their indices, no two of them with the same name. *)
Theorem sliced_parts_named_after_file (B : Backend) (geometry : Geometry)
    (modelBounds : Box3) (slicingConfig : SlicingConfig)
    (connectorConfig : ConnectorConfig) (hollowConfig : HollowConfig)
    (labelConfig : LabelConfig) (state state' : AppState) (base : string) :
  s_fileName state = (base ++ ".stl")%string ->
  lacks "." base ->
  handleSlicing B (Some geometry) (Some modelBounds) slicingConfig
                connectorConfig hollowConfig labelConfig state
  = (state', []) ->
  s_isProcessing state' = false
  /\ s_viewMode state' = split
  /\ Forall (fun p => name p = partNameOf (mode slicingConfig) base (index p))
            (s_parts state')
  /\ NoDup (map name (s_parts state')).
Proof.
  intros Hname Hbase H. apply handleSlicing_quiet in H. cbv zeta in H.
  rewrite Hname, (replaceFirst_extension base Hbase) in H.
  destruct H as (t & Hrun & Hidle & Hview & _).
  split; [exact Hidle|]. split; [exact Hview|].
  destruct (mode slicingConfig); simpl.
  - destruct (performGridSlice_ok B geometry modelBounds slicingConfig
                connectorConfig hollowConfig labelConfig base _ t Hrun)
      as (_ & t0 & _ & _ & (added & Hps & Hsub & Hnames) & _).
    simpl in Hps. subst added. split; [exact Hnames|].
    exact (names_distinct _ _ _ _ _ (gridNameOf_inj base) Hsub Hnames).
  - destruct (performManualSlice_ok B geometry modelBounds slicingConfig
                connectorConfig hollowConfig labelConfig base _ t Hrun)
      as (t0 & _ & _ & (added & Hps & Hsub & Hnames) & _).
    simpl in Hps. subst added. split; [exact Hnames|].
    exact (names_distinct _ _ _ _ _ (manualNameOf_inj base) Hsub Hnames).
Qed.

Lemma sliced_parts_named_after_file_witness :
  exists state',
    handleSlicing sampleBackend (Some (GMesh 0)) (Some demoBounds)
      defaultSlicing defaultConnectors defaultHollow defaultLabels demoState
    = (state', [])
    /\ NoDup (map name (s_parts state')).
Proof.
  destruct (handleSlicing sampleBackend (Some (GMesh 0)) (Some demoBounds)
              defaultSlicing defaultConnectors defaultHollow defaultLabels
              demoState) as [state' alerts] eqn:E.
  destruct alerts as [|a l]; [|vm_compute in E; discriminate E].
  exists state'. split; [reflexivity|].
  apply (sliced_parts_named_after_file sampleBackend (GMesh 0) demoBounds
           defaultSlicing defaultConnectors defaultHollow defaultLabels
           demoState state' "Industrial_Housing_V2").
  - reflexivity.
  - simpl. repeat split; discriminate.
  - exact E.
Defined.

(** * Connector synthesis on a face *)

(** What [createBrush] traces, from any point of a run: first the
    normalization of its argument, then only normalizations and console
    errors. *)
Lemma createBrush_trace (B : Backend) (g : Geometry) (t : list Event) :
  exists d,
    snd (createBrush B g t) = (t ++ [EvNormalize g]) ++ d /\ Forall cellEvent d.
Proof.
  unfold createBrush, ensureValidForCSG, tryCatch.
  rewrite bind_assoc, bind_emit.
  match goal with |- context [bind ?m ?k (t ++ [EvNormalize g])] =>
    assert (Hm : emitsOnly cellEvent (bind m k)) by emits_auto;
    destruct (Hm (t ++ [EvNormalize g])) as (d & Hd & HP);
    destruct (bind m k (t ++ [EvNormalize g])) as [[ob|e] t1]
  end; simpl in Hd; subst t1.
  - now exists d.
  - exists (d ++ [EvConsoleError "Brush preparation failed:"]). split.
    + unfold bind, emit, ret. simpl. now rewrite app_assoc.
    + apply Forall_app. split; [exact HP | repeat constructor].
Qed.

(** [addFeatures], with its loops read as a filter over the candidate
    centers: without an accepted candidate it does nothing; otherwise it
    merges one cylinder per accepted candidate, makes the merged geometry a
    brush and has the evaluator apply it to the part. *)
Lemma addFeatures_run (B : Backend) (connectors : ConnectorConfig)
    (box : Box3) (size center : Vector3) (faceAxis : Axis) (isPeg : bool)
    (st : ConnState) (t : list Event) :
  let accepted :=
    filter (fun c => isValidPlacement B (tempMeshGeometry st) c
                       (faceNormalOf faceAxis isPeg)
                       (c_length connectors * 0.7))
           (addFeaturesCandidates connectors box size center faceAxis isPeg) in
  let merged :=
    GMerge (map (fun c => GTranslate (connectorCylinder connectors faceAxis isPeg)
                                     (vx c) (vy c) (vz c)) accepted) in
  addFeatures B connectors box size center faceAxis isPeg st t
  = match accepted with
    | [] => (Ok st, t)
    | _ :: _ =>
      bind (createBrush B merged) (fun opBrush =>
        match opBrush with
        | Some opBrush =>
          bind (evaluateM B (resultBrush st) opBrush (connectorOp isPeg))
            (fun res =>
               bind (createBrush B res) (fun nb =>
                 let rb := orElse nb (resultBrush st) in
                 ret {| resultBrush := rb;
                        tempMeshGeometry := brushGeometry rb |}))
        | None => ret st
        end) t
    end.
Proof.
  intros accepted merged. unfold addFeatures.
  pose proof (addFeatures_candidates B connectors box size center faceAxis
                isPeg st) as E.
  destruct (faceExtents faceAxis size) as [faceW faceH]. simpl fst in E.
  simpl snd in E. cbv zeta. rewrite E. fold accepted.
  destruct accepted as [|c l]; reflexivity.
Qed.

(** The spacing of the layout, above the floor and at or below it. *)
Lemma Qmax_floor_large (s : Q) : 5 < s -> Qmax 5 s = s.
Proof.
  intros H. unfold Qmax, GenericMinMax.gmax.
  assert (E : (5 ?= s) = Lt) by now apply Qlt_alt.
  now rewrite E.
Qed.

Lemma Qmax_floor_at_most (s : Q) : s <= 5 -> Qmax 5 s = 5.
Proof.
  intros H. unfold Qmax, GenericMinMax.gmax.
  destruct (5 ?= s) eqn:E; try reflexivity.
  apply Qlt_alt in E. exfalso. apply (Qlt_irrefl 5).
  eapply Qlt_le_trans; [exact E | exact H].
Qed.

(** The layout of a face for a spacing [s] that is the effective one: the
    candidate centers are those of the grid of the formula, there are
    [(countH + 1) * (countV + 1)] of them, and [addFeatures] either does
    nothing (no candidate accepted) or first normalizes the merged cylinders
    of the accepted ones. *)
Lemma addFeatures_layout (B : Backend) (connectors : ConnectorConfig) (s : Q)
    (box : Box3) (size center : Vector3) (faceAxis : Axis) (isPeg : bool)
    (st : ConnState) (t : list Event) :
  effectiveSpacing connectors = s ->
  let margin := c_edgeMargin connectors in
  let count face := Z.max 0 (Qfloor ((face - 2 * margin) / s)) in
  let offset d n := inject_Z d * s - inject_Z n * s / 2 in
  let faceW := match faceAxis with
               | AxisX => vz size | AxisY => vx size | AxisZ => vx size
               end in
  let faceH := match faceAxis with
               | AxisX => vy size | AxisY => vz size | AxisZ => vy size
               end in
  let centers :=
    map (fun p =>
           let hOff := offset (fst p) (count faceW) in
           let vOff := offset (snd p) (count faceH) in
           match faceAxis with
           | AxisX => vec3 (if isPeg then vx (bmax box) else vx (bmin box))
                           (vy center + vOff) (vz center + hOff)
           | AxisY => vec3 (vx center + hOff)
                           (if isPeg then vy (bmax box) else vy (bmin box))
                           (vz center + vOff)
           | AxisZ => vec3 (vx center + hOff) (vy center + vOff)
                           (if isPeg then vz (bmax box) else vz (bmin box))
           end)
        (candidateIndices (count faceW) (count faceH)) in
  let accepted :=
    filter (fun c => isValidPlacement B (tempMeshGeometry st) c
                       (faceNormalOf faceAxis isPeg)
                       (c_length connectors * 0.7)) centers in
  let merged :=
    GMerge (map (fun c => GTranslate (connectorCylinder connectors faceAxis isPeg)
                                     (vx c) (vy c) (vz c)) accepted) in
  addFeaturesCandidates connectors box size center faceAxis isPeg = centers
  /\ Z.of_nat (List.length centers)
     = ((count faceW + 1) * (count faceH + 1))%Z
  /\ (accepted = [] ->
      addFeatures B connectors box size center faceAxis isPeg st t = (Ok st, t))
  /\ (accepted <> [] ->
      exists o d,
        addFeatures B connectors box size center faceAxis isPeg st t
        = (o, (t ++ [EvNormalize merged]) ++ d)).
Proof.
  intros Es margin count offset faceW faceH centers accepted merged.
  assert (Ecand : addFeaturesCandidates connectors box size center faceAxis
                                        isPeg = centers).
  { unfold addFeaturesCandidates, faceCandidates. rewrite Es. fold margin.
    rewrite !candidateCount_formula.
    assert (EW : fst (faceExtents faceAxis size) = faceW)
      by (destruct faceAxis; reflexivity).
    assert (EH : snd (faceExtents faceAxis size) = faceH)
      by (destruct faceAxis; reflexivity).
    rewrite EW, EH. fold (count faceW) (count faceH).
    apply map_ext. intros p. destruct faceAxis; reflexivity. }
  split; [exact Ecand|]. split.
  { unfold centers. rewrite length_map.
    apply candidateIndices_length; unfold count; lia. }
  pose proof (addFeatures_run B connectors box size center faceAxis isPeg st t)
    as Hrun.
  cbv zeta in Hrun. rewrite Ecand in Hrun. fold accepted in Hrun.
  fold merged in Hrun. split.
  - intros E. rewrite Hrun, E. reflexivity.
  - intros Hne. destruct accepted as [|c l] eqn:Ea; [now destruct Hne|].
    rewrite Hrun.
    destruct (createBrush_trace B merged t) as (d1 & Hd1 & _).
    destruct (createBrush B merged t) as [[ob|e] t1] eqn:Eb; simpl in Hd1;
      subst t1.
    2: { rewrite (bind_throw _ _ _ _ _ Eb). now exists (Throw e), d1. }
    rewrite (bind_ok _ _ _ _ _ Eb). destruct ob as [opBrush|].
    2: { now exists (Ok st), d1. }
    match goal with |- exists o d, ?m ?tr = _ =>
      assert (Ha : appends m)
    end.
    { unfold appends.
      apply emitsOnly_bind; [apply emitsOnly_evaluateM; exact I|].
      intros res. apply emitsOnly_bind;
        [apply emitsOnly_createBrush; intros; exact I|].
      intros nb. apply emitsOnly_ret. }
    destruct (Ha ((t ++ [EvNormalize merged]) ++ d1)) as (d2 & Hd2 & _).
    match goal with |- exists o d, ?r = _ =>
      destruct r as [o t2]
    end.
    simpl in Hd2. subst t2.
    exists o, (d1 ++ d2). now rewrite app_assoc.
Qed.

(** The preview of one part, for a spacing [s] that is the effective one:
    on each face drawn, one cylinder per index pair of the grid of the
    formula, at the offsets of the formula from the face position. *)
Lemma connectorPreview_layout (connectors : ConnectorConfig) (s : Q)
    (slicingConfig : SlicingConfig) (pBounds : Box3)
    (idxX idxY idxZ maxX maxY maxZ : Z) :
  effectiveSpacing connectors = s ->
  c_enabled connectors && c_showInPreview connectors = true ->
  let margin := c_edgeMargin connectors in
  let count face := Z.max 0 (Qfloor ((face - 2 * margin) / s)) in
  let offset d n := inject_Z d * s - inject_Z n * s / 2 in
  let face facePos (axis : Axis) faceW faceH :=
    map (fun p =>
           let hOff := offset (fst p) (count faceW) in
           let vOff := offset (snd p) (count faceH) in
           addVec facePos
             match axis with
             | AxisX => vec3 0 vOff hOff
             | AxisY => vec3 hOff 0 vOff
             | AxisZ => vec3 hOff vOff 0
             end)
        (candidateIndices (count faceW) (count faceH)) in
  let c := getCenter pBounds in
  let pVolX := printerX slicingConfig in
  let pVolY := printerY slicingConfig in
  let pVolZ := printerZ slicingConfig in
  map pc_position
      (connectorPreview connectors slicingConfig pBounds (idxX, idxY, idxZ)
                        (maxX, maxY, maxZ))
  = (if (idxX <? maxX)%Z
     then face (vec3 (vx (bmax pBounds)) (vy c) (vz c)) AxisX pVolZ pVolY
     else [])
    ++ (if (idxX >? 0)%Z
        then face (vec3 (vx (bmin pBounds)) (vy c) (vz c)) AxisX pVolZ pVolY
        else [])
    ++ (if (idxY <? maxY)%Z
        then face (vec3 (vx c) (vy (bmax pBounds)) (vz c)) AxisY pVolX pVolZ
        else [])
    ++ (if (idxY >? 0)%Z
        then face (vec3 (vx c) (vy (bmin pBounds)) (vz c)) AxisY pVolX pVolZ
        else [])
    ++ (if (idxZ <? maxZ)%Z
        then face (vec3 (vx c) (vy c) (vz (bmax pBounds))) AxisZ pVolX pVolY
        else [])
    ++ (if (idxZ >? 0)%Z
        then face (vec3 (vx c) (vy c) (vz (bmin pBounds))) AxisZ pVolX pVolY
        else []).
Proof.
  intros Es Hon margin count offset face c pVolX pVolY pVolZ.
  assert (Hdraw : forall facePos axis isPeg faceW faceH,
            map pc_position
                (drawConnector connectors s margin facePos axis isPeg faceW
                               faceH)
            = face facePos axis faceW faceH).
  { intros. rewrite drawConnector_positions. cbv zeta.
    rewrite !candidateCount_formula. reflexivity. }
  unfold connectorPreview. rewrite Hon, Es. cbv zeta.
  fold margin c pVolX pVolY pVolZ.
  rewrite !map_app.
  destruct (idxX <? maxX)%Z, (idxX >? 0)%Z, (idxY <? maxY)%Z, (idxY >? 0)%Z,
           (idxZ <? maxZ)%Z, (idxZ >? 0)%Z;
    rewrite ?Hdraw; reflexivity.
Qed.

(** Scenario D in the synthesis: on the 100 x 100 face of a part, with
    spacing 50 and margin 15, [addFeatures] merges 2 x 2 pegs. *)
Example scenario_D_pegs :
  let box := box3 (vec3 0 0 0) (vec3 120 100 100) in
  exists gs d,
    snd (run (addFeatures sampleBackend defaultConnectors box (getSize box)
                (getCenter box) AxisX true
                {| resultBrush := mkBrush (GMesh 1);
                   tempMeshGeometry := GMesh 1 |}))
    = EvNormalize (GMerge gs) :: d
    /\ List.length gs = 4%nat.
Proof. vm_compute. eexists _, _. split; reflexivity. Qed.

(** C4, as amended.  With the effective spacing [s = max 5 spacing], the
    candidate centers of a face with in-plane extents [faceW] and [faceH]
    are one per index pair [(dh, dv)], [0 <= dh <= countH] and
    [0 <= dv <= countV], where
    [countH = max 0 (floor ((faceW - 2 margin) / s))] and likewise [countV]:
    [(countH + 1) * (countV + 1)] centers, placed at the in-plane offsets
    [dh * s - countH * s / 2] and [dv * s - countV * s / 2] from the face
    center.  The offsets are [s] apart and mirror each other about the
    center.  These are the centers [addFeatures] works on: it probes each,
    does nothing when none is accepted, and otherwise starts by normalizing
    the merged cylinders of the accepted ones, in the order of the index
    pairs.  The cylinders of the preview sit on the same grid, computed from
    the printer volume. *)
Theorem connector_candidate_grid (B : Backend) (connectors : ConnectorConfig)
    (faceAxis : Axis) (isPeg : bool) (box : Box3) (size center : Vector3)
    (st : ConnState) (t : list Event)
    (facePos : Vector3) (previewW previewH : Q) :
  let s := Qmax 5 (c_spacing connectors) in
  let margin := c_edgeMargin connectors in
  let count face := Z.max 0 (Qfloor ((face - 2 * margin) / s)) in
  let offset d n := inject_Z d * s - inject_Z n * s / 2 in
  let faceW := match faceAxis with
               | AxisX => vz size | AxisY => vx size | AxisZ => vx size
               end in
  let faceH := match faceAxis with
               | AxisX => vy size | AxisY => vz size | AxisZ => vy size
               end in
  let countH := count faceW in
  let countV := count faceH in
  let centers :=
    map (fun p =>
           let hOff := offset (fst p) countH in
           let vOff := offset (snd p) countV in
           match faceAxis with
           | AxisX => vec3 (if isPeg then vx (bmax box) else vx (bmin box))
                           (vy center + vOff) (vz center + hOff)
           | AxisY => vec3 (vx center + hOff)
                           (if isPeg then vy (bmax box) else vy (bmin box))
                           (vz center + vOff)
           | AxisZ => vec3 (vx center + hOff) (vy center + vOff)
                           (if isPeg then vz (bmax box) else vz (bmin box))
           end)
        (candidateIndices countH countV) in
  let accepted :=
    filter (fun c => isValidPlacement B (tempMeshGeometry st) c
                       (faceNormalOf faceAxis isPeg)
                       (c_length connectors * 0.7)) centers in
  let merged :=
    GMerge (map (fun c => GTranslate (connectorCylinder connectors faceAxis isPeg)
                                     (vx c) (vy c) (vz c)) accepted) in
  (* synthesis *)
  Z.of_nat (List.length centers) = ((countH + 1) * (countV + 1))%Z
  /\ (accepted = [] ->
      addFeatures B connectors box size center faceAxis isPeg st t = (Ok st, t))
  /\ (accepted <> [] ->
      exists o d,
        addFeatures B connectors box size center faceAxis isPeg st t
        = (o, (t ++ [EvNormalize merged]) ++ d))
  (* preview *)
  /\ map pc_position
       (drawConnector connectors (effectiveSpacing connectors) margin facePos
                      faceAxis isPeg previewW previewH)
     = map (fun p =>
              let hOff := offset (fst p) (count previewW) in
              let vOff := offset (snd p) (count previewH) in
              addVec facePos
                match faceAxis with
                | AxisX => vec3 0 vOff hOff
                | AxisY => vec3 hOff 0 vOff
                | AxisZ => vec3 hOff vOff 0
                end)
           (candidateIndices (count previewW) (count previewH))
  /\ Z.of_nat (List.length
       (drawConnector connectors (effectiveSpacing connectors) margin facePos
                      faceAxis isPeg previewW previewH))
     = ((count previewW + 1) * (count previewH + 1))%Z
  /\ (forall slicingConfig pBounds idxX idxY idxZ maxX maxY maxZ,
        c_enabled connectors && c_showInPreview connectors = true ->
        let face fPos (axis : Axis) fW fH :=
          map (fun p =>
                 let hOff := offset (fst p) (count fW) in
                 let vOff := offset (snd p) (count fH) in
                 addVec fPos
                   match axis with
                   | AxisX => vec3 0 vOff hOff
                   | AxisY => vec3 hOff 0 vOff
                   | AxisZ => vec3 hOff vOff 0
                   end)
              (candidateIndices (count fW) (count fH)) in
        let c := getCenter pBounds in
        let pVolX := printerX slicingConfig in
        let pVolY := printerY slicingConfig in
        let pVolZ := printerZ slicingConfig in
        map pc_position
            (connectorPreview connectors slicingConfig pBounds
                              (idxX, idxY, idxZ) (maxX, maxY, maxZ))
        = (if (idxX <? maxX)%Z
           then face (vec3 (vx (bmax pBounds)) (vy c) (vz c)) AxisX pVolZ pVolY
           else [])
          ++ (if (idxX >? 0)%Z
              then face (vec3 (vx (bmin pBounds)) (vy c) (vz c)) AxisX pVolZ
                        pVolY
              else [])
          ++ (if (idxY <? maxY)%Z
              then face (vec3 (vx c) (vy (bmax pBounds)) (vz c)) AxisY pVolX
                        pVolZ
              else [])
          ++ (if (idxY >? 0)%Z
              then face (vec3 (vx c) (vy (bmin pBounds)) (vz c)) AxisY pVolX
                        pVolZ
              else [])
          ++ (if (idxZ <? maxZ)%Z
              then face (vec3 (vx c) (vy c) (vz (bmax pBounds))) AxisZ pVolX
                        pVolY
              else [])
          ++ (if (idxZ >? 0)%Z
              then face (vec3 (vx c) (vy c) (vz (bmin pBounds))) AxisZ pVolX
                        pVolY
              else []))
  (* the index pairs, and the shape of the offsets *)
  /\ (forall n m dh dv, In (dh, dv) (candidateIndices n m)
                        <-> (0 <= dh <= n)%Z /\ (0 <= dv <= m)%Z)
  /\ (forall d n, offset (d + 1)%Z n - offset d n == s)
  /\ (forall d n, offset d n + offset (n - d)%Z n == 0).
Proof.
  intros s margin count offset faceW faceH countH countV centers accepted
         merged.
  destruct (addFeatures_layout B connectors s box size center faceAxis isPeg
              st t eq_refl) as (_ & Hlen & Hidle & Hfirst).
  assert (EpW : candidateCount previewW margin (effectiveSpacing connectors)
                = count previewW) by apply candidateCount_formula.
  assert (EpH : candidateCount previewH margin (effectiveSpacing connectors)
                = count previewH) by apply candidateCount_formula.
  pose proof (drawConnector_positions connectors (effectiveSpacing connectors)
                margin facePos faceAxis isPeg previewW previewH) as Hprev.
  cbv zeta in Hprev. rewrite EpW, EpH in Hprev.
  split; [exact Hlen|]. split; [exact Hidle|]. split; [exact Hfirst|].
  split; [exact Hprev|]. split; [|split; [|split; [|split]]].
  - rewrite <- (length_map pc_position), Hprev, length_map.
    apply candidateIndices_length; unfold count; lia.
  - intros slicingConfig pBounds idxX idxY idxZ maxX maxY maxZ Hon.
    exact (connectorPreview_layout connectors s slicingConfig pBounds idxX
             idxY idxZ maxX maxY maxZ eq_refl Hon).
  - intros n m dh dv. apply candidateIndices_In.
  - intros d n. apply (candidateOffset_step d n s).
  - intros d n. apply (candidateOffset_symmetric d n s).
Qed.

Lemma connector_candidate_grid_witness :
  let box := box3 (vec3 0 0 0) (vec3 120 100 100) in
  exists gs d,
    snd (run (addFeatures sampleBackend defaultConnectors box (getSize box)
                (getCenter box) AxisX true
                {| resultBrush := mkBrush (GMesh 1);
                   tempMeshGeometry := GMesh 1 |}))
    = EvNormalize (GMerge gs) :: d
    /\ List.length gs = 4%nat.
Proof.
  intros box.
  pose proof (connector_candidate_grid sampleBackend defaultConnectors AxisX
                true box (getSize box) (getCenter box)
                {| resultBrush := mkBrush (GMesh 1);
                   tempMeshGeometry := GMesh 1 |} [] (vec3 0 0 0) 100 100)
    as H.
  cbv zeta in H. destruct H as (_ & _ & Hfirst & _).
  destruct Hfirst as (o & d & E); [vm_compute; discriminate|].
  eexists _, d. unfold run. rewrite E.
  split; [reflexivity | vm_compute; reflexivity].
Defined.

(** C4 as stated fails below the spacing floor: with a configured spacing of
    2 and no margin, a 20 x 20 face gets 5 x 5 candidates where the
    configured spacing would give 11 x 11: [addFeatures] merges 25
    cylinders, and the preview draws 25. *)
Lemma candidate_grid_configured_spacing_fails :
  let claimed :=
    Z.max 0 (Qfloor ((20 - 2 * c_edgeMargin denseConnectors)
                     / c_spacing denseConnectors)) in
  ((claimed + 1) * (claimed + 1) = 121)%Z
  /\ (exists gs d,
        snd (run (addFeatures sampleBackend denseConnectors smallPartBounds
                    (getSize smallPartBounds) (getCenter smallPartBounds)
                    AxisX true
                    {| resultBrush := mkBrush (GMesh 1);
                       tempMeshGeometry := GMesh 1 |}))
        = EvNormalize (GMerge gs) :: d
        /\ Z.of_nat (List.length gs) = 25%Z)
  /\ Z.of_nat (List.length
       (addFeaturesCandidates denseConnectors smallPartBounds
          (getSize smallPartBounds) (getCenter smallPartBounds) AxisX true))
     <> ((claimed + 1) * (claimed + 1))%Z
  /\ Z.of_nat (List.length
       (connectorPreview denseConnectors smallEnvelope smallPartBounds
                         (0, 0, 0)%Z (1, 0, 0)%Z))
     <> ((claimed + 1) * (claimed + 1))%Z.
Proof.
  split; [reflexivity|]. split.
  - vm_compute. eexists _, _. split; reflexivity.
  - split; vm_compute; discriminate.
Qed.

(** C10.  The spacing that lays out connector candidates, in the synthesis
    and in the preview, is [max 5 spacing].  With a configured spacing of 5
    or less, [addFeatures] works on the candidate grid of spacing 5 (counts
    [max 0 (floor ((face - 2 margin) / 5))], offsets
    [d * 5 - count * 5 / 2]): it does nothing when no center of that grid is
    accepted and otherwise starts by normalizing the merged cylinders of the
    accepted ones; and the preview draws its cylinders on the grid of
    spacing 5.  With a configured spacing above 5 the same holds with the
    configured spacing. *)
Theorem spacing_floor_of_five (B : Backend) (connectors : ConnectorConfig) :
  let margin := c_edgeMargin connectors in
  let laidOut (s : Q) : Prop :=
    let count face := Z.max 0 (Qfloor ((face - 2 * margin) / s)) in
    let offset d n := inject_Z d * s - inject_Z n * s / 2 in
    (* synthesis *)
    (forall (box : Box3) (size center : Vector3) (faceAxis : Axis)
            (isPeg : bool) (st : ConnState) (t : list Event),
       let faceW := match faceAxis with
                    | AxisX => vz size | AxisY => vx size | AxisZ => vx size
                    end in
       let faceH := match faceAxis with
                    | AxisX => vy size | AxisY => vz size | AxisZ => vy size
                    end in
       let centers :=
         map (fun p =>
                let hOff := offset (fst p) (count faceW) in
                let vOff := offset (snd p) (count faceH) in
                match faceAxis with
                | AxisX => vec3 (if isPeg then vx (bmax box) else vx (bmin box))
                                (vy center + vOff) (vz center + hOff)
                | AxisY => vec3 (vx center + hOff)
                                (if isPeg then vy (bmax box) else vy (bmin box))
                                (vz center + vOff)
                | AxisZ => vec3 (vx center + hOff) (vy center + vOff)
                                (if isPeg then vz (bmax box) else vz (bmin box))
                end)
             (candidateIndices (count faceW) (count faceH)) in
       let accepted :=
         filter (fun c => isValidPlacement B (tempMeshGeometry st) c
                            (faceNormalOf faceAxis isPeg)
                            (c_length connectors * 0.7)) centers in
       let merged :=
         GMerge (map (fun c =>
                        GTranslate (connectorCylinder connectors faceAxis isPeg)
                                   (vx c) (vy c) (vz c)) accepted) in
       (accepted = [] ->
        addFeatures B connectors box size center faceAxis isPeg st t
        = (Ok st, t))
       /\ (accepted <> [] ->
           exists o d,
             addFeatures B connectors box size center faceAxis isPeg st t
             = (o, (t ++ [EvNormalize merged]) ++ d)))
    (* preview *)
    /\ (forall slicingConfig pBounds idxX idxY idxZ maxX maxY maxZ,
          c_enabled connectors && c_showInPreview connectors = true ->
          let face fPos (axis : Axis) fW fH :=
            map (fun p =>
                   let hOff := offset (fst p) (count fW) in
                   let vOff := offset (snd p) (count fH) in
                   addVec fPos
                     match axis with
                     | AxisX => vec3 0 vOff hOff
                     | AxisY => vec3 hOff 0 vOff
                     | AxisZ => vec3 hOff vOff 0
                     end)
                (candidateIndices (count fW) (count fH)) in
          let c := getCenter pBounds in
          let pVolX := printerX slicingConfig in
          let pVolY := printerY slicingConfig in
          let pVolZ := printerZ slicingConfig in
          map pc_position
              (connectorPreview connectors slicingConfig pBounds
                                (idxX, idxY, idxZ) (maxX, maxY, maxZ))
          = (if (idxX <? maxX)%Z
             then face (vec3 (vx (bmax pBounds)) (vy c) (vz c)) AxisX pVolZ
                       pVolY
             else [])
            ++ (if (idxX >? 0)%Z
                then face (vec3 (vx (bmin pBounds)) (vy c) (vz c)) AxisX pVolZ
                          pVolY
                else [])
            ++ (if (idxY <? maxY)%Z
                then face (vec3 (vx c) (vy (bmax pBounds)) (vz c)) AxisY pVolX
                          pVolZ
                else [])
            ++ (if (idxY >? 0)%Z
                then face (vec3 (vx c) (vy (bmin pBounds)) (vz c)) AxisY pVolX
                          pVolZ
                else [])
            ++ (if (idxZ <? maxZ)%Z
                then face (vec3 (vx c) (vy c) (vz (bmax pBounds))) AxisZ pVolX
                          pVolY
                else [])
            ++ (if (idxZ >? 0)%Z
                then face (vec3 (vx c) (vy c) (vz (bmin pBounds))) AxisZ pVolX
                          pVolY
                else [])) in
  (c_spacing connectors <= 5 -> laidOut 5)
  /\ (5 < c_spacing connectors -> laidOut (c_spacing connectors)).
Proof.
  intros margin laidOut.
  assert (Hs : forall s, effectiveSpacing connectors = s -> laidOut s).
  { intros s Es. split.
    - intros box size center faceAxis isPeg st t.
      destruct (addFeatures_layout B connectors s box size center faceAxis
                  isPeg st t Es) as (_ & _ & Hidle & Hfirst).
      split; [exact Hidle | exact Hfirst].
    - intros slicingConfig pBounds idxX idxY idxZ maxX maxY maxZ Hon.
      exact (connectorPreview_layout connectors s slicingConfig pBounds idxX
               idxY idxZ maxX maxY maxZ Es Hon). }
  split; intros H; apply Hs; unfold effectiveSpacing.
  - now apply Qmax_floor_at_most.
  - now apply Qmax_floor_large.
Qed.

Lemma spacing_floor_of_five_witness :
  c_spacing denseConnectors <= 5
  /\ exists gs d,
       snd (run (addFeatures sampleBackend denseConnectors smallPartBounds
                   (getSize smallPartBounds) (getCenter smallPartBounds)
                   AxisX true
                   {| resultBrush := mkBrush (GMesh 1);
                      tempMeshGeometry := GMesh 1 |}))
       = EvNormalize (GMerge gs) :: d.
Proof.
  assert (H : c_spacing denseConnectors <= 5) by (vm_compute; discriminate).
  split; [exact H|].
  destruct (proj1 (spacing_floor_of_five sampleBackend denseConnectors) H)
    as [Hsyn _].
  destruct (Hsyn smallPartBounds (getSize smallPartBounds)
              (getCenter smallPartBounds) AxisX true
              {| resultBrush := mkBrush (GMesh 1);
                 tempMeshGeometry := GMesh 1 |} []) as [_ Hfirst].
  destruct Hfirst as (o & d & E); [vm_compute; discriminate|].
  eexists _, d. unfold run. rewrite E. reflexivity.
Defined.

(** * Connectors of a part *)

(** When the merged cylinders make a brush and the evaluator applies it,
    the outcome is the part's new brush, or the old one when the outcome
    cannot be made into a brush. *)
Lemma addFeatures_applies (B : Backend) (connectors : ConnectorConfig)
    (box : Box3) (size center : Vector3) (faceAxis : Axis) (isPeg : bool)
    (st : ConnState) (t t1 t2 : list Event) (opBrush : Brush)
    (res : Geometry) (nb : option Brush) :
  let accepted :=
    filter (fun c => isValidPlacement B (tempMeshGeometry st) c
                       (faceNormalOf faceAxis isPeg)
                       (c_length connectors * 0.7))
           (addFeaturesCandidates connectors box size center faceAxis isPeg) in
  let merged :=
    GMerge (map (fun c => GTranslate (connectorCylinder connectors faceAxis isPeg)
                                     (vx c) (vy c) (vz c)) accepted) in
  accepted <> [] ->
  createBrush B merged t = (Ok (Some opBrush), t1) ->
  evaluate B (resultBrush st) opBrush (connectorOp isPeg) = Ok res ->
  createBrush B res (t1 ++ [EvEvaluate (resultBrush st) opBrush
                                       (connectorOp isPeg)]) = (Ok nb, t2) ->
  addFeatures B connectors box size center faceAxis isPeg st t
  = (Ok {| resultBrush := orElse nb (resultBrush st);
           tempMeshGeometry := brushGeometry (orElse nb (resultBrush st)) |},
     t2).
Proof.
  intros accepted merged Hne Hop Hev Hnb.
  pose proof (addFeatures_run B connectors box size center faceAxis isPeg st t)
    as Hrun.
  cbv zeta in Hrun. fold accepted in Hrun. fold merged in Hrun.
  destruct accepted as [|c l]; [now destruct Hne|].
  rewrite Hrun, (bind_ok _ _ _ _ _ Hop).
  unfold evaluateM. rewrite bind_assoc, bind_emit.
  unfold bind at 1. unfold liftOutcome. rewrite Hev.
  now rewrite (bind_ok _ _ _ _ _ Hnb).
Qed.

(** The tapering model: the lower part gets 2 x 2 pegs on its 100 x 100
    face, the upper part a single socket on its 60 x 60 face. *)
Example taper_features :
  List.length
    (featuresOf isAddition
       (snd (run (applyConnectors taperBackend (GMesh 1) 0 0 0 2 1 1
                    defaultSlicing defaultConnectors (vec3 0 0 0))))) = 4%nat
  /\ List.length
       (featuresOf isSubtraction
          (snd (run (applyConnectors taperBackend (GMesh 2) 1 0 0 2 1 1
                       defaultSlicing defaultConnectors (vec3 0 0 0)))))
     = 1%nat.
Proof. split; reflexivity. Qed.

(** C2, as amended.  For the part at cell [(ix, iy, iz)], [applyConnectors]
    runs [addFeatures] over the faces of [connectorPlan], in order: a peg
    face on each axis whose positive neighbour exists ([index + 1 < steps])
    and a socket face on each axis whose negative neighbour exists
    ([index > 0]), each face at most once.  On a face, [addFeatures] keeps
    the candidate centers that pass the placement check, all of them on the
    [box.max] side of the part for pegs and on the [box.min] side for
    sockets; without an accepted center it leaves the part as it is;
    otherwise it merges one cylinder per accepted center, of radius
    [diameter / 2] for pegs and [diameter / 2 + tolerance] for sockets, and
    the part becomes what the evaluator makes of adding (pegs) or
    subtracting (sockets) the merged cylinders; it never calls the evaluator
    with another operation.  So no face of a part gets both, and of two
    parts adjacent along an axis the lower one has the peg face and the
    upper one the socket face at their interface. *)
Theorem connector_faces_follow_neighbours (B : Backend)
    (connectors : ConnectorConfig) (ix iy iz stepsX stepsY stepsZ : Z) :
  let plan := connectorPlan ix iy iz stepsX stepsY stepsZ in
  let idx a := cellIndex a ix iy iz in
  let steps a := cellIndex a stepsX stepsY stepsZ in
  (forall geo config boundsMin t,
     applyConnectors B geo ix iy iz stepsX stepsY stepsZ config connectors
                     boundsMin t
     = bind (createBrush B geo) (fun rb =>
         match rb with
         | None => ret geo
         | Some rb =>
           let box := boundingBox B geo in
           bind (forEach plan
                   (fun f => addFeatures B connectors box (getSize box)
                                         (getCenter box) (fst f) (snd f))
                   {| resultBrush := rb; tempMeshGeometry := geo |})
                (fun st => ret (brushGeometry (resultBrush st)))
         end) t)
  /\ (forall a, In (a, true) plan <-> (idx a + 1 < steps a)%Z)
  /\ (forall a, In (a, false) plan <-> (idx a > 0)%Z)
  /\ NoDup plan
  /\ (forall (a : Axis) (isPeg : bool) (box : Box3) (size center : Vector3)
             (st : ConnState) (t : list Event),
        let r := if isPeg then c_diameter connectors / 2
                 else c_diameter connectors / 2 + c_tolerance connectors in
        let cyl := match a with
                   | AxisX => GRotateZ90 (GCylinder r r (c_length connectors) 16)
                   | AxisY => GCylinder r r (c_length connectors) 16
                   | AxisZ => GRotateX90 (GCylinder r r (c_length connectors) 16)
                   end in
        let op := if isPeg then ADDITION else SUBTRACTION in
        let normal := if isPeg then 1 else -1 in
        let s := Qmax 5 (c_spacing connectors) in
        let margin := c_edgeMargin connectors in
        let count face := Z.max 0 (Qfloor ((face - 2 * margin) / s)) in
        let offset d n := inject_Z d * s - inject_Z n * s / 2 in
        let faceW := match a with
                     | AxisX => vz size | AxisY => vx size | AxisZ => vx size
                     end in
        let faceH := match a with
                     | AxisX => vy size | AxisY => vz size | AxisZ => vy size
                     end in
        let centers :=
          map (fun p =>
                 let hOff := offset (fst p) (count faceW) in
                 let vOff := offset (snd p) (count faceH) in
                 match a with
                 | AxisX => vec3 (if isPeg then vx (bmax box) else vx (bmin box))
                                 (vy center + vOff) (vz center + hOff)
                 | AxisY => vec3 (vx center + hOff)
                                 (if isPeg then vy (bmax box) else vy (bmin box))
                                 (vz center + vOff)
                 | AxisZ => vec3 (vx center + hOff) (vy center + vOff)
                                 (if isPeg then vz (bmax box) else vz (bmin box))
                 end)
              (candidateIndices (count faceW) (count faceH)) in
        let accepted :=
          filter (fun c => isValidPlacement B (tempMeshGeometry st) c
                             match a with
                             | AxisX => vec3 normal 0 0
                             | AxisY => vec3 0 normal 0
                             | AxisZ => vec3 0 0 normal
                             end
                             (c_length connectors * 0.7))
                 centers in
        let merged :=
          GMerge (map (fun c => GTranslate cyl (vx c) (vy c) (vz c)) accepted) in
        (forall c,
           In c accepted ->
           coordinate a c = coordinate a (if isPeg then bmax box else bmin box))
        /\ (accepted = [] ->
            addFeatures B connectors box size center a isPeg st t = (Ok st, t))
        /\ (accepted <> [] ->
            forall opBrush t1 res nb t2,
              createBrush B merged t = (Ok (Some opBrush), t1) ->
              evaluate B (resultBrush st) opBrush op = Ok res ->
              createBrush B res (t1 ++ [EvEvaluate (resultBrush st) opBrush op])
              = (Ok nb, t2) ->
              addFeatures B connectors box size center a isPeg st t
              = (Ok {| resultBrush := orElse nb (resultBrush st);
                       tempMeshGeometry :=
                         brushGeometry (orElse nb (resultBrush st)) |},
                 t2))
        /\ emitsOnly
             (fun ev => match ev with
                        | EvEvaluate _ _ op' => op' = op
                        | EvNormalize _ | EvConsoleError _ => True
                        | _ => False
                        end)
             (addFeatures B connectors box size center a isPeg st))
  /\ (forall a,
        (0 <= idx a)%Z -> (idx a + 1 < steps a)%Z ->
        let upper :=
          connectorPlan (ix + stepAlong a AxisX) (iy + stepAlong a AxisY)
                        (iz + stepAlong a AxisZ) stepsX stepsY stepsZ in
        In (a, true) plan /\ In (a, false) upper).
Proof.
  intros plan idx steps.
  split; [intros; apply applyConnectors_plan|].
  split; [intros a; apply (connectorPlan_In _ _ _ _ _ _ a true)|].
  split; [intros a; apply (connectorPlan_In _ _ _ _ _ _ a false)|].
  split; [apply connectorPlan_NoDup|].
  split.
  - intros a isPeg box size center st t r cyl op normal s margin count offset
           faceW faceH centers accepted merged.
    assert (Ecyl : connectorCylinder connectors a isPeg = cyl)
      by (destruct a, isPeg; reflexivity).
    assert (Eop : connectorOp isPeg = op) by (destruct isPeg; reflexivity).
    assert (En : faceNormalOf a isPeg
                 = match a with
                   | AxisX => vec3 normal 0 0
                   | AxisY => vec3 0 normal 0
                   | AxisZ => vec3 0 0 normal
                   end) by (destruct a, isPeg; reflexivity).
    assert (Ecand : addFeaturesCandidates connectors box size center a isPeg
                    = centers)
      by exact (proj1 (addFeatures_layout B connectors s box size center a
                         isPeg st t eq_refl)).
    split; [|split; [|split]].
    + intros c Hc. unfold accepted in Hc. apply filter_In in Hc.
      destruct Hc as [Hc _]. rewrite <- Ecand in Hc.
      unfold addFeaturesCandidates, faceCandidates in Hc.
      apply in_map_iff in Hc. destruct Hc as (p & <- & _).
      apply candidate_on_face.
    + intros E.
      pose proof (addFeatures_run B connectors box size center a isPeg st t)
        as Hrun.
      cbv zeta in Hrun. rewrite En, Ecand in Hrun. fold accepted in Hrun.
      now rewrite E in Hrun.
    + intros Hne opBrush t1 res nb t2 Hop Hev Hnb.
      pose proof (addFeatures_applies B connectors box size center a isPeg st
                    t t1 t2 opBrush res nb) as Happ.
      cbv zeta in Happ. rewrite En, Ecyl, Eop, Ecand in Happ.
      now apply Happ.
    + eapply emitsOnly_weaken; [|apply addFeatures_emits].
      intros [] H; simpl in *; exact H.
  - intros a H0 H1 upper. split.
    + now apply (connectorPlan_In _ _ _ _ _ _ a true).
    + apply (connectorPlan_In _ _ _ _ _ _ a false).
      subst idx steps. destruct a; simpl in *; lia.
Qed.

Lemma connector_faces_follow_neighbours_witness :
  let box := box3 (vec3 0 0 0) (vec3 120 100 100) in
  (exists st' t',
     addFeatures sampleBackend defaultConnectors box (getSize box)
                 (getCenter box) AxisX true
                 {| resultBrush := mkBrush (GMesh 0);
                    tempMeshGeometry := GMesh 0 |} []
     = (Ok st', t')
     /\ resultBrush st' = mkBrush (GMesh 1))
  /\ In (AxisX, true) (connectorPlan 0 0 0 2 1 1)
  /\ In (AxisX, false) (connectorPlan 1 0 0 2 1 1).
Proof.
  intros box.
  pose proof (connector_faces_follow_neighbours sampleBackend
                defaultConnectors 0 0 0 2 1 1) as H.
  cbv zeta in H. destruct H as (_ & _ & _ & _ & Hface & Hadj).
  split.
  - destruct (Hface AxisX true box (getSize box) (getCenter box)
                {| resultBrush := mkBrush (GMesh 0);
                   tempMeshGeometry := GMesh 0 |} [])
      as (_ & _ & Hadd & _).
    eexists _, _. split.
    + eapply Hadd.
      * vm_compute. discriminate.
      * vm_compute. reflexivity.
      * vm_compute. reflexivity.
      * vm_compute. reflexivity.
    + reflexivity.
  - assert (H0 : (0 <= cellIndex AxisX 0 0 0)%Z) by (simpl; lia).
    assert (H1 : (cellIndex AxisX 0 0 0 + 1 < cellIndex AxisX 2 1 1)%Z)
      by (simpl; lia).
    exact (Hadj AxisX H0 H1).
Defined.

(** C2 as stated fails where it promises the matching socket: candidate
    centers are laid out on each part from its own bounding box.  On a
    tapering model cut in two along X, the lower part gets four pegs on the
    interface and the upper part one socket, and no peg has a socket at its
    place. *)
Lemma pegs_without_matching_sockets :
  let lower :=
    snd (run (applyConnectors taperBackend (GMesh 1) 0 0 0 2 1 1
                defaultSlicing defaultConnectors (vec3 0 0 0))) in
  let upper :=
    snd (run (applyConnectors taperBackend (GMesh 2) 1 0 0 2 1 1
                defaultSlicing defaultConnectors (vec3 0 0 0))) in
  let pegs := featuresOf isAddition lower in
  let sockets := featuresOf isSubtraction upper in
  List.length pegs = 4%nat
  /\ List.length sockets = 1%nat
  /\ forallb (fun p => Qeq_bool (vx p) 120) (pegs ++ sockets) = true
  /\ forallb (fun p => negb (existsb (sameSpot p) sockets)) pegs = true.
Proof. repeat split; reflexivity. Qed.

(** * Failures inside a cell *)

(** An evaluator exception in the label union does not reach the cell's
    handler: [applyLabel] absorbs it, and the cell goes on to add its part,
    unlabelled, without logging anything. *)
Lemma gridCell_label_failure (B : Backend) (baseBrush : Brush)
    (size min : Vector3) (stepsX stepsY stepsZ total : Z)
    (config : SlicingConfig) (connectors : ConnectorConfig)
    (labels : LabelConfig) (baseName : string) (ix iy iz : Z) (st : LoopState)
    (t t1 t2 t3 t4 t5 : list Event) (boxBrush partBrush labelBrush : Brush)
    (res finalGeo g : Geometry) (n : Z) (e : Error) :
  let w := gridCellSize (vx size) (printerX config) stepsX ix in
  let h := gridCellSize (vy size) (printerY config) stepsY iy in
  let d := gridCellSize (vz size) (printerZ config) stepsZ iz in
  let progress :=
    EvProgress ("Slicing Fragment " ++ numToString (current st + 1) ++ "/"
                  ++ numToString total ++ "...") in
  let bounds := boundingBox B finalGeo in
  let plateGeo :=
    GTranslate
      (GBox (l_plateSize labels) (l_thickness labels) (l_plateSize labels / 2))
      (vx (getCenter bounds)) (vy (bmin bounds) + l_thickness labels / 2)
      (vz (getCenter bounds)) in
  degenerate w h d = false ->
  createBrush B (gridBoxGeo min config ix iy iz w h d)
              ((t ++ [progress]) ++ [EvYield]) = (Ok (Some boxBrush), t1) ->
  evaluate B baseBrush boxBrush INTERSECTION = Ok res ->
  positionCount B res = Some n -> (n > 0)%Z ->
  (if c_enabled connectors
   then applyConnectors B res ix iy iz stepsX stepsY stepsZ config connectors
                        min
   else ret res) (t1 ++ [EvEvaluate baseBrush boxBrush INTERSECTION])
  = (Ok finalGeo, t2) ->
  l_enabled labels = true ->
  createBrush B finalGeo t2 = (Ok (Some partBrush), t3) ->
  createBrush B plateGeo t3 = (Ok (Some labelBrush), t4) ->
  evaluate B partBrush labelBrush ADDITION = Throw e ->
  ensureValidForCSG B finalGeo (t4 ++ [EvEvaluate partBrush labelBrush ADDITION])
  = (Ok g, t5) ->
  gridCell B baseBrush size min stepsX stepsY stepsZ total config connectors
           labels baseName ix iy iz st t
  = (Ok {| current := current st + 1;
           parts := parts st
                    ++ [{| geometry := g;
                           name := gridPartName baseName ix iy iz;
                           index := (ix, iy, iz) |}] |},
     t5)
  /\ t5 = (t4 ++ [EvEvaluate partBrush labelBrush ADDITION])
          ++ [EvNormalize finalGeo].
Proof.
  intros w h d progress bounds plateGeo Hdeg Hbox Hint Hn Hpos Hconn Hlab
         Hpart Hplate Hthrow Hvalid.
  split.
  - unfold gridCell. cbv zeta. rewrite !bind_emit.
    fold w h d. rewrite Hdeg. simpl current. fold progress.
    rewrite (bind_ok _ _ _ _ _ Hbox).
    assert (Htry :
      gridCellTry B baseBrush boxBrush ix iy iz stepsX stepsY stepsZ min config
        connectors labels baseName
        {| current := current st + 1; parts := parts st |} t1
      = (Ok {| current := current st + 1;
               parts := parts st
                        ++ [{| geometry := g;
                               name := gridPartName baseName ix iy iz;
                               index := (ix, iy, iz) |}] |}, t5)).
    { unfold gridCellTry, evaluateM. rewrite bind_assoc, bind_emit.
      unfold bind at 1. unfold liftOutcome. rewrite Hint.
      unfold getPositionCount. rewrite Hn. unfold bind at 1. unfold ret at 1.
      destruct (Z.gtb_spec n 0) as [_|Hle]; [|lia].
      rewrite (bind_ok _ _ _ _ _ Hconn). rewrite Hlab.
      assert (Hl : applyLabel B finalGeo ix iy iz labels t2
                   = (Ok finalGeo,
                      t4 ++ [EvEvaluate partBrush labelBrush ADDITION])).
      { unfold applyLabel. cbv zeta. rewrite (bind_ok _ _ _ _ _ Hpart).
        fold bounds. fold plateGeo. rewrite (bind_ok _ _ _ _ _ Hplate).
        unfold tryCatch, evaluateM. rewrite bind_emit.
        unfold liftOutcome. now rewrite Hthrow. }
      rewrite (bind_ok _ _ _ _ _ Hl), (bind_ok _ _ _ _ _ Hvalid).
      reflexivity. }
    now rewrite (tryCatch_ok _ _ _ _ _ Htry).
  - unfold ensureValidForCSG in Hvalid. rewrite bind_emit in Hvalid.
    destruct (positionCount B finalGeo) as [m|].
    + destruct (m =? 0)%Z; [now inversion Hvalid|].
      unfold liftOutcome in Hvalid. now inversion Hvalid.
    + now inversion Hvalid.
Qed.

Lemma returnsOnly_emitsOnly {A} (P : Event -> Prop) (m : M A) :
  emitsOnly P m -> returnsOnly P m.
Proof.
  intros Hm t a t' E. destruct (Hm t) as (d & Hd & HP).
  rewrite E in Hd. now exists d.
Qed.

Lemma returnsOnly_bind {A C} (P : Event -> Prop) (m : M A) (k : A -> M C) :
  returnsOnly P m -> (forall a, returnsOnly P (k a)) -> returnsOnly P (bind m k).
Proof.
  intros Hm Hk t c t' E. unfold bind in E.
  destruct (m t) as [[a|e] t1] eqn:Em; [|discriminate].
  destruct (Hm t a t1 Em) as (d1 & -> & H1).
  destruct (Hk a _ c t' E) as (d2 & -> & H2).
  exists (d1 ++ d2). split; [now rewrite app_assoc|].
  apply Forall_app. now split.
Qed.

Lemma returnsOnly_forEach {I S} (P : Event -> Prop) (l : list I)
    (body : I -> S -> M S) :
  (forall i s, returnsOnly P (body i s)) ->
  forall s, returnsOnly P (forEach l body s).
Proof.
  intros Hb. induction l as [|i l IH]; intros s; simpl.
  - apply returnsOnly_emitsOnly, emitsOnly_ret.
  - apply returnsOnly_bind; [apply Hb | exact IH].
Qed.

Lemma returnsOnly_evaluateM (B : Backend) (a b : Brush) (op : Operation) :
  returnsOnly (evaluatorReturned B) (evaluateM B a b op).
Proof.
  intros t res t' E. unfold evaluateM in E. rewrite bind_emit in E.
  unfold liftOutcome in E.
  destruct (evaluate B a b op) as [res'|e] eqn:Ev; [|discriminate].
  inversion E; subst. exists [EvEvaluate a b op]. split; [reflexivity|].
  constructor; [|constructor]. simpl. now exists res.
Qed.

Lemma returnsOnly_createBrush (B : Backend) (g : Geometry) :
  returnsOnly (evaluatorReturned B) (createBrush B g).
Proof.
  apply returnsOnly_emitsOnly, emitsOnly_createBrush; intros; exact I.
Qed.

(** When [addFeatures] returns, every evaluator call it made returned: it
    has no handler of its own. *)
Lemma addFeatures_returns (B : Backend) (connectors : ConnectorConfig)
    (box : Box3) (size center : Vector3) (faceAxis : Axis) (isPeg : bool)
    (st : ConnState) :
  returnsOnly (evaluatorReturned B)
              (addFeatures B connectors box size center faceAxis isPeg st).
Proof.
  unfold addFeatures. destruct (faceExtents faceAxis size) as [faceW faceH].
  cbv zeta.
  match goal with |- returnsOnly _ (if ?c then _ else _) => destruct c end;
    [|apply returnsOnly_emitsOnly, emitsOnly_ret].
  apply returnsOnly_bind; [apply returnsOnly_createBrush|].
  intros [opBrush|]; [|apply returnsOnly_emitsOnly, emitsOnly_ret].
  apply returnsOnly_bind; [apply returnsOnly_evaluateM|]. intros res.
  apply returnsOnly_bind; [apply returnsOnly_createBrush|]. intros nb.
  apply returnsOnly_emitsOnly, emitsOnly_ret.
Qed.

Lemma applyConnectors_returns (B : Backend) (geo : Geometry)
    (ix iy iz stepsX stepsY stepsZ : Z) (config : SlicingConfig)
    (connectors : ConnectorConfig) (boundsMin : Vector3) :
  returnsOnly (evaluatorReturned B)
              (applyConnectors B geo ix iy iz stepsX stepsY stepsZ config
                               connectors boundsMin).
Proof.
  intros t a t' E. rewrite applyConnectors_plan in E. revert t a t' E.
  apply returnsOnly_bind; [apply returnsOnly_createBrush|].
  intros [rb|]; [|apply returnsOnly_emitsOnly, emitsOnly_ret]. cbv zeta.
  apply returnsOnly_bind; [|intros; apply returnsOnly_emitsOnly, emitsOnly_ret].
  apply returnsOnly_forEach. intros [a isPeg] s. apply addFeatures_returns.
Qed.

(** An evaluator exception during the connector synthesis of a cell leaves
    [applyConnectors]. *)
Lemma applyConnectors_throws (B : Backend) (geo : Geometry)
    (ix iy iz stepsX stepsY stepsZ : Z) (config : SlicingConfig)
    (connectors : ConnectorConfig) (boundsMin : Vector3)
    (t d : list Event) (a b : Brush) (op : Operation) (e : Error) :
  snd (applyConnectors B geo ix iy iz stepsX stepsY stepsZ config connectors
                       boundsMin t) = t ++ d ->
  In (EvEvaluate a b op) d ->
  evaluate B a b op = Throw e ->
  exists e',
    applyConnectors B geo ix iy iz stepsX stepsY stepsZ config connectors
                    boundsMin t = (Throw e', t ++ d).
Proof.
  intros Hd Hin Hthrow.
  destruct (applyConnectors B geo ix iy iz stepsX stepsY stepsZ config
              connectors boundsMin t) as [[g|e'] t'] eqn:E; simpl in Hd; subst t'.
  - destruct (applyConnectors_returns _ _ _ _ _ _ _ _ _ _ _ _ _ _ E)
      as (d' & Hd' & HP).
    apply app_inv_head in Hd'. subst d'.
    rewrite Forall_forall in HP. specialize (HP _ Hin). simpl in HP.
    destruct HP as [res Hres]. congruence.
  - now exists e'.
Qed.

(** An evaluator exception in the intersection of a grid cell is caught by
    the cell's handler and logged; the cell adds no part. *)
Lemma gridCell_intersection_failure (B : Backend) (baseBrush : Brush)
    (size min : Vector3) (stepsX stepsY stepsZ total : Z)
    (config : SlicingConfig) (connectors : ConnectorConfig)
    (labels : LabelConfig) (baseName : string) (ix iy iz : Z) (st : LoopState)
    (t t1 : list Event) (boxBrush : Brush) (e : Error) :
  let w := gridCellSize (vx size) (printerX config) stepsX ix in
  let h := gridCellSize (vy size) (printerY config) stepsY iy in
  let d := gridCellSize (vz size) (printerZ config) stepsZ iz in
  let visited := {| current := current st + 1; parts := parts st |} in
  let progress :=
    EvProgress ("Slicing Fragment " ++ numToString (current st + 1) ++ "/"
                  ++ numToString total ++ "...") in
  degenerate w h d = false ->
  createBrush B (gridBoxGeo min config ix iy iz w h d)
              ((t ++ [progress]) ++ [EvYield]) = (Ok (Some boxBrush), t1) ->
  evaluate B baseBrush boxBrush INTERSECTION = Throw e ->
  gridCell B baseBrush size min stepsX stepsY stepsZ total config connectors
           labels baseName ix iy iz st t
  = (Ok visited,
     (t1 ++ [EvEvaluate baseBrush boxBrush INTERSECTION])
     ++ [EvConsoleError ("Fragment " ++ numToString (current st + 1)
                           ++ " processing failed:")]).
Proof.
  intros w h d visited progress Hdeg Hbox Hev.
  apply (gridCell_catches B baseBrush size min stepsX stepsY stepsZ total
           config connectors labels baseName ix iy iz st t t1 _ boxBrush e);
    try assumption.
  unfold gridCellTry, evaluateM. rewrite bind_assoc, bind_emit.
  unfold liftOutcome, bind at 1. now rewrite Hev.
Qed.

(** An evaluator exception during the connector synthesis of a grid cell is
    caught by the cell's handler and logged; the cell adds no part. *)
Lemma gridCell_connector_failure (B : Backend) (baseBrush : Brush)
    (size min : Vector3) (stepsX stepsY stepsZ total : Z)
    (config : SlicingConfig) (connectors : ConnectorConfig)
    (labels : LabelConfig) (baseName : string) (ix iy iz : Z) (st : LoopState)
    (t t1 dc : list Event) (boxBrush a b : Brush) (op : Operation)
    (res : Geometry) (n : Z) (e : Error) :
  let w := gridCellSize (vx size) (printerX config) stepsX ix in
  let h := gridCellSize (vy size) (printerY config) stepsY iy in
  let d := gridCellSize (vz size) (printerZ config) stepsZ iz in
  let visited := {| current := current st + 1; parts := parts st |} in
  let progress :=
    EvProgress ("Slicing Fragment " ++ numToString (current st + 1) ++ "/"
                  ++ numToString total ++ "...") in
  let t0 := t1 ++ [EvEvaluate baseBrush boxBrush INTERSECTION] in
  degenerate w h d = false ->
  createBrush B (gridBoxGeo min config ix iy iz w h d)
              ((t ++ [progress]) ++ [EvYield]) = (Ok (Some boxBrush), t1) ->
  evaluate B baseBrush boxBrush INTERSECTION = Ok res ->
  positionCount B res = Some n -> (n > 0)%Z ->
  c_enabled connectors = true ->
  snd (applyConnectors B res ix iy iz stepsX stepsY stepsZ config connectors
                       min t0) = t0 ++ dc ->
  In (EvEvaluate a b op) dc ->
  evaluate B a b op = Throw e ->
  gridCell B baseBrush size min stepsX stepsY stepsZ total config connectors
           labels baseName ix iy iz st t
  = (Ok visited,
     (t0 ++ dc)
     ++ [EvConsoleError ("Fragment " ++ numToString (current st + 1)
                           ++ " processing failed:")]).
Proof.
  intros w h d visited progress t0 Hdeg Hbox Hev Hcount Hn Hen Hd Hin Hthrow.
  destruct (applyConnectors_throws B res ix iy iz stepsX stepsY stepsZ config
              connectors min t0 dc a b op e Hd Hin Hthrow) as [e' Hconn].
  apply (gridCell_catches B baseBrush size min stepsX stepsY stepsZ total
           config connectors labels baseName ix iy iz st t t1 _ boxBrush e');
    try assumption.
  unfold gridCellTry, evaluateM. rewrite bind_assoc, bind_emit.
  unfold liftOutcome, bind at 1. rewrite Hev.
  unfold getPositionCount, bind at 1. rewrite Hcount. unfold ret at 1.
  destruct (Z.gtb_spec n 0) as [_|Hle]; [|lia].
  rewrite Hen. now apply bind_throw.
Qed.

(** An evaluator exception in the intersection of a manual cell is caught by
    the cell's handler and logged; the cell adds no part. *)
Lemma manualCell_intersection_failure (B : Backend) (baseBrush : Brush)
    (min : Vector3) (baseName : string) (ix : Z) (w offsetX : Q) (iy : Z)
    (h offsetY : Q) (iz : Z) (d : Q) (st : LoopState) (offsetZ : Q)
    (t t1 : list Event) (boxBrush : Brush) (e : Error) :
  let visited := {| current := current st + 1; parts := parts st |} in
  let progress :=
    EvProgress ("Cutting Fragment " ++ numToString (current st + 1) ++ "...") in
  degenerate w h d = false ->
  createBrush B (manualBoxGeo min offsetX offsetY offsetZ w h d)
              ((t ++ [progress]) ++ [EvYield]) = (Ok (Some boxBrush), t1) ->
  evaluate B baseBrush boxBrush INTERSECTION = Throw e ->
  manualCell B baseBrush min baseName ix w offsetX iy h offsetY iz d
             (st, offsetZ) t
  = (Ok (visited, offsetZ + d),
     (t1 ++ [EvEvaluate baseBrush boxBrush INTERSECTION])
     ++ [EvConsoleError "Manual cut failure:"]).
Proof.
  intros visited progress Hdeg Hbox Hev.
  apply (manualCell_catches B baseBrush min baseName ix w offsetX iy h offsetY
           iz d st offsetZ t t1 _ boxBrush e); try assumption.
  unfold manualCellTry, evaluateM. rewrite bind_assoc, bind_emit.
  unfold liftOutcome, bind at 1. now rewrite Hev.
Qed.

(** C8, as amended.  In both modes an exception that escapes the [try] block
    of a cell is caught and logged; the cell then adds no part and hands the
    loop state on.  This is what happens to an evaluator exception in the
    cell's intersection and, in grid mode, to one during its connector
    synthesis.  An evaluator exception in the label union does not escape:
    the cell adds its part without the label, and nothing is logged.  A cell
    always completes, leaving the parts of earlier cells in place and adding
    at most its own; so the loops visit every cell, and once the base brush
    is built (in grid mode: with positive envelope sizes and at most 500
    cells) a run returns its parts and never throws. *)
Theorem cell_failure_is_isolated (B : Backend) (baseBrush : Brush)
    (config : SlicingConfig) (connectors : ConnectorConfig)
    (labels : LabelConfig) (baseName : string) (min : Vector3) :
  (* grid mode *)
  (forall size stepsX stepsY stepsZ total ix iy iz st t t1 t2 boxBrush e,
     let w := gridCellSize (vx size) (printerX config) stepsX ix in
     let h := gridCellSize (vy size) (printerY config) stepsY iy in
     let d := gridCellSize (vz size) (printerZ config) stepsZ iz in
     let visited := {| current := current st + 1; parts := parts st |} in
     let progress :=
       EvProgress ("Slicing Fragment " ++ numToString (current st + 1) ++ "/"
                     ++ numToString total ++ "...") in
     degenerate w h d = false ->
     createBrush B (gridBoxGeo min config ix iy iz w h d)
                 ((t ++ [progress]) ++ [EvYield]) = (Ok (Some boxBrush), t1) ->
     gridCellTry B baseBrush boxBrush ix iy iz stepsX stepsY stepsZ min config
                 connectors labels baseName visited t1 = (Throw e, t2) ->
     gridCell B baseBrush size min stepsX stepsY stepsZ total config connectors
              labels baseName ix iy iz st t
     = (Ok visited,
        t2 ++ [EvConsoleError ("Fragment " ++ numToString (current st + 1)
                                 ++ " processing failed:")]))
  /\ (forall size stepsX stepsY stepsZ total ix iy iz st t t1 boxBrush e,
        let w := gridCellSize (vx size) (printerX config) stepsX ix in
        let h := gridCellSize (vy size) (printerY config) stepsY iy in
        let d := gridCellSize (vz size) (printerZ config) stepsZ iz in
        let visited := {| current := current st + 1; parts := parts st |} in
        let progress :=
          EvProgress ("Slicing Fragment " ++ numToString (current st + 1) ++ "/"
                        ++ numToString total ++ "...") in
        degenerate w h d = false ->
        createBrush B (gridBoxGeo min config ix iy iz w h d)
                    ((t ++ [progress]) ++ [EvYield]) = (Ok (Some boxBrush), t1) ->
        evaluate B baseBrush boxBrush INTERSECTION = Throw e ->
        gridCell B baseBrush size min stepsX stepsY stepsZ total config
                 connectors labels baseName ix iy iz st t
        = (Ok visited,
           (t1 ++ [EvEvaluate baseBrush boxBrush INTERSECTION])
           ++ [EvConsoleError ("Fragment " ++ numToString (current st + 1)
                                 ++ " processing failed:")]))
  /\ (forall size stepsX stepsY stepsZ total ix iy iz st t t1 dc boxBrush a b
             op res n e,
        let w := gridCellSize (vx size) (printerX config) stepsX ix in
        let h := gridCellSize (vy size) (printerY config) stepsY iy in
        let d := gridCellSize (vz size) (printerZ config) stepsZ iz in
        let visited := {| current := current st + 1; parts := parts st |} in
        let progress :=
          EvProgress ("Slicing Fragment " ++ numToString (current st + 1) ++ "/"
                        ++ numToString total ++ "...") in
        let t0 := t1 ++ [EvEvaluate baseBrush boxBrush INTERSECTION] in
        degenerate w h d = false ->
        createBrush B (gridBoxGeo min config ix iy iz w h d)
                    ((t ++ [progress]) ++ [EvYield]) = (Ok (Some boxBrush), t1) ->
        evaluate B baseBrush boxBrush INTERSECTION = Ok res ->
        positionCount B res = Some n -> (n > 0)%Z ->
        c_enabled connectors = true ->
        snd (applyConnectors B res ix iy iz stepsX stepsY stepsZ config
                             connectors min t0) = t0 ++ dc ->
        In (EvEvaluate a b op) dc ->
        evaluate B a b op = Throw e ->
        gridCell B baseBrush size min stepsX stepsY stepsZ total config
                 connectors labels baseName ix iy iz st t
        = (Ok visited,
           (t0 ++ dc)
           ++ [EvConsoleError ("Fragment " ++ numToString (current st + 1)
                                 ++ " processing failed:")]))
  /\ (forall size stepsX stepsY stepsZ total ix iy iz st t t1 t2 t3 t4 t5
             boxBrush partBrush labelBrush res finalGeo g n e,
        let w := gridCellSize (vx size) (printerX config) stepsX ix in
        let h := gridCellSize (vy size) (printerY config) stepsY iy in
        let d := gridCellSize (vz size) (printerZ config) stepsZ iz in
        let progress :=
          EvProgress ("Slicing Fragment " ++ numToString (current st + 1) ++ "/"
                        ++ numToString total ++ "...") in
        let bounds := boundingBox B finalGeo in
        let plateGeo :=
          GTranslate
            (GBox (l_plateSize labels) (l_thickness labels)
                  (l_plateSize labels / 2))
            (vx (getCenter bounds)) (vy (bmin bounds) + l_thickness labels / 2)
            (vz (getCenter bounds)) in
        degenerate w h d = false ->
        createBrush B (gridBoxGeo min config ix iy iz w h d)
                    ((t ++ [progress]) ++ [EvYield]) = (Ok (Some boxBrush), t1) ->
        evaluate B baseBrush boxBrush INTERSECTION = Ok res ->
        positionCount B res = Some n -> (n > 0)%Z ->
        (if c_enabled connectors
         then applyConnectors B res ix iy iz stepsX stepsY stepsZ config
                              connectors min
         else ret res) (t1 ++ [EvEvaluate baseBrush boxBrush INTERSECTION])
        = (Ok finalGeo, t2) ->
        l_enabled labels = true ->
        createBrush B finalGeo t2 = (Ok (Some partBrush), t3) ->
        createBrush B plateGeo t3 = (Ok (Some labelBrush), t4) ->
        evaluate B partBrush labelBrush ADDITION = Throw e ->
        ensureValidForCSG B finalGeo
                          (t4 ++ [EvEvaluate partBrush labelBrush ADDITION])
        = (Ok g, t5) ->
        gridCell B baseBrush size min stepsX stepsY stepsZ total config
                 connectors labels baseName ix iy iz st t
        = (Ok {| current := current st + 1;
                 parts := parts st
                          ++ [{| geometry := g;
                                 name := gridPartName baseName ix iy iz;
                                 index := (ix, iy, iz) |}] |},
           t5)
        /\ t5 = (t4 ++ [EvEvaluate partBrush labelBrush ADDITION])
                ++ [EvNormalize finalGeo])
  /\ (forall size stepsX stepsY stepsZ total ix iy iz st t,
      exists st' t',
        gridCell B baseBrush size min stepsX stepsY stepsZ total config
                 connectors labels baseName ix iy iz st t = (Ok st', t')
        /\ (st' = {| current := current st + 1; parts := parts st |}
            \/ exists g,
                 st' = {| current := current st + 1;
                          parts := parts st
                                   ++ [{| geometry := g;
                                          name := gridPartName baseName ix iy iz;
                                          index := (ix, iy, iz) |}] |}))
  /\ (forall size stepsX stepsY stepsZ total st t,
      exists st' t',
        gridLoops B baseBrush size min stepsX stepsY stepsZ total config
                  connectors labels baseName st t = (Ok st', t')
        /\ current st'
           = (current st
              + Z.of_nat (Z.to_nat stepsX * (Z.to_nat stepsY * (Z.to_nat stepsZ * 1))))%Z
        /\ exists added, parts st' = parts st ++ added)
  /\ (forall geometry bounds hollow base t1,
        0 < printerX config -> 0 < printerY config -> 0 < printerZ config ->
        (gridSteps (vx (getSize bounds)) (printerX config)
         * gridSteps (vy (getSize bounds)) (printerY config)
         * gridSteps (vz (getSize bounds)) (printerZ config) <= 500)%Z ->
        run (createBrush B geometry) = (Ok (Some base), t1) ->
        exists ps t',
          run (performGridSlice B geometry bounds config connectors hollow
                                labels baseName) = (Ok ps, t'))
  (* manual mode *)
  /\ (forall ix w offsetX iy h offsetY iz d st offsetZ t t1 t2 boxBrush e,
        let visited := {| current := current st + 1; parts := parts st |} in
        let progress :=
          EvProgress ("Cutting Fragment " ++ numToString (current st + 1)
                        ++ "...") in
        degenerate w h d = false ->
        createBrush B (manualBoxGeo min offsetX offsetY offsetZ w h d)
                    ((t ++ [progress]) ++ [EvYield]) = (Ok (Some boxBrush), t1) ->
        manualCellTry B baseBrush boxBrush ix iy iz baseName visited t1
        = (Throw e, t2) ->
        manualCell B baseBrush min baseName ix w offsetX iy h offsetY iz d
                   (st, offsetZ) t
        = (Ok (visited, offsetZ + d),
           t2 ++ [EvConsoleError "Manual cut failure:"]))
  /\ (forall ix w offsetX iy h offsetY iz d st offsetZ t t1 boxBrush e,
        let visited := {| current := current st + 1; parts := parts st |} in
        let progress :=
          EvProgress ("Cutting Fragment " ++ numToString (current st + 1)
                        ++ "...") in
        degenerate w h d = false ->
        createBrush B (manualBoxGeo min offsetX offsetY offsetZ w h d)
                    ((t ++ [progress]) ++ [EvYield]) = (Ok (Some boxBrush), t1) ->
        evaluate B baseBrush boxBrush INTERSECTION = Throw e ->
        manualCell B baseBrush min baseName ix w offsetX iy h offsetY iz d
                   (st, offsetZ) t
        = (Ok (visited, offsetZ + d),
           (t1 ++ [EvEvaluate baseBrush boxBrush INTERSECTION])
           ++ [EvConsoleError "Manual cut failure:"]))
  /\ (forall ix w offsetX iy h offsetY iz d st offsetZ t,
      exists st' t',
        manualCell B baseBrush min baseName ix w offsetX iy h offsetY iz d
                   (st, offsetZ) t = (Ok (st', offsetZ + d), t')
        /\ (st' = {| current := current st + 1; parts := parts st |}
            \/ exists g,
                 st' = {| current := current st + 1;
                          parts := parts st
                                   ++ [{| geometry := g;
                                          name := manualPartName baseName ix iy iz;
                                          index := (ix, iy, iz) |}] |}))
  /\ (forall splitsX splitsY splitsZ st t,
      exists st' t',
        manualLoops B baseBrush min baseName splitsX splitsY splitsZ st t
        = (Ok st', t')
        /\ current st'
           = (current st
              + Z.of_nat (List.length splitsX
                          * (List.length splitsY * (List.length splitsZ * 1))))%Z
        /\ exists added, parts st' = parts st ++ added)
  /\ (forall geometry bounds hollow base t1,
        run (createBrush B geometry) = (Ok (Some base), t1) ->
        exists ps t',
          run (performManualSlice B geometry bounds config connectors hollow
                                  labels baseName) = (Ok ps, t')).
Proof.
  split; [intros; now apply gridCell_catches with (t1 := t1) (boxBrush := boxBrush) (e := e)|].
  split; [intros; now apply gridCell_intersection_failure with (e := e)|].
  split.
  { intros size stepsX stepsY stepsZ total ix iy iz st t t1 dc boxBrush a b op
           res n e.
    exact (gridCell_connector_failure B baseBrush size min stepsX stepsY
             stepsZ total config connectors labels baseName ix iy iz st t t1
             dc boxBrush a b op res n e). }
  split.
  { intros size stepsX stepsY stepsZ total ix iy iz st t t1 t2 t3 t4 t5
           boxBrush partBrush labelBrush res finalGeo g n e.
    exact (gridCell_label_failure B baseBrush size min stepsX stepsY stepsZ
             total config connectors labels baseName ix iy iz st t t1 t2 t3 t4
             t5 boxBrush partBrush labelBrush res finalGeo g n e). }
  split; [intros; apply gridCell_total|].
  split; [intros; apply gridLoops_total|].
  split; [intros; now apply performGridSlice_total with (baseBrush := base) (t1 := t1)|].
  split; [intros; now apply manualCell_catches with (t1 := t1) (boxBrush := boxBrush) (e := e)|].
  split; [intros; now apply manualCell_intersection_failure with (e := e)|].
  split; [intros; apply manualCell_total|].
  split; [intros; apply manualLoops_total|].
  intros; now apply performManualSlice_total with (baseBrush := base) (t1 := t1).
Qed.

Lemma cell_failure_is_isolated_witness :
  (exists tr,
     gridCell flakyBackend (mkBrush (GMesh 0)) (getSize demoBounds)
              (bmin demoBounds) 2 2 2 8 defaultSlicing defaultConnectors
              defaultLabels "demo" 0 0 0 {| current := 0; parts := [] |} []
     = (Ok {| current := 0 + 1; parts := [] |},
        tr ++ [EvConsoleError "Fragment 1 processing failed:"]))
  /\ (exists ps t,
        run (performGridSlice flakyBackend (GMesh 0) demoBounds defaultSlicing
               defaultConnectors defaultHollow defaultLabels "demo")
        = (Ok ps, t))
  /\ (exists ps t,
        run (performManualSlice flakyBackend (GMesh 0) demoBounds manualSplitX
               defaultConnectors defaultHollow defaultLabels "demo")
        = (Ok ps, t)).
Proof.
  assert (Hbase : run (createBrush flakyBackend (GMesh 0))
                  = (Ok (Some (mkBrush (GMesh 0))), [EvNormalize (GMesh 0)]))
    by reflexivity.
  assert (Htotal :
            (gridSteps (vx (getSize demoBounds)) (printerX defaultSlicing)
             * gridSteps (vy (getSize demoBounds)) (printerY defaultSlicing)
             * gridSteps (vz (getSize demoBounds)) (printerZ defaultSlicing)
             <= 500)%Z) by (vm_compute; discriminate).
  pose proof (cell_failure_is_isolated flakyBackend (mkBrush (GMesh 0))
                defaultSlicing defaultConnectors defaultLabels "demo"
                (bmin demoBounds)) as Hgrid.
  pose proof (cell_failure_is_isolated flakyBackend (mkBrush (GMesh 0))
                manualSplitX defaultConnectors defaultLabels "demo"
                (bmin demoBounds)) as Hmanual.
  destruct Hgrid as (_ & Hcut & _ & _ & _ & _ & Hrun & _).
  destruct Hmanual as (_ & _ & _ & _ & _ & _ & _ & _ & _ & _ & _ & Hmrun).
  split; [|split].
  - eexists.
    eapply (Hcut (getSize demoBounds) 2%Z 2%Z 2%Z 8%Z 0%Z 0%Z 0%Z
                 {| current := 0; parts := [] |} []).
    + reflexivity.
    + vm_compute. reflexivity.
    + reflexivity.
  - exact (Hrun (GMesh 0) demoBounds defaultHollow _ _
                eq_refl eq_refl eq_refl Htotal Hbase).
  - exact (Hmrun (GMesh 0) demoBounds defaultHollow _ _ Hbase).
Defined.

(** C8 as stated fails for the label union.  With an evaluator that cannot
    add, connectors off and labels on, the demo cube gives all its eight
    parts: in every cell the evaluator throws on the label union, no cell
    loses its part, and nothing is logged. *)
Lemma label_exception_is_not_logged :
  let r := run (performGridSlice noUnionBackend (GMesh 0) demoBounds
                  defaultSlicing connectorsOff defaultHollow defaultLabels
                  "demo") in
  (exists ps, fst r = Ok ps /\ List.length ps = 8%nat)
  /\ List.length
       (filter (fun ev => match ev with
                          | EvEvaluate a b ADDITION =>
                            match evaluate noUnionBackend a b ADDITION with
                            | Throw _ => true
                            | Ok _ => false
                            end
                          | _ => false
                          end) (snd r)) = 8%nat
  /\ filter (fun ev => match ev with EvConsoleError _ => true | _ => false end)
            (snd r) = [].
Proof.
  vm_compute. split; [|split; reflexivity]. eexists. split; reflexivity.
Qed.

(** * The boxes of a grid run *)











(** The sliver model: two cells along X by the formula, but only the first
    is at least 0.1 long, and only its box is built. *)
Example sliver_run :
  gridSteps (vx (getSize sliverBounds)) (printerX defaultSlicing) = 2%Z
  /\ List.length
       (cellBoxes
          (snd (run (performGridSlice sampleBackend (GMesh 0) sliverBounds
                       defaultSlicing defaultConnectors defaultHollow
                       defaultLabels "demo")))) = 1%nat.
Proof. split; reflexivity. Qed.



